(** * Focalboard REST API ([server/api/api.go]): boards-and-blocks handlers

    A shallow embedding of the parts of [api.go] that carry the design of
    the composite mutation engine: the orphan filter used by the export
    view, the metadata stamper, the subtree level check, the import
    handler and the three composite boards-and-blocks handlers; and, next
    to them, the handlers that read, insert, patch, delete and export the
    blocks of one board.

    Collaborators that live outside [api.go] (permission service, the
    [app] layer, the [model] validators, JSON encoding) are taken as the
    fields of an environment record; every call to one of them is logged
    in an event trace, so that ordering properties can be stated. *)

From Stdlib Require Import ZArith Lia Ascii String.
From stdpp Require Import base strings gmap list pretty.

(** ** Data model *)

(** Modelled from the spec: [model.Block] is declared in the [model]
    package; the fields kept are the ones [api.go] reads or writes. *)
Record Block := mkBlock {
  ID : string;
  BoardID : string;
  ParentID : string;
  BlockType : string;
  CreateAt : Z;
  UpdateAt : Z;
  ModifiedBy : string
}.

#[global] Instance Block_eq_dec : EqDecision Block.
Proof. solve_decision. Defined.

(** ** Tree integrity filter: [filterOrphanBlocks] *)

Module Orphans.

(** One iteration of the first loop for a block with a parent: append the
    block to the sibling list stored under its parent, or start that list. *)
Definition addChild (childrenOfBlockWithID : gmap string (list Block))
    (block : Block) : gmap string (list Block) :=
  match childrenOfBlockWithID !! ParentID block with
  | Some siblings =>
      <[ParentID block := siblings ++ [block]]> childrenOfBlockWithID
  | None => <[ParentID block := [block]]> childrenOfBlockWithID
  end.

(** "Build the trees from nodes": root blocks are queued, the others are
    filed under their parent identifier. *)
Fixpoint buildTrees (blocks queue : list Block)
    (childrenOfBlockWithID : gmap string (list Block))
    : list Block * gmap string (list Block) :=
  match blocks with
  | [] => (queue, childrenOfBlockWithID)
  | block :: rest =>
      if decide (String.length (ParentID block) = 0)
      then buildTrees rest (queue ++ [block]) childrenOfBlockWithID
      else buildTrees rest queue (addChild childrenOfBlockWithID block)
  end.

(** "Map the trees to an array": the [for len(queue) > 0] loop.  The loop
    has no bound in the source, so the model counts iterations: [None]
    means the queue was still not empty after [fuel] iterations. *)
Fixpoint mapTrees (fuel : nat) (childrenOfBlockWithID : gmap string (list Block))
    (queue blocks : list Block) : option (list Block) :=
  match queue with
  | [] => Some blocks
  | block :: queue' =>
      match fuel with
      | O => None
      | S fuel' =>
          match childrenOfBlockWithID !! ID block with
          | Some children =>
              mapTrees fuel' childrenOfBlockWithID (queue' ++ children)
                       (blocks ++ [block])
          | None =>
              mapTrees fuel' childrenOfBlockWithID queue' (blocks ++ [block])
          end
      end
  end.

Definition filterOrphanBlocks (fuel : nat) (blocks : list Block)
    : option (list Block) :=
  let '(queue, childrenOfBlockWithID) := buildTrees blocks [] ∅ in
  mapTrees fuel childrenOfBlockWithID queue [].

(** *** Specification vocabulary *)

Definition isRoot (b : Block) : Prop := ParentID b = ""%string.

#[global] Instance isRoot_dec b : Decision (isRoot b).
Proof. unfold isRoot. apply _. Defined.

Definition isChildOf (p : string) (c : Block) : Prop :=
  ParentID c ≠ ""%string ∧ ParentID c = p.

#[global] Instance isChildOf_dec p c : Decision (isChildOf p c).
Proof. unfold isChildOf. apply _. Defined.

(** Roots and direct children, in the order the input supplies them. *)
Definition roots (blocks : list Block) : list Block := filter isRoot blocks.

Definition kids (blocks : list Block) (b : Block) : list Block :=
  filter (isChildOf (ID b)) blocks.

(** The [k]-th generation below a list of blocks, for a children function. *)
Fixpoint generation (k : Block → list Block) (n : nat) (q : list Block)
    : list Block :=
  match n with
  | O => q
  | S n' => generation k n' (q ≫= k)
  end.

(** The first [n] generations, one after the other: breadth-first order. *)
Fixpoint levels (k : Block → list Block) (n : nat) (q : list Block)
    : list Block :=
  match n with
  | O => []
  | S n' => q ++ levels k n' (q ≫= k)
  end.

Definition lookupChildren (m : gmap string (list Block)) (b : Block)
    : list Block :=
  default [] (m !! ID b).

(** Loop invariant of [mapTrees] for an input [blocks]: [ret] holds the
    blocks already emitted, [queue] the ones waiting; no identifier occurs
    twice among them, they all come from the input, and whoever has a
    parent was queued by that parent. *)
Record Inv (blocks ret queue : list Block) : Prop := {
  inv_nodup : NoDup (ID <$> (ret ++ queue));
  inv_input : ∀ b, b ∈ ret ++ queue → b ∈ blocks;
  inv_parent : ∀ c, c ∈ ret ++ queue → ParentID c ≠ ""%string →
               ParentID c ∈ ID <$> ret
}.

(** *** Sample inputs *)

Definition sampleBlock (id parent type : string) : Block :=
  {| ID := id; BoardID := "board"; ParentID := parent; BlockType := type;
     CreateAt := 1; UpdateAt := 1; ModifiedBy := "" |}.

(** The input of the specification's example: [C] points at a parent [Z]
    that is not part of the list. *)
Definition blockA : Block := sampleBlock "A" "" "card".
Definition blockB : Block := sampleBlock "B" "A" "text".
Definition blockC : Block := sampleBlock "C" "Z" "text".
Definition sampleABC : list Block := [blockA; blockB; blockC].

(** Two different root blocks that carry the same identifier, and one
    child of that identifier. *)
Definition rootA1 : Block := sampleBlock "A" "" "card".
Definition rootA2 : Block := sampleBlock "A" "" "view".
Definition sharedRoot : list Block := [rootA1; rootA2; blockB].

(** A root and a block that names its own identifier as its parent. *)
Definition selfParent : Block := sampleBlock "A" "A" "text".
Definition selfParented : list Block := [blockA; selfParent].

End Orphans.

(** ** The HTTP handlers: data *)

Definition StatusOK : Z := 200.
Definition StatusBadRequest : Z := 400.
Definition StatusForbidden : Z := 403.
Definition StatusInternalServerError : Z := 500.

Definition SingleUser : string := "single-user".

(** Go [error] values and [(value, error)] results. *)
Inductive error := GoError (msg : string).

Inductive Result (A : Type) :=
| Ok (a : A)
| Failed (e : error).
Arguments Ok {A} a.
Arguments Failed {A} e.

(** Modelled from the spec: the permission flags of [model]. *)
Inductive Permission :=
| PermissionViewBoard
| PermissionManageBoardCards
| PermissionManageBoardProperties
| PermissionManageBoardType
| PermissionDeleteBoard
| PermissionCreatePublicChannel
| PermissionCreatePrivateChannel.

(** Modelled from the spec: [model.Board], visibility kind [open] or
    [private], with the fields [api.go] reads. *)
Record Board := mkBoard {
  Board_ID : string;
  TeamID : string;
  Board_Type : string
}.

(** Modelled from the spec: the two visibility kinds, constants of
    [model]; the handlers only compare a board's type with them. *)
Definition BoardTypeOpen : string := "O".
Definition BoardTypePrivate : string := "P".

(** Modelled from the spec: the bundle and patch/delete envelopes. *)
Record BoardsAndBlocks := mkBab {
  Boards : list Board;
  Blocks : list Block
}.

Record BoardPatch := mkBoardPatch {
  Patch_Type : option string;
  Patch_Title : option string
}.

Record BlockPatch := mkBlockPatch {
  Patch_ParentID : option string
}.

Record PatchBoardsAndBlocks := mkPbab {
  BoardIDs : list string;
  BoardPatches : list BoardPatch;
  BlockIDs : list string;
  BlockPatches : list BlockPatch
}.

Record DeleteBoardsAndBlocks := mkDbab {
  dbab_Boards : list string;
  dbab_Blocks : list string
}.

(** Modelled from the spec: audit records ([audit.Record]) start with the
    status given to [makeAuditRecord] and are flipped by [Success]. *)
Inductive AuditStatus := AuditFail | AuditSuccess.
Inductive AuditLevel := LevelRead | LevelModify.

Inductive MetaValue :=
| MetaString (v : string)
| MetaInt (v : Z)
| MetaBlock (v : Block).

Record AuditRecord := mkAuditRecord {
  EventName : string;
  Status : AuditStatus;
  Meta : list (string * MetaValue)
}.

(** What a handler does that can be seen from outside, in order. *)
Inductive Event :=
| CheckTeamPermission (userID teamID : string) (p : Permission)
| CheckBoardPermission (userID boardID : string) (p : Permission)
| CallIsValidReadToken (boardID token : string)
| CallGetBoard (boardID : string)
| CallGetBlockWithID (blockID : string)
| CallGenerateBoardsAndBlocksIDs (bab : BoardsAndBlocks)
| CallCreateBoardsAndBlocks (bab : BoardsAndBlocks) (userID : string)
| CallPatchBoardsAndBlocks (pbab : PatchBoardsAndBlocks) (userID : string)
| CallDeleteBoardsAndBlocks (dbab : DeleteBoardsAndBlocks) (userID : string)
| CallGetSubTree (boardID blockID : string) (levels : Z)
| CallGenerateBlockIDs (blocks : list Block)
| CallInsertBlocks (blocks : list Block) (userID : string)
| Respond (code : Z) (body : string)
| RespondError (code : Z) (message : string)
| Panic
| AuditLogged (level : AuditLevel) (rec : AuditRecord).

(** The collaborators of the handlers.  Within one request the read-only
    ones answer as functions of their arguments; [GetMillis n] is the
    [n]-th reading of the clock. *)
Record Env := mkEnv {
  HasPermissionToTeam : string → string → Permission → bool;
  HasPermissionToBoard : string → string → Permission → bool;
  IsValidReadToken : string → string → Result bool;
  GetBoard : string → Result (option Board);
  GetBlockWithID : string → Result (option Block);
  GetSubTree : string → string → Z → Result (list Block);
  GenerateBoardsAndBlocksIDs : BoardsAndBlocks → Result BoardsAndBlocks;
  GenerateBlockIDs : list Block → list Block;
  app_CreateBoardsAndBlocks :
    BoardsAndBlocks → string → bool → Result BoardsAndBlocks;
  app_PatchBoardsAndBlocks :
    PatchBoardsAndBlocks → string → Result BoardsAndBlocks;
  app_DeleteBoardsAndBlocks : DeleteBoardsAndBlocks → string → option error;
  InsertBlocks : list Block → string → bool → Result (list Block);
  pbab_IsValid : PatchBoardsAndBlocks → option error;
  patch_IsValid : BoardPatch → option error;
  dbab_IsValid : DeleteBoardsAndBlocks → option error;
  MarshalBab : BoardsAndBlocks → Result string;
  MarshalBlocks : list Block → Result string;
  GetMillis : nat → Z
}.

(** The request: the session put in the context by the middleware, the
    route variables and the query string. *)
Record Request := mkRequest {
  session : option string;
  vars : string → string;
  query : string → string
}.

(** What is left of the body after [ioutil.ReadAll] and [json.Unmarshal];
    [BodyNull] is the JSON [null], which leaves a pointer target [nil]. *)
Inductive Body (A : Type) :=
| BodyReadError
| BodyMalformed
| BodyNull
| BodyValue (a : A).
Arguments BodyReadError {A}.
Arguments BodyMalformed {A}.
Arguments BodyNull {A}.
Arguments BodyValue {A} a.

Definition getUserID (r : Request) : string :=
  match session r with
  | None => ""
  | Some userID => userID
  end.

(** ** The handler monad *)

(** Mutable state of one handler run: the audit record, the deferred
    [LogRecord] call, and how many times the clock was read. *)
Record HState := mkHState {
  auditRec : option AuditRecord;
  deferred : option AuditLevel;
  clockReads : nat
}.

Definition initialState : HState :=
  {| auditRec := None; deferred := None; clockReads := 0 |}.

(** A step appends events, updates the state, and either goes on with a
    value or has returned from the handler ([None]). *)
Definition Handler (A : Type) : Type := HState → list Event * HState * option A.

#[global] Instance Handler_ret : MRet Handler :=
  λ A a s, ([], s, Some a).

#[global] Instance Handler_bind : MBind Handler :=
  λ A B k m s,
    match m s with
    | (ev1, s1, Some a) =>
        match k a s1 with
        | (ev2, s2, ob) => (ev1 ++ ev2, s2, ob)
        end
    | (ev1, s1, None) => (ev1, s1, None)
    end.

Definition emit (e : Event) : Handler unit := λ s, ([e], s, Some tt).

(** [a.errorResponse(w, path, code, message, err); return] *)
Definition abort {A} (code : Z) (message : string) : Handler A :=
  λ s, ([RespondError code message], s, None).

(** A run-time panic (nil dereference, index out of range). *)
Definition panic {A} : Handler A := λ s, ([Panic], s, None).

Fixpoint foldM {A X} (f : A → X → Handler A) (acc : A) (xs : list X)
    : Handler A :=
  match xs with
  | [] => mret acc
  | x :: rest => acc' ← f acc x; foldM f acc' rest
  end.

Fixpoint forEach {X} (f : X → Handler unit) (xs : list X) : Handler unit :=
  match xs with
  | [] => mret tt
  | x :: rest => f x;; forEach f rest
  end.

(** Modelled from the spec: [makeAuditRecord] is declared in another file
    of the package; it starts a record for [event] with the outcome given.
    [auditRec := a.makeAuditRecord(r, event, audit.Fail)] *)
Definition makeAuditRecord (event : string) (initialStatus : AuditStatus)
    : Handler unit :=
  λ s, ([], {| auditRec := Some (mkAuditRecord event initialStatus []);
               deferred := deferred s; clockReads := clockReads s |}, Some tt).

(** [defer a.audit.LogRecord(level, auditRec)] *)
Definition deferLogRecord (level : AuditLevel) : Handler unit :=
  λ s, ([], {| auditRec := auditRec s; deferred := Some level;
               clockReads := clockReads s |}, Some tt).

Definition updateRecord (f : AuditRecord → AuditRecord) : Handler unit :=
  λ s, ([], {| auditRec := f <$> auditRec s; deferred := deferred s;
               clockReads := clockReads s |}, Some tt).

Definition appendMeta (entries : list (string * MetaValue))
    (rec : AuditRecord) : AuditRecord :=
  mkAuditRecord (EventName rec) (Status rec) (Meta rec ++ entries).

Definition AddMeta (key : string) (v : MetaValue) : Handler unit :=
  updateRecord (appendMeta [(key, v)]).

Definition Success : Handler unit :=
  updateRecord (λ rec, mkAuditRecord (EventName rec) AuditSuccess (Meta rec)).

(** [utils.GetMillis()] *)
Definition getMillis (env : Env) : Handler Z :=
  λ s, ([], {| auditRec := auditRec s; deferred := deferred s;
               clockReads := S (clockReads s) |},
        Some (GetMillis env (clockReads s))).

Definition hasPermissionToTeam (env : Env) (userID teamID : string)
    (p : Permission) : Handler bool :=
  emit (CheckTeamPermission userID teamID p);;
  mret (HasPermissionToTeam env userID teamID p).

Definition hasPermissionToBoard (env : Env) (userID boardID : string)
    (p : Permission) : Handler bool :=
  emit (CheckBoardPermission userID boardID p);;
  mret (HasPermissionToBoard env userID boardID p).

(** Running a handler: the deferred [LogRecord] fires when it returns. *)
Definition logDeferred (s : HState) : list Event :=
  match deferred s, auditRec s with
  | Some level, Some rec => [AuditLogged level rec]
  | _, _ => []
  end.

Definition runHandler (h : Handler unit) : list Event :=
  match h initialState with
  | (evs, s, _) => evs ++ logDeferred s
  end.

(** Body of a message built with [fmt.Sprintf("... %s", id)]. *)
Definition sprintf1 (prefix id : string) : string := (prefix +:+ id)%string.

(** ** [strconv.ParseInt(s, 10, 32)]

    The Go library function, as far as [handleGetSubTree] depends on it:
    an optional sign followed by at least one decimal digit, and a value
    that fits 32 bits; everything else is an error. *)

Definition digitValue (c : Ascii.ascii) : option Z :=
  let n := Z.of_N (Ascii.N_of_ascii c) in
  if decide (48 ≤ n ≤ 57)%Z then Some (n - 48)%Z else None.

Fixpoint parseDigits (s : string) (acc : Z) : option Z :=
  match s with
  | EmptyString => Some acc
  | String c rest =>
      match digitValue c with
      | Some d => parseDigits rest (acc * 10 + d)%Z
      | None => None
      end
  end.

Definition parseUnsigned (s : string) : option Z :=
  match s with
  | EmptyString => None
  | _ => parseDigits s 0
  end.

Definition ParseInt32 (s : string) : option Z :=
  match s with
  | EmptyString => None
  | String c rest =>
      if decide (c = "+"%char) then
        match parseUnsigned rest with
        | Some un => if decide (un < 2 ^ 31)%Z then Some un else None
        | None => None
        end
      else if decide (c = "-"%char) then
        match parseUnsigned rest with
        | Some un => if decide (un ≤ 2 ^ 31)%Z then Some (- un)%Z else None
        | None => None
        end
      else
        match parseUnsigned s with
        | Some un => if decide (un < 2 ^ 31)%Z then Some un else None
        | None => None
        end
  end.

(** ** [stampModificationMetadata] *)

Definition stampBlock (userID : string) (now : Z) (b : Block) : Block :=
  {| ID := ID b; BoardID := BoardID b; ParentID := ParentID b;
     BlockType := BlockType b; CreateAt := CreateAt b;
     UpdateAt := now; ModifiedBy := userID |}.

(** The loop over [range blocks]; [AddMeta] acts on the record when there
    is one ([auditRec != nil]). *)
Fixpoint stampLoop (userID : string) (now : Z) (i : nat) (blocks : list Block)
    : Handler (list Block) :=
  match blocks with
  | [] => mret []
  | block :: rest =>
      let block' := stampBlock userID now block in
      AddMeta ("block_" +:+ pretty (Z.of_nat i)) (MetaBlock block');;
      rest' ← stampLoop userID now (S i) rest;
      mret (block' :: rest')
  end.

Definition stampModificationMetadata (env : Env) (r : Request)
    (blocks : list Block) : Handler (list Block) :=
  let userID := getUserID r in
  let userID := if decide (userID = SingleUser) then ""%string else userID in
  now ← getMillis env;
  stampLoop userID now 0 blocks.
Arguments stampModificationMetadata : simpl never.

(** ** [handleGetSubTree] *)

Definition hasValidReadTokenForBoard (env : Env) (r : Request)
    (boardID : string) : Handler bool :=
  let readToken := query r "read_token" in
  if decide (String.length readToken < 1) then mret false
  else
    emit (CallIsValidReadToken boardID readToken);;
    match IsValidReadToken env boardID readToken with
    | Failed _ => mret false
    | Ok isValid => mret isValid
    end.

(** The condition of the first [if], negated: a valid read token, or
    else the permission to view the board ([&&] does not evaluate the
    permission call when the token is valid). *)
Definition viewAccess (env : Env) (r : Request) (userID boardID : string)
    : Handler bool :=
  validToken ← hasValidReadTokenForBoard env r boardID;
  if validToken : bool then mret true
  else hasPermissionToBoard env userID boardID PermissionViewBoard.

Definition handleGetSubTree (env : Env) (r : Request) : Handler unit :=
  let userID := getUserID r in
  let boardID := vars r "boardID" in
  let blockID := vars r "blockID" in
  allowed ← viewAccess env r userID boardID;
  if negb allowed then abort StatusForbidden "" else
  let levels := match ParseInt32 (query r "l") with
                | Some n => n
                | None => 2%Z
                end in
  if decide (levels ≠ 2%Z ∧ levels ≠ 3%Z)
  then abort StatusBadRequest "invalid levels" else
  makeAuditRecord "getSubTree" AuditFail;;
  deferLogRecord LevelRead;;
  AddMeta "boardID" (MetaString boardID);;
  AddMeta "blockID" (MetaString blockID);;
  emit (CallGetSubTree boardID blockID levels);;
  match GetSubTree env boardID blockID levels with
  | Failed _ => abort StatusInternalServerError ""
  | Ok blocks =>
      match MarshalBlocks env blocks with
      | Failed _ => abort StatusInternalServerError ""
      | Ok json =>
          emit (Respond StatusOK json);;
          AddMeta "blockCount" (MetaInt (Z.of_nat (length blocks)));;
          Success
      end
  end.

(** ** [handleImport] *)

Definition setBoardID (boardID : string) (b : Block) : Block :=
  {| ID := ID b; BoardID := boardID; ParentID := ParentID b;
     BlockType := BlockType b; CreateAt := CreateAt b;
     UpdateAt := UpdateAt b; ModifiedBy := ModifiedBy b |}.

Definition handleImport (env : Env) (r : Request) (body : Body (list Block))
    : Handler unit :=
  let userID := getUserID r in
  let boardID := vars r "boardID" in
  allowed ← hasPermissionToBoard env userID boardID PermissionManageBoardCards;
  if negb allowed then abort StatusForbidden "" else
  blocks ← match body with
           | BodyReadError => abort StatusInternalServerError ""
           | BodyMalformed => abort StatusInternalServerError ""
           | BodyNull => mret []
           | BodyValue blocks => mret blocks
           end;
  makeAuditRecord "import" AuditFail;;
  deferLogRecord LevelModify;;
  AddMeta "boardID" (MetaString boardID);;
  let blocks := setBoardID boardID <$> blocks in
  blocks ← stampModificationMetadata env r blocks;
  emit (CallGenerateBlockIDs blocks);;
  emit (CallInsertBlocks (GenerateBlockIDs env blocks) userID);;
  match InsertBlocks env (GenerateBlockIDs env blocks) userID false with
  | Failed _ => abort StatusInternalServerError ""
  | Ok _ =>
      emit (Respond StatusOK "{}");;
      AddMeta "blockCount" (MetaInt (Z.of_nat (length blocks)));;
      Success
  end.

(** ** [handleCreateBoardsAndBlocks] *)

(** Body of the loop over [newBab.Blocks]. *)
Definition checkBlock (block : Block) : Handler unit :=
  if decide (String.length (BlockType block) < 1) then
    abort StatusBadRequest (sprintf1 "missing type for block id " (ID block))
  else if decide (CreateAt block < 1)%Z then
    abort StatusBadRequest (sprintf1 "invalid createAt for block id " (ID block))
  else if decide (UpdateAt block < 1)%Z then
    abort StatusBadRequest (sprintf1 "invalid UpdateAt for block id " (ID block))
  else mret tt.

(** The variables the loop over [newBab.Boards] updates. *)
Record CreateVars := mkCreateVars {
  createsPublicBoards : bool;
  createsPrivateBoards : bool;
  teamID : string
}.

Definition multipleTeamsMessage : string :=
  "cannot create boards for multiple teams".

Definition boardNeedsIDMessage : string :=
  "boards need an ID to be referenced from the blocks".

(** Body of the loop over [newBab.Boards]; the first branch is the
    [continue]. *)
Definition checkBoard (v : CreateVars) (board : Board) : Handler CreateVars :=
  let public := if decide (Board_Type board = BoardTypeOpen)
                then true else createsPublicBoards v in
  let private := if decide (Board_Type board = BoardTypePrivate)
                 then true else createsPrivateBoards v in
  if decide (teamID v = ""%string) then
    mret (mkCreateVars public private (TeamID board))
  else if decide (teamID v ≠ TeamID board) then
    abort StatusBadRequest multipleTeamsMessage
  else if decide (Board_ID board = ""%string) then
    abort StatusBadRequest boardNeedsIDMessage
  else mret (mkCreateVars public private (teamID v)).

(** Everything up to the permission checks: validation of blocks and
    boards, identifier generation, permission checks. *)
Definition createChecks (env : Env) (userID : string) (newBab : BoardsAndBlocks)
    : Handler (BoardsAndBlocks * string) :=
  forEach checkBlock (Blocks newBab);;
  v ← foldM checkBoard (mkCreateVars false false "") (Boards newBab);
  emit (CallGenerateBoardsAndBlocksIDs newBab);;
  match GenerateBoardsAndBlocksIDs env newBab with
  | Failed _ => abort StatusBadRequest ""
  | Ok newBab =>
      public ← (if createsPublicBoards v
                then hasPermissionToTeam env userID (teamID v)
                       PermissionCreatePublicChannel
                else mret true);
      if negb public then abort StatusForbidden "" else
      private ← (if createsPrivateBoards v
                 then hasPermissionToTeam env userID (teamID v)
                        PermissionCreatePrivateChannel
                 else mret true);
      if negb private then abort StatusForbidden "" else
      mret (newBab, teamID v)
  end.

(** From [makeAuditRecord] to [auditRec.Success()]. *)
Definition createCommit (env : Env) (userID : string)
    (checked : BoardsAndBlocks * string) : Handler unit :=
  let '(newBab, teamID) := checked in
  makeAuditRecord "createBoardsAndBlocks" AuditFail;;
  deferLogRecord LevelModify;;
  AddMeta "teamID" (MetaString teamID);;
  AddMeta "userID" (MetaString userID);;
  AddMeta "boardsCount" (MetaInt (Z.of_nat (length (Boards newBab))));;
  AddMeta "blocksCount" (MetaInt (Z.of_nat (length (Blocks newBab))));;
  emit (CallCreateBoardsAndBlocks newBab userID);;
  match app_CreateBoardsAndBlocks env newBab userID true with
  | Failed _ => abort StatusInternalServerError ""
  | Ok bab =>
      match MarshalBab env bab with
      | Failed _ => abort StatusInternalServerError ""
      | Ok data => emit (Respond StatusOK data);; Success
      end
  end.

Definition handleCreateBoardsAndBlocks (env : Env) (r : Request)
    (body : Body BoardsAndBlocks) : Handler unit :=
  let userID := getUserID r in
  newBab ← match body with
           | BodyReadError => abort StatusInternalServerError ""
           | BodyMalformed => abort StatusBadRequest ""
           | BodyNull => panic
           | BodyValue newBab => mret newBab
           end;
  checked ← createChecks env userID newBab;
  createCommit env userID checked.

(** ** [handlePatchBoardsAndBlocks] *)

Record PatchVars := mkPatchVars {
  patch_teamID : string;
  boardIDMap : gmap string bool
}.

(** Body of the loop [for i, boardID := range pbab.BoardIDs]. *)
Definition patchCheckBoard (env : Env) (userID : string)
    (pbab : PatchBoardsAndBlocks) (v : PatchVars) (entry : nat * string)
    : Handler PatchVars :=
  let '(i, boardID) := entry in
  let boardIDMap := <[boardID := true]> (boardIDMap v) in
  match BoardPatches pbab !! i with
  | None => panic
  | Some patch =>
      match patch_IsValid env patch with
      | Some _ => abort StatusBadRequest ""
      | None =>
          properties ← hasPermissionToBoard env userID boardID
                         PermissionManageBoardProperties;
          if negb properties then abort StatusForbidden "" else
          type ← (match Patch_Type patch with
                  | Some _ => hasPermissionToBoard env userID boardID
                                PermissionManageBoardType
                  | None => mret true
                  end);
          if negb type then abort StatusForbidden "" else
          emit (CallGetBoard boardID);;
          match GetBoard env boardID with
          | Failed _ => abort StatusInternalServerError ""
          | Ok None => abort StatusBadRequest ""
          | Ok (Some board) =>
              let teamID := if decide (patch_teamID v = ""%string)
                            then TeamID board else patch_teamID v in
              if decide (teamID ≠ TeamID board)
              then abort StatusBadRequest ""
              else mret (mkPatchVars teamID boardIDMap)
          end
      end
  end.

(** Body of the loop over [pbab.BlockIDs]. *)
Definition patchCheckBlock (env : Env) (boardIDMap : gmap string bool)
    (blockID : string) : Handler unit :=
  emit (CallGetBlockWithID blockID);;
  match GetBlockWithID env blockID with
  | Failed _ => abort StatusInternalServerError ""
  | Ok None => abort StatusBadRequest ""
  | Ok (Some block) =>
      match boardIDMap !! BoardID block with
      | None => abort StatusBadRequest ""
      | Some _ => mret tt
      end
  end.

Definition indexed {X} (xs : list X) : list (nat * X) :=
  zip (seq 0 (length xs)) xs.

Definition patchChecks (env : Env) (userID : string)
    (pbab : PatchBoardsAndBlocks) : Handler unit :=
  match pbab_IsValid env pbab with
  | Some _ => abort StatusBadRequest ""
  | None =>
      v ← foldM (patchCheckBoard env userID pbab) (mkPatchVars "" ∅)
                (indexed (BoardIDs pbab));
      forEach (patchCheckBlock env (boardIDMap v)) (BlockIDs pbab)
  end.

Definition patchCommit (env : Env) (userID : string)
    (pbab : PatchBoardsAndBlocks) : Handler unit :=
  makeAuditRecord "patchBoardsAndBlocks" AuditFail;;
  deferLogRecord LevelModify;;
  AddMeta "boardsCount" (MetaInt (Z.of_nat (length (BoardIDs pbab))));;
  AddMeta "blocksCount" (MetaInt (Z.of_nat (length (BlockIDs pbab))));;
  emit (CallPatchBoardsAndBlocks pbab userID);;
  match app_PatchBoardsAndBlocks env pbab userID with
  | Failed _ => abort StatusInternalServerError ""
  | Ok bab =>
      match MarshalBab env bab with
      | Failed _ => abort StatusInternalServerError ""
      | Ok data => emit (Respond StatusOK data);; Success
      end
  end.

Definition handlePatchBoardsAndBlocks (env : Env) (r : Request)
    (body : Body PatchBoardsAndBlocks) : Handler unit :=
  let userID := getUserID r in
  pbab ← match body with
         | BodyReadError => abort StatusInternalServerError ""
         | BodyMalformed => abort StatusBadRequest ""
         | BodyNull => panic
         | BodyValue pbab => mret pbab
         end;
  patchChecks env userID pbab;;
  patchCommit env userID pbab.

(** ** [handleDeleteBoardsAndBlocks] *)

(** Body of the loop over [dbab.Boards]; the value carried along is the
    local [teamID]. *)
Definition deleteCheckBoard (env : Env) (userID : string) (teamID : string)
    (boardID : string) : Handler string :=
  emit (CallGetBoard boardID);;
  match GetBoard env boardID with
  | Failed _ => abort StatusInternalServerError ""
  | Ok None => abort StatusBadRequest ""
  | Ok (Some board) =>
      let teamID := if decide (teamID = ""%string)
                    then TeamID board else teamID in
      if decide (teamID ≠ TeamID board) then abort StatusBadRequest "" else
      allowed ← hasPermissionToBoard env userID boardID PermissionDeleteBoard;
      if negb allowed then abort StatusForbidden "" else mret teamID
  end.

Definition deleteChecks (env : Env) (userID : string)
    (dbab : DeleteBoardsAndBlocks) : Handler unit :=
  foldM (deleteCheckBoard env userID) ""%string (dbab_Boards dbab);;
  match dbab_IsValid env dbab with
  | Some _ => abort StatusBadRequest ""
  | None => mret tt
  end.

Definition deleteCommit (env : Env) (userID : string)
    (dbab : DeleteBoardsAndBlocks) : Handler unit :=
  makeAuditRecord "deleteBoardsAndBlocks" AuditFail;;
  deferLogRecord LevelModify;;
  AddMeta "boardsCount" (MetaInt (Z.of_nat (length (dbab_Boards dbab))));;
  AddMeta "blocksCount" (MetaInt (Z.of_nat (length (dbab_Blocks dbab))));;
  emit (CallDeleteBoardsAndBlocks dbab userID);;
  match app_DeleteBoardsAndBlocks env dbab userID with
  | Some _ => abort StatusInternalServerError ""
  | None => emit (Respond StatusOK "{}");; Success
  end.

Definition handleDeleteBoardsAndBlocks (env : Env) (r : Request)
    (body : Body DeleteBoardsAndBlocks) : Handler unit :=
  let userID := getUserID r in
  dbab ← match body with
         | BodyReadError => abort StatusInternalServerError ""
         | BodyMalformed => abort StatusBadRequest ""
         | BodyNull => panic
         | BodyValue dbab => mret dbab
         end;
  deleteChecks env userID dbab;;
  deleteCommit env userID dbab.

(** ** Vocabulary for statements about handlers *)

(** [Emits N X h]: whenever [h] goes on, the events it added satisfy [N];
    whenever it returns from the handler, the last event it added
    satisfies [X] and the ones before satisfy [N]. *)
Definition Emits {A} (N X : Event → Prop) (h : Handler A) : Prop :=
  ∀ s, match h s with
       | (evs, _, Some _) => Forall N evs
       | (evs, _, None) => ∃ evs' e, evs = evs' ++ [e] ∧ Forall N evs' ∧ X e
       end.

(** [Stateless h]: [h] leaves the audit record and the clock alone. *)
Definition Stateless {A} (h : Handler A) : Prop :=
  ∀ s, (h s).1.2 = s.

Definition isPermissionCheck (e : Event) : Prop :=
  match e with
  | CheckTeamPermission _ _ _ | CheckBoardPermission _ _ _ => True
  | _ => False
  end.

Definition isBadRequest (e : Event) : Prop :=
  match e with
  | RespondError code _ => code = StatusBadRequest
  | _ => False
  end.

(** The handler stopped without a success response. *)
Definition isAbort (e : Event) : Prop :=
  match e with
  | RespondError _ _ | Panic => True
  | _ => False
  end.

(** Calls that read from collaborators, before anything is written. *)
Definition isLookup (e : Event) : Prop :=
  match e with
  | CheckTeamPermission _ _ _ | CheckBoardPermission _ _ _
  | CallIsValidReadToken _ _ | CallGetBoard _ | CallGetBlockWithID _
  | CallGenerateBoardsAndBlocksIDs _ => True
  | _ => False
  end.

Definition isAuditLogged (e : Event) : Prop :=
  match e with
  | AuditLogged _ _ => True
  | _ => False
  end.

(** The audit entries [stampModificationMetadata] adds, one per block. *)
Fixpoint stampMeta (userID : string) (now : Z) (i : nat) (blocks : list Block)
    : list (string * MetaValue) :=
  match blocks with
  | [] => []
  | block :: rest =>
      ("block_" +:+ pretty (Z.of_nat i), MetaBlock (stampBlock userID now block))
      :: stampMeta userID now (S i) rest
  end.

(** What the create handler rejects in a block, and its opposite. *)
Definition invalidBlock (b : Block) : Prop :=
  BlockType b = ""%string ∨ (CreateAt b < 1)%Z ∨ (UpdateAt b < 1)%Z.

Definition validBlock (b : Block) : Prop :=
  BlockType b ≠ ""%string ∧ (1 ≤ CreateAt b)%Z ∧ (1 ≤ UpdateAt b)%Z.

(** A board after the first that the create handler lets through, when
    the first board's team is [team]. *)
Definition boardFits (team : string) (b : Board) : Prop :=
  TeamID b = team ∧ Board_ID b ≠ ""%string.

#[global] Instance boardFits_dec team b : Decision (boardFits team b).
Proof. unfold boardFits. apply _. Defined.

(** The message for a board after the first that does not fit. *)
Definition misfitMessage (team : string) (b : Board) : string :=
  if decide (team ≠ TeamID b) then multipleTeamsMessage
  else boardNeedsIDMessage.

(** Bundles used in the examples: the second board lacks an identifier
    and the third one belongs to another team; and a bundle whose first
    board has no team. *)
Definition sampleCard : Block :=
  {| ID := "k1"; BoardID := "b1"; ParentID := ""; BlockType := "card";
     CreateAt := 1; UpdateAt := 1; ModifiedBy := "" |}.

Definition mixedBundle : BoardsAndBlocks :=
  mkBab [mkBoard "b1" "T1" "O"; mkBoard "" "T1" "O"; mkBoard "b3" "T2" "O"]
        [sampleCard].

Definition teamlessFirstBundle : BoardsAndBlocks :=
  mkBab [mkBoard "b1" "" "O"; mkBoard "" "T1" "O"] [sampleCard].

(** The blocks a request body submits to [handleImport]. *)
Definition importedBlocks (body : Body (list Block)) : list Block :=
  match body with
  | BodyValue blocks => blocks
  | _ => []
  end.

(** Whether the access check of [handleGetSubTree] lets the request in. *)
Definition readTokenValid (env : Env) (r : Request) (boardID : string) : bool :=
  if decide (String.length (query r "read_token") < 1) then false
  else match IsValidReadToken env boardID (query r "read_token") with
       | Ok isValid => isValid
       | Failed _ => false
       end.

Definition canViewBoard (env : Env) (r : Request) : bool :=
  readTokenValid env r (vars r "boardID")
  || HasPermissionToBoard env (getUserID r) (vars r "boardID")
       PermissionViewBoard.

(** The actor [stampModificationMetadata] writes into [ModifiedBy]. *)
Definition stampedActor (r : Request) : string :=
  if decide (getUserID r = SingleUser) then ""%string else getUserID r.

(** ** Sample collaborators and requests *)

Definition sampleEnv (teamPermission boardPermission : bool)
    (getBoard : string → Result (option Board))
    (getBlock : string → Result (option Block)) : Env :=
  {| HasPermissionToTeam := λ _ _ _, teamPermission;
     HasPermissionToBoard := λ _ _ _, boardPermission;
     IsValidReadToken := λ _ _, Ok false;
     GetBoard := getBoard;
     GetBlockWithID := getBlock;
     GetSubTree := λ _ _ _, Ok [];
     GenerateBoardsAndBlocksIDs := λ bab, Ok bab;
     GenerateBlockIDs :=
       fmap (λ b, {| ID := "new-" +:+ ID b; BoardID := BoardID b;
                     ParentID := ParentID b; BlockType := BlockType b;
                     CreateAt := CreateAt b; UpdateAt := UpdateAt b;
                     ModifiedBy := ModifiedBy b |});
     app_CreateBoardsAndBlocks := λ bab _ _, Ok bab;
     app_PatchBoardsAndBlocks := λ _ _, Ok (mkBab [] []);
     app_DeleteBoardsAndBlocks := λ _ _, None;
     InsertBlocks := λ blocks _ _, Ok blocks;
     pbab_IsValid := λ _, None;
     patch_IsValid := λ _, None;
     dbab_IsValid := λ _, None;
     MarshalBab := λ _, Ok "{}"%string;
     MarshalBlocks := λ _, Ok "[]"%string;
     GetMillis := λ n, (1000 + Z.of_nat n)%Z |}.

Definition boardInTeam (team : string) (boardID : string)
    : Result (option Board) :=
  Ok (Some (mkBoard boardID team "O")).

Definition blockOnBoard (boardID : string) (blockID : string)
    : Result (option Block) :=
  Ok (Some {| ID := blockID; BoardID := boardID; ParentID := "";
              BlockType := "card"; CreateAt := 1; UpdateAt := 1;
              ModifiedBy := "" |}).

Definition noBoard (boardID : string) : Result (option Board) := Ok None.
Definition noBlock (blockID : string) : Result (option Block) := Ok None.

Definition openEnv : Env :=
  sampleEnv true true (boardInTeam "T1") (blockOnBoard "b1").

Definition sampleRequest (l : string) : Request :=
  {| session := Some "user1"%string;
     vars := λ key, if decide (key = "boardID"%string) then "b1"%string
                    else "k1"%string;
     query := λ key, if decide (key = "l"%string) then l else ""%string |}.

(** ** Traces of the composite handlers *)

Inductive CompositeKind := CreateRequest | PatchRequest | DeleteRequest.

(** The traces the three boards-and-blocks handlers can produce. *)
Inductive CompositeTrace (env : Env) (r : Request)
    : CompositeKind → list Event → Prop :=
| CreateTrace body :
    CompositeTrace env r CreateRequest
      (runHandler (handleCreateBoardsAndBlocks env r body))
| PatchTrace body :
    CompositeTrace env r PatchRequest
      (runHandler (handlePatchBoardsAndBlocks env r body))
| DeleteTrace body :
    CompositeTrace env r DeleteRequest
      (runHandler (handleDeleteBoardsAndBlocks env r body)).

(** The call that hands the request over to the persistence layer. *)
Definition isCommitCall (e : Event) : Prop :=
  match e with
  | CallCreateBoardsAndBlocks _ _ | CallPatchBoardsAndBlocks _ _
  | CallDeleteBoardsAndBlocks _ _ => True
  | _ => False
  end.

(** The three shapes of a trace: rejected by a check; handed over and
    failed; handed over and answered. *)
Inductive Outcome (t : list Event) : Prop :=
| Rejected pre e :
    t = pre ++ [e] → Forall isLookup pre → isAbort e → Outcome t
| CommitFailed pre c rec :
    t = pre ++ [c; RespondError StatusInternalServerError "";
                AuditLogged LevelModify rec] →
    Forall isLookup pre → isCommitCall c → Status rec = AuditFail →
    Outcome t
| Committed pre c data rec :
    t = pre ++ [c; Respond StatusOK data; AuditLogged LevelModify rec] →
    Forall isLookup pre → isCommitCall c → Status rec = AuditSuccess →
    Outcome t.

(** What the part of a handler after its checks does, started in the
    initial state. *)
Definition CommitShape (h : Handler unit) : Prop :=
  ∃ c s' res,
    isCommitCall c ∧
    (h initialState =
       ([c; RespondError StatusInternalServerError ""], s', res)
     ∧ (∃ rec, logDeferred s' = [AuditLogged LevelModify rec]
               ∧ Status rec = AuditFail)
     ∨ ∃ data, h initialState = ([c; Respond StatusOK data], s', res)
               ∧ ∃ rec, logDeferred s' = [AuditLogged LevelModify rec]
                        ∧ Status rec = AuditSuccess).

(** A targeted block the patch handler must refuse: it does not exist, or
    its board is not among the targeted boards. *)
Definition foreignBlock (env : Env) (boardIDs : list string)
    (blockID : string) : Prop :=
  GetBlockWithID env blockID = Ok None
  ∨ ∃ block, GetBlockWithID env blockID = Ok (Some block)
             ∧ BoardID block ∉ boardIDs.

(** The loop over the targeted boards of a patch request goes through. *)
Definition patchBoardsPass (env : Env) (userID : string)
    (pbab : PatchBoardsAndBlocks) : Prop :=
  ∃ evs v, foldM (patchCheckBoard env userID pbab) (mkPatchVars "" ∅)
             (indexed (BoardIDs pbab)) initialState
           = (evs, initialState, Some v).

(** A store without boards or blocks, and requests against it. *)
Definition emptyStoreEnv : Env := sampleEnv true true noBoard noBlock.

Definition patchMissingBoard : PatchBoardsAndBlocks :=
  mkPbab ["b1"%string] [mkBoardPatch None None] [] [].

Definition untypedBlockBundle : BoardsAndBlocks :=
  mkBab [mkBoard "b1" "T1" "O"]
        [{| ID := "k1"; BoardID := "b1"; ParentID := ""; BlockType := "";
            CreateAt := 1; UpdateAt := 1; ModifiedBy := "" |}].

(** A patch request for a block that does not exist, by a user who may
    not change the board. *)
Definition lockedEnv : Env := sampleEnv true false (boardInTeam "T1") noBlock.

Definition patchMissingBlock : PatchBoardsAndBlocks :=
  mkPbab ["b1"%string] [mkBoardPatch None None]
         ["k1"%string] [mkBlockPatch None].

(** The same request where the user may change the board. *)
Definition blocklessEnv : Env := sampleEnv true true (boardInTeam "T1") noBlock.

(** ** Further vocabulary for the tree integrity filter *)

(** A block of the input that is connected to a root block through
    parents that are in the input as well. *)
Inductive Rooted (blocks : list Block) : Block → Prop :=
| rooted_root b :
    b ∈ blocks → ParentID b = ""%string → Rooted blocks b
| rooted_child p c :
    Rooted blocks p → c ∈ blocks → ParentID c ≠ ""%string →
    ParentID c = ID p → Rooted blocks c.

(** ** Further vocabulary for the composite handlers *)

(** The team the create handler ends up with: the team of the first
    board that names one. *)
Fixpoint firstTeam (boards : list Board) : string :=
  match boards with
  | [] => ""
  | b :: rest =>
      if decide (TeamID b = ""%string) then firstTeam rest else TeamID b
  end.

(** ** [handlePostBlocks] *)

(** Body of the loop over the submitted blocks. *)
Definition checkPostedBlock (boardID : string) (block : Block)
    : Handler unit :=
  if decide (String.length (BlockType block) < 1) then
    abort StatusBadRequest (sprintf1 "missing type for block id " (ID block))
  else if decide (CreateAt block < 1)%Z then
    abort StatusBadRequest (sprintf1 "invalid createAt for block id " (ID block))
  else if decide (UpdateAt block < 1)%Z then
    abort StatusBadRequest (sprintf1 "invalid UpdateAt for block id " (ID block))
  else if decide (BoardID block ≠ boardID) then
    abort StatusBadRequest (sprintf1 "invalid BoardID for block id " (ID block))
  else mret tt.

Definition handlePostBlocks (env : Env) (r : Request)
    (body : Body (list Block)) : Handler unit :=
  let boardID := vars r "boardID" in
  let userID := getUserID r in
  allowed ← hasPermissionToBoard env userID boardID PermissionManageBoardCards;
  if negb allowed then abort StatusForbidden "" else
  blocks ← match body with
           | BodyReadError => abort StatusInternalServerError ""
           | BodyMalformed => abort StatusInternalServerError ""
           | BodyNull => mret []
           | BodyValue blocks => mret blocks
           end;
  forEach (checkPostedBlock boardID) blocks;;
  emit (CallGenerateBlockIDs blocks);;
  let blocks := GenerateBlockIDs env blocks in
  makeAuditRecord "postBlocks" AuditFail;;
  deferLogRecord LevelModify;;
  blocks ← stampModificationMetadata env r blocks;
  emit (CallInsertBlocks blocks userID);;
  match InsertBlocks env blocks userID true with
  | Failed _ => abort StatusInternalServerError ""
  | Ok newBlocks =>
      match MarshalBlocks env newBlocks with
      | Failed _ => abort StatusInternalServerError ""
      | Ok json =>
          emit (Respond StatusOK json);;
          AddMeta "blockCount" (MetaInt (Z.of_nat (length blocks)));;
          Success
      end
  end.

(** ** The block store and the handlers of single blocks *)

Definition StatusNotFound : Z := 404.

(** The part of the [app] layer that reads and writes blocks. *)
Record BlockStore := mkBlockStore {
  GetBlocksForBoard : string → Result (list Block);
  GetBlocksWithRootID : string → string → Result (list Block);
  GetBlocks : string → string → string → Result (list Block);
  DeleteBlock : string → string → option error;
  PatchBlock : string → option BlockPatch → string → option error
}.

Inductive StoreEvent :=
| CallGetBlocksForBoard (boardID : string)
| CallGetBlocksWithRootID (boardID rootID : string)
| CallGetBlocks (boardID parentID blockType : string)
| CallDeleteBlock (blockID userID : string)
| CallPatchBlock (blockID : string) (patch : option BlockPatch)
    (userID : string).

(** Events of the handlers below: the ones above, and calls to the
    block store. *)
Inductive BlockEvent :=
| Core (e : Event)
| Store (e : StoreEvent).

Definition BlockHandler (A : Type) : Type :=
  HState → list BlockEvent * HState * option A.

#[global] Instance BlockHandler_ret : MRet BlockHandler :=
  λ A a s, ([], s, Some a).

#[global] Instance BlockHandler_bind : MBind BlockHandler :=
  λ A B k m s,
    match m s with
    | (ev1, s1, Some a) =>
        match k a s1 with
        | (ev2, s2, ob) => (ev1 ++ ev2, s2, ob)
        end
    | (ev1, s1, None) => (ev1, s1, None)
    end.

(** A step of the handlers above, run among the ones below. *)
Definition core {A} (h : Handler A) : BlockHandler A :=
  λ s, match h s with
       | (evs, s', res) => (Core <$> evs, s', res)
       end.

Definition callStore (e : StoreEvent) : BlockHandler unit :=
  λ s, ([Store e], s, Some tt).

(** The model's iteration bound was reached inside the handler: the run
    is cut here. *)
Definition outOfFuel {A} : BlockHandler A := λ s, ([], s, None).

Definition runBlockHandler (h : BlockHandler unit) : list BlockEvent :=
  match h initialState with
  | (evs, s, _) => evs ++ (Core <$> logDeferred s)
  end.

(** *** [handleDeleteBlock] *)

Definition handleDeleteBlock (store : BlockStore) (env : Env) (r : Request)
    : BlockHandler unit :=
  let userID := getUserID r in
  let boardID := vars r "boardID" in
  let blockID := vars r "blockID" in
  allowed ← core (hasPermissionToBoard env userID boardID
                    PermissionManageBoardCards);
  if negb allowed then core (abort StatusForbidden "") else
  core (emit (CallGetBlockWithID blockID));;
  match GetBlockWithID env blockID with
  | Failed _ => core (abort StatusInternalServerError "")
  | Ok None => core (abort StatusNotFound "")
  | Ok (Some block) =>
      if decide (BoardID block ≠ boardID)
      then core (abort StatusNotFound "") else
      core (makeAuditRecord "deleteBlock" AuditFail);;
      core (deferLogRecord LevelModify);;
      core (AddMeta "boardID" (MetaString boardID));;
      core (AddMeta "blockID" (MetaString blockID));;
      callStore (CallDeleteBlock blockID userID);;
      match DeleteBlock store blockID userID with
      | Some _ => core (abort StatusInternalServerError "")
      | None => core (emit (Respond StatusOK "{}"));; core Success
      end
  end.

(** *** [handlePatchBlock] *)

Definition handlePatchBlock (store : BlockStore) (env : Env) (r : Request)
    (body : Body BlockPatch) : BlockHandler unit :=
  let userID := getUserID r in
  let boardID := vars r "boardID" in
  let blockID := vars r "blockID" in
  allowed ← core (hasPermissionToBoard env userID boardID
                    PermissionManageBoardCards);
  if negb allowed then core (abort StatusForbidden "") else
  core (emit (CallGetBlockWithID blockID));;
  match GetBlockWithID env blockID with
  | Failed _ => core (abort StatusInternalServerError "")
  | Ok None => core (abort StatusNotFound "")
  | Ok (Some block) =>
      if decide (BoardID block ≠ boardID)
      then core (abort StatusNotFound "") else
      patch ← match body with
              | BodyReadError => core (abort StatusInternalServerError "")
              | BodyMalformed => core (abort StatusInternalServerError "")
              | BodyNull => mret None
              | BodyValue patch => mret (Some patch)
              end;
      core (makeAuditRecord "patchBlock" AuditFail);;
      core (deferLogRecord LevelModify);;
      core (AddMeta "boardID" (MetaString boardID));;
      core (AddMeta "blockID" (MetaString blockID));;
      callStore (CallPatchBlock blockID patch userID);;
      match PatchBlock store blockID patch userID with
      | Some _ => core (abort StatusInternalServerError "")
      | None => core (emit (Respond StatusOK "{}"));; core Success
      end
  end.

(** *** [handleGetBlocks] *)

(** The [switch] of [handleGetBlocks]: all blocks of the board, or the
    block named by [block_id], or the blocks selected by parent and type. *)
Definition selectBlocks (store : BlockStore) (env : Env) (r : Request)
    : BlockHandler (list Block) :=
  let parentID := query r "parent_id" in
  let blockType := query r "type" in
  let all := query r "all" in
  let blockID := query r "block_id" in
  let boardID := vars r "boardID" in
  if decide (all ≠ ""%string) then
    callStore (CallGetBlocksForBoard boardID);;
    match GetBlocksForBoard store boardID with
    | Failed _ => core (abort StatusInternalServerError "")
    | Ok blocks => mret blocks
    end
  else if decide (blockID ≠ ""%string) then
    core (emit (CallGetBlockWithID blockID));;
    match GetBlockWithID env blockID with
    | Failed _ => core (abort StatusInternalServerError "")
    | Ok None => mret []
    | Ok (Some block) =>
        if decide (BoardID block ≠ boardID)
        then core (abort StatusNotFound "")
        else mret [block]
    end
  else
    callStore (CallGetBlocks boardID parentID blockType);;
    match GetBlocks store boardID parentID blockType with
    | Failed _ => core (abort StatusInternalServerError "")
    | Ok blocks => mret blocks
    end.

Definition handleGetBlocks (store : BlockStore) (env : Env) (r : Request)
    : BlockHandler unit :=
  let parentID := query r "parent_id" in
  let blockType := query r "type" in
  let all := query r "all" in
  let blockID := query r "block_id" in
  let boardID := vars r "boardID" in
  let userID := getUserID r in
  allowed ← core (hasPermissionToBoard env userID boardID
                    PermissionViewBoard);
  if negb allowed then core (abort StatusForbidden "") else
  core (makeAuditRecord "getBlocks" AuditFail);;
  core (deferLogRecord LevelRead);;
  core (AddMeta "boardID" (MetaString boardID));;
  core (AddMeta "parentID" (MetaString parentID));;
  core (AddMeta "blockType" (MetaString blockType));;
  core (AddMeta "all" (MetaString all));;
  core (AddMeta "blockID" (MetaString blockID));;
  blocks ← selectBlocks store env r;
  match MarshalBlocks env blocks with
  | Failed _ => core (abort StatusInternalServerError "")
  | Ok json =>
      core (emit (Respond StatusOK json));;
      core (AddMeta "blockCount" (MetaInt (Z.of_nat (length blocks))));;
      core Success
  end.

(** *** [handleExport] *)

Definition handleExport (fuel : nat) (store : BlockStore) (env : Env)
    (r : Request) : BlockHandler unit :=
  let userID := getUserID r in
  let boardID := vars r "boardID" in
  allowed ← core (hasPermissionToBoard env userID boardID
                    PermissionViewBoard);
  if negb allowed then core (abort StatusForbidden "") else
  let rootID := query r "root_id" in
  core (makeAuditRecord "export" AuditFail);;
  core (deferLogRecord LevelRead);;
  core (AddMeta "boardID" (MetaString boardID));;
  core (AddMeta "rootID" (MetaString rootID));;
  blocks ← (if decide (rootID = ""%string) then
              callStore (CallGetBlocksForBoard boardID);;
              match GetBlocksForBoard store boardID with
              | Failed _ => core (abort StatusInternalServerError "")
              | Ok blocks => mret blocks
              end
            else
              callStore (CallGetBlocksWithRootID boardID rootID);;
              match GetBlocksWithRootID store boardID rootID with
              | Failed _ => core (abort StatusInternalServerError "")
              | Ok blocks => mret blocks
              end);
  core (AddMeta "rawCount" (MetaInt (Z.of_nat (length blocks))));;
  match Orphans.filterOrphanBlocks fuel blocks with
  | None => outOfFuel
  | Some blocks =>
      core (AddMeta "filteredCount" (MetaInt (Z.of_nat (length blocks))));;
      match MarshalBlocks env blocks with
      | Failed _ => core (abort StatusInternalServerError "")
      | Ok json => core (emit (Respond StatusOK json));; core Success
      end
  end.

(** *** Vocabulary: answers and audit entries in a trace *)

Definition isAnswer (e : BlockEvent) : Prop :=
  match e with
  | Core (Respond _ _) | Core (RespondError _ _) => True
  | _ => False
  end.

#[global] Instance isAnswer_dec e : Decision (isAnswer e).
Proof. destruct e as [[]|]; simpl; apply _. Defined.

Definition isAudit (e : BlockEvent) : Prop :=
  match e with
  | Core (AuditLogged _ _) => True
  | _ => False
  end.

#[global] Instance isAudit_dec e : Decision (isAudit e).
Proof. destruct e as [[]|]; simpl; apply _. Defined.

(** *** Sample store and request *)

Definition sampleStore (blocks : list Block) : BlockStore :=
  {| GetBlocksForBoard := λ _, Ok blocks;
     GetBlocksWithRootID := λ _ _, Ok blocks;
     GetBlocks := λ _ _ _, Ok blocks;
     DeleteBlock := λ _ _, None;
     PatchBlock := λ _ _ _, None |}.

Definition blockRequest (blockIDQuery : string) : Request :=
  {| session := Some "user1"%string;
     vars := λ key, if decide (key = "boardID"%string) then "b1"%string
                    else "k1"%string;
     query := λ key, if decide (key = "block_id"%string) then blockIDQuery
                     else ""%string |}.

(** ** Vocabulary for the order of checks and for accepted requests *)

(** [Traces Q h]: the events [h] adds, from any state, satisfy [Q]. *)
Definition Traces {A} (Q : list Event → Prop) (h : Handler A) : Prop :=
  ∀ s, Q (h s).1.1.

(** [Prefixed P t]: every event of [t] stands in [P] to what precedes it. *)
Definition Prefixed (P : list Event → Event → Prop) (t : list Event) : Prop :=
  ∀ pre e post, t = pre ++ e :: post → P pre e.

(** Every lookup of a board comes after the check of the permission to
    manage the properties of that board. *)
Definition checkedBeforeLookup (userID : string) (t : list Event) : Prop :=
  Prefixed (λ pre e, ∀ boardID,
              e = CallGetBoard boardID →
              CheckBoardPermission userID boardID
                PermissionManageBoardProperties ∈ pre) t.

(** Every permission check comes directly after the lookup of the board
    it is about. *)
Definition lookedUpBeforeCheck (t : list Event) : Prop :=
  Prefixed (λ pre e, ∀ userID boardID p,
              e = CheckBoardPermission userID boardID p →
              ∃ pre', pre = pre' ++ [CallGetBoard boardID]) t.

(** The boards of a bundle name one team: the first board names it, the
    others name the same team and carry an identifier. *)
Definition boardsAgree (boards : list Board) : Prop :=
  match boards with
  | [] => True
  | first :: rest =>
      TeamID first ≠ ""%string ∧ Forall (boardFits (TeamID first)) rest
  end.

(** The request gets through the body parser and every check of the
    handler, up to [makeAuditRecord]. *)
Definition createPasses (env : Env) (r : Request)
    (body : Body BoardsAndBlocks) : Prop :=
  ∃ bab evs s checked,
    body = BodyValue bab
    ∧ createChecks env (getUserID r) bab initialState = (evs, s, Some checked).

Definition patchPasses (env : Env) (r : Request)
    (body : Body PatchBoardsAndBlocks) : Prop :=
  ∃ pbab evs s,
    body = BodyValue pbab
    ∧ patchChecks env (getUserID r) pbab initialState = (evs, s, Some tt).

Definition deletePasses (env : Env) (r : Request)
    (body : Body DeleteBoardsAndBlocks) : Prop :=
  ∃ dbab evs s,
    body = BodyValue dbab
    ∧ deleteChecks env (getUserID r) dbab initialState = (evs, s, Some tt).

(** A store with the one board [b1], of team [T1]. *)
Definition onlyBoardB1 (boardID : string) : Result (option Board) :=
  if decide (boardID = "b1"%string) then Ok (Some (mkBoard "b1" "T1" "O"))
  else Ok None.

Definition oneBoardEnv : Env := sampleEnv true true onlyBoardB1 noBlock.

Definition deleteTwoBoards : DeleteBoardsAndBlocks :=
  mkDbab ["b1"%string; "b2"%string] [].




(** What the patch handler asks of the board at index [i]: a valid
    patch, the permissions to apply it, and a board of the team. *)
Definition patchGranted (env : Env) (userID : string)
    (pbab : PatchBoardsAndBlocks) (team : string) (i : nat)
    (boardID : string) : Prop :=
  ∃ patch board,
    BoardPatches pbab !! i = Some patch
    ∧ patch_IsValid env patch = None
    ∧ HasPermissionToBoard env userID boardID
        PermissionManageBoardProperties = true
    ∧ (Patch_Type patch ≠ None →
       HasPermissionToBoard env userID boardID PermissionManageBoardType
         = true)
    ∧ GetBoard env boardID = Ok (Some board)
    ∧ TeamID board = team.

(** What the delete handler asks of a board: it exists, in the team, and
    the user may delete it. *)
Definition deleteGranted (env : Env) (userID : string) (team : string)
    (boardID : string) : Prop :=
  ∃ board,
    GetBoard env boardID = Ok (Some board)
    ∧ TeamID board = team
    ∧ HasPermissionToBoard env userID boardID PermissionDeleteBoard = true.

(** * Part II: properties *)

Section OrphanFilter.
Import Orphans.

Lemma len0_isRoot b : String.length (ParentID b) = 0 ↔ isRoot b.
Proof.
  unfold isRoot. destruct (ParentID b) as [|a s]; simpl; split; intros H;
    first [reflexivity | discriminate].
Qed.

Lemma lookup_addChild m block p :
  default [] (addChild m block !! p) =
  default [] (m !! p) ++ (if decide (ParentID block = p) then [block] else []).
Proof.
  unfold addChild. destruct (decide (ParentID block = p)) as [->|Hne].
  - destruct (m !! p) as [sib|] eqn:E; rewrite lookup_insert_eq; reflexivity.
  - destruct (m !! ParentID block) as [sib|];
      rewrite lookup_insert_ne by assumption; rewrite app_nil_r; reflexivity.
Qed.

Lemma buildTrees_spec blocks : ∀ q m q' m',
  buildTrees blocks q m = (q', m') →
  q' = q ++ roots blocks ∧
  ∀ p, default [] (m' !! p) = default [] (m !! p) ++ filter (isChildOf p) blocks.
Proof.
  induction blocks as [|block rest IH]; intros q m q' m' H; simpl in H.
  - injection H as <- <-. split; [by rewrite app_nil_r|].
    intros p. by rewrite app_nil_r.
  - destruct (decide (String.length (ParentID block) = 0)) as [Hz|Hnz].
    + apply len0_isRoot in Hz. apply IH in H as [-> Hm]. split.
      * unfold roots. rewrite filter_cons_True by assumption.
        by rewrite <- app_assoc.
      * intros p. rewrite Hm. f_equal.
        rewrite filter_cons_False; [done|]. intros [Hp _]. by apply Hp.
    + assert (Hnr : ¬ isRoot block) by (by rewrite <- len0_isRoot).
      apply IH in H as [-> Hm]. split.
      * unfold roots. by rewrite filter_cons_False.
      * intros p. rewrite Hm, lookup_addChild, <- app_assoc. f_equal.
        destruct (decide (ParentID block = p)) as [Hp|Hp].
        -- rewrite filter_cons_True; [done|]. by split.
        -- rewrite filter_cons_False; [done|]. by intros [_ ?].
Qed.

(** The map built by the first loop answers [kids]. *)
Lemma buildTrees_children blocks q m :
  buildTrees blocks [] ∅ = (q, m) →
  q = roots blocks ∧ ∀ b, lookupChildren m b = kids blocks b.
Proof.
  intros H. apply buildTrees_spec in H as [-> Hm]. split; [done|].
  intros b. unfold lookupChildren, kids. by rewrite Hm, lookup_empty.
Qed.

Lemma mapTrees_step f ch b q ret :
  mapTrees (S f) ch (b :: q) ret =
  mapTrees f ch (q ++ lookupChildren ch b) (ret ++ [b]).
Proof.
  simpl. unfold lookupChildren.
  destruct (ch !! ID b); simpl; [done|by rewrite app_nil_r].
Qed.

(** A whole batch of queued blocks is emitted in order, and their
    children are queued behind whatever was waiting. *)
Lemma mapTrees_batch ch q : ∀ f r ret,
  mapTrees (length q + f) ch (q ++ r) ret =
  mapTrees f ch (r ++ (q ≫= lookupChildren ch)) (ret ++ q).
Proof.
  induction q as [|b q IH]; intros f r ret.
  - simpl. by rewrite !app_nil_r.
  - change (length (b :: q) + f) with (S (length q + f)).
    change ((b :: q) ++ r) with (b :: (q ++ r)).
    rewrite mapTrees_step, <- app_assoc, IH, bind_cons.
    by rewrite <- !app_assoc.
Qed.

Lemma mapTrees_fuel_ge ch : ∀ f q ret out,
  mapTrees f ch q ret = Some out → length q ≤ f.
Proof.
  induction f as [|f IH]; intros q ret out H.
  - destruct q; [simpl; lia|discriminate].
  - destruct q as [|b q]; [simpl; lia|].
    rewrite mapTrees_step in H. apply IH in H.
    rewrite length_app in H. simpl. lia.
Qed.

Lemma mapTrees_mono ch : ∀ f f' q ret out,
  mapTrees f ch q ret = Some out → f ≤ f' → mapTrees f' ch q ret = Some out.
Proof.
  induction f as [|f IH]; intros f' q ret out H Hle.
  - destruct q; [|discriminate]. by destruct f'.
  - destruct q as [|b q]; [by destruct f'|].
    destruct f' as [|f']; [lia|].
    rewrite mapTrees_step in *. apply (IH f'); [done|lia].
Qed.

Lemma levels_nil k n : levels k n [] = [].
Proof. induction n; simpl; [done|]. by rewrite IHn. Qed.

(** The queue loop emits the generations one after the other. *)
Lemma mapTrees_levels ch k (Hk : ∀ b, lookupChildren ch b = k b) : ∀ f q ret out,
  mapTrees f ch q ret = Some out →
  ∃ n, generation k n q = [] ∧ out = ret ++ levels k n q.
Proof.
  induction f as [f IH] using lt_wf_ind. intros q ret out H.
  destruct q as [|b q].
  - exists 0. destruct f; injection H as <-; by rewrite app_nil_r.
  - pose proof (mapTrees_fuel_ge _ _ _ _ _ H) as Hlen.
    set (q0 := b :: q) in *.
    pose proof (mapTrees_batch ch q0 (f - length q0) [] ret) as Hb.
    rewrite app_nil_r in Hb. change ([] ++ ?x) with x in Hb.
    replace (length q0 + (f - length q0)) with f in Hb by lia.
    rewrite (list_bind_ext (lookupChildren ch) k q0 q0 Hk eq_refl) in Hb.
    rewrite Hb in H.
    apply IH in H; [|subst q0; simpl in *; lia].
    destruct H as (n & Hg & ->). exists (S n). cbn [generation levels].
    split; [done|]. by rewrite <- app_assoc.
Qed.

Lemma filter_none {A} (P : A → Prop) `{∀ x, Decision (P x)} (l : list A) :
  (∀ x, x ∈ l → ¬ P x) → filter P l = [].
Proof.
  induction l as [|a l IH]; intros Hl; [done|].
  rewrite filter_cons_False by (apply Hl; left).
  apply IH. intros x Hx. apply Hl. by right.
Qed.

Lemma filter_all {A} (P : A → Prop) `{∀ x, Decision (P x)} (l : list A) :
  (∀ x, x ∈ l → P x) → filter P l = l.
Proof.
  induction l as [|a l IH]; intros Hl; [done|].
  rewrite filter_cons_True by (apply Hl; left).
  f_equal. apply IH. intros x Hx. apply Hl. by right.
Qed.

Lemma NoDup_fmap_same {A B} (f : A → B) (l : list A) x y :
  NoDup (f <$> l) → x ∈ l → y ∈ l → f x = f y → x = y.
Proof.
  induction l as [|a l IH]; intros Hnd Hx Hy Hf; [by apply elem_of_nil in Hx|].
  rewrite fmap_cons in Hnd. apply NoDup_cons in Hnd as [Ha Hnd].
  apply elem_of_cons in Hx as [->|Hx]; apply elem_of_cons in Hy as [->|Hy];
    try done.
  - exfalso. apply Ha. rewrite Hf. apply list_elem_of_fmap. eauto.
  - exfalso. apply Ha. rewrite <- Hf. apply list_elem_of_fmap. eauto.
  - by apply IH.
Qed.

Lemma NoDup_fmap_filter {A B} (f : A → B) (P : A → Prop)
    `{∀ x, Decision (P x)} (l : list A) :
  NoDup (f <$> l) → NoDup (f <$> filter P l).
Proof.
  intros Hnd. eapply sublist_NoDup; [exact Hnd|].
  apply fmap_sublist, sublist_filter.
Qed.

Lemma kids_elem blocks b c :
  c ∈ kids blocks b ↔ (ParentID c ≠ ""%string ∧ ParentID c = ID b) ∧ c ∈ blocks.
Proof. unfold kids. by rewrite list_elem_of_filter. Qed.

Lemma roots_elem blocks b : b ∈ roots blocks ↔ isRoot b ∧ b ∈ blocks.
Proof. unfold roots. by rewrite list_elem_of_filter. Qed.

(** *** The loop invariant when identifiers are pairwise distinct *)

Section DistinctIDs.
Variable blocks : list Block.
Hypothesis distinct : NoDup (ID <$> blocks).

Lemma Inv_init : Inv blocks [] (roots blocks).
Proof.
  split; simpl.
  - by apply NoDup_fmap_filter.
  - intros b Hb. by apply roots_elem in Hb as [_ ?].
  - intros c Hc Hp. by apply roots_elem in Hc as [? _].
Qed.

Lemma Inv_step ret b queue :
  Inv blocks ret (b :: queue) → Inv blocks (ret ++ [b]) (queue ++ kids blocks b).
Proof.
  intros [Hnd Hin Hpar].
  assert (Hshift : ∀ l, (ret ++ [b]) ++ queue ++ l = (ret ++ b :: queue) ++ l).
  { intros l. by rewrite <- !app_assoc. }
  split.
  - rewrite Hshift, fmap_app. apply NoDup_app. split; [done|]. split.
    + intros i Hi Hk.
      apply list_elem_of_fmap in Hi as (d & -> & Hd).
      apply list_elem_of_fmap in Hk as (c & Hcd & Hc).
      apply kids_elem in Hc as [[Hne Hpb] Hcb].
      assert (c = d) as ->.
      { apply (NoDup_fmap_same ID blocks); auto. }
      specialize (Hpar d Hd Hne). rewrite Hpb in Hpar.
      rewrite fmap_app in Hnd. apply NoDup_app in Hnd as (_ & Hdisj & _).
      apply (Hdisj _ Hpar). rewrite fmap_cons. left.
    + by apply NoDup_fmap_filter.
  - intros c. rewrite Hshift, elem_of_app. intros [Hc|Hc]; [by apply Hin|].
    by apply kids_elem in Hc as [_ ?].
  - intros c. rewrite Hshift, elem_of_app. intros [Hc|Hc] Hne.
    + rewrite fmap_app, elem_of_app. left. by apply Hpar.
    + apply kids_elem in Hc as [[_ ->] _].
      rewrite fmap_app, elem_of_app. right. left.
  Qed.

Lemma Inv_length ret queue :
  Inv blocks ret queue → length ret + length queue ≤ length blocks.
Proof.
  intros [Hnd Hin _]. rewrite <- length_app.
  apply submseteq_length, NoDup_submseteq; [|done].
  by apply NoDup_fmap_1 in Hnd.
Qed.

(** With distinct identifiers the loop stops within [length blocks]
    iterations and the invariant holds for what it returns. *)
Lemma mapTrees_terminates ch (Hch : ∀ b, lookupChildren ch b = kids blocks b) :
  ∀ f ret queue, Inv blocks ret queue → length blocks ≤ length ret + f →
  ∃ out, mapTrees f ch queue ret = Some out ∧ Inv blocks out [].
Proof.
  induction f as [|f IH]; intros ret queue HI Hf.
  - pose proof (Inv_length _ _ HI) as Hlen.
    destruct queue as [|b queue]; [|simpl in Hlen; lia].
    eexists; split; [done|done].
  - destruct queue as [|b queue]; [by eexists|].
    rewrite mapTrees_step, Hch. apply IH; [by apply Inv_step|].
    rewrite length_app. simpl. lia.
Qed.

End DistinctIDs.

Lemma filterOrphanBlocks_unfold fuel blocks :
  ∃ ch, (∀ b, lookupChildren ch b = kids blocks b) ∧
        filterOrphanBlocks fuel blocks = mapTrees fuel ch (roots blocks) [].
Proof.
  unfold filterOrphanBlocks.
  destruct (buildTrees blocks [] ∅) as [q ch] eqn:E.
  apply buildTrees_children in E as [-> Hch]. eauto.
Qed.

Lemma mapTrees_children_ext ch1 ch2 :
  (∀ b, lookupChildren ch1 b = lookupChildren ch2 b) →
  ∀ f q ret, mapTrees f ch1 q ret = mapTrees f ch2 q ret.
Proof.
  intros Hch. induction f as [|f IH]; intros q ret; [by destruct q|].
  destruct q as [|b q]; [done|]. by rewrite !mapTrees_step, Hch, IH.
Qed.

(** The result does not depend on the iteration bound, once it is reached. *)
Lemma filterOrphanBlocks_fuel_irrelevant blocks f1 f2 o1 o2 :
  filterOrphanBlocks f1 blocks = Some o1 →
  filterOrphanBlocks f2 blocks = Some o2 → o1 = o2.
Proof.
  destruct (filterOrphanBlocks_unfold f1 blocks) as (ch1 & H1 & ->).
  destruct (filterOrphanBlocks_unfold f2 blocks) as (ch2 & H2 & ->).
  rewrite (mapTrees_children_ext ch2 ch1) by (intros b; by rewrite H1, H2).
  intros E1 E2.
  apply (mapTrees_mono _ _ (f1 `max` f2)) in E1; [|lia].
  apply (mapTrees_mono _ _ (f1 `max` f2)) in E2; [|lia].
  congruence.
Qed.

Lemma filterOrphanBlocks_total blocks :
  NoDup (ID <$> blocks) →
  ∃ out, filterOrphanBlocks (length blocks) blocks = Some out ∧
         Inv blocks out [].
Proof.
  intros Hnd.
  destruct (filterOrphanBlocks_unfold (length blocks) blocks) as (ch & Hch & ->).
  apply (mapTrees_terminates blocks Hnd ch Hch); [by apply Inv_init|simpl; lia].
Qed.

Lemma filterOrphanBlocks_levels fuel blocks out :
  filterOrphanBlocks fuel blocks = Some out →
  ∃ n, generation (kids blocks) n (roots blocks) = [] ∧
       out = levels (kids blocks) n (roots blocks).
Proof.
  destruct (filterOrphanBlocks_unfold fuel blocks) as (ch & Hch & ->).
  intros H. by apply (mapTrees_levels ch _ Hch) in H.
Qed.

(** *** Running the filter on its own output *)

Lemma levels_generation k n : ∀ q,
  levels k n q ++ generation k n q = q ++ (levels k n q ≫= k).
Proof.
  induction n as [|n IH]; intros q; simpl; [by rewrite app_nil_r|].
  by rewrite <- app_assoc, IH, bind_app.
Qed.

Lemma filter_bind {A B} (P : B → Prop) `{∀ x, Decision (P x)}
    (f : A → list B) (l : list A) :
  filter P (l ≫= f) = l ≫= (λ x, filter P (f x)).
Proof.
  induction l as [|a l IH]; [done|].
  by rewrite !bind_cons, filter_app, IH.
Qed.

Lemma bind_nil_all {A B} (f : A → list B) (l : list A) :
  (∀ x, x ∈ l → f x = []) → l ≫= f = [].
Proof.
  induction l as [|a l IH]; intros Hl; [done|].
  rewrite bind_cons, (Hl a) by left. simpl.
  apply IH. intros x Hx. apply Hl. by right.
Qed.

(** Among children lists of blocks with distinct identifiers, the
    children of [b] show up exactly once: under [b] itself. *)
Lemma kids_of_other blocks b b' :
  ID b' ≠ ID b → filter (isChildOf (ID b)) (kids blocks b') = [].
Proof.
  intros Hne. apply filter_none. intros c Hc [_ Hp].
  apply kids_elem in Hc as [[_ Hp'] _]. congruence.
Qed.

Lemma kids_of_same blocks b b' :
  ID b' = ID b → filter (isChildOf (ID b)) (kids blocks b') = kids blocks b.
Proof.
  intros He. unfold kids. rewrite He. apply filter_all.
  intros c Hc. by apply list_elem_of_filter in Hc as [? _].
Qed.

Lemma bind_kids_select blocks b (l : list Block) :
  NoDup (ID <$> l) → ID b ∈ ID <$> l →
  l ≫= (λ b', filter (isChildOf (ID b)) (kids blocks b')) = kids blocks b.
Proof.
  induction l as [|x l IH]; intros Hnd Hb; [by apply elem_of_nil in Hb|].
  rewrite fmap_cons in Hnd, Hb. apply NoDup_cons in Hnd as [Hx Hnd].
  rewrite bind_cons. destruct (decide (ID x = ID b)) as [He|Hne].
  - rewrite kids_of_same by done. rewrite bind_nil_all; [by rewrite app_nil_r|].
    intros y Hy. apply kids_of_other. intros Hyb. apply Hx.
    rewrite He, <- Hyb. apply list_elem_of_fmap. eauto.
  - rewrite kids_of_other by done. simpl. apply IH; [done|].
    apply elem_of_cons in Hb as [Hb|Hb]; [congruence|done].
Qed.

Section Closed.
Variables blocks out : list Block.
Hypothesis closed : out = roots blocks ++ (out ≫= kids blocks).
Hypothesis out_distinct : NoDup (ID <$> out).

Lemma closed_roots : roots out = roots blocks.
Proof.
  unfold roots at 1. rewrite closed, filter_app, filter_bind.
  rewrite bind_nil_all.
  - rewrite app_nil_r. apply filter_all. intros b Hb.
    by apply roots_elem in Hb as [? _].
  - intros b _. apply filter_none. intros c Hc Hr.
    apply kids_elem in Hc as [[Hne _] _]. by apply Hne.
Qed.

Lemma closed_kids b : b ∈ out → kids out b = kids blocks b.
Proof.
  intros Hb. unfold kids at 1. rewrite closed, filter_app, filter_bind.
  rewrite filter_none.
  - simpl. apply bind_kids_select; [done|].
    apply list_elem_of_fmap. eauto.
  - intros c Hc [Hne _]. apply roots_elem in Hc as [Hr _]. by apply Hne.
Qed.

Lemma closed_kids_in b c : b ∈ out → c ∈ kids blocks b → c ∈ out.
Proof.
  intros Hb Hc. rewrite closed, elem_of_app. right.
  apply list_elem_of_bind. eauto.
Qed.

Lemma mapTrees_closed ch1 ch2
    (H1 : ∀ b, lookupChildren ch1 b = kids blocks b)
    (H2 : ∀ b, lookupChildren ch2 b = kids out b) :
  ∀ f q ret, (∀ b, b ∈ q → b ∈ out) →
  mapTrees f ch2 q ret = mapTrees f ch1 q ret.
Proof.
  induction f as [|f IH]; intros q ret Hq; [by destruct q|].
  destruct q as [|b q]; [done|].
  assert (Hb : b ∈ out) by (apply Hq; left).
  rewrite !mapTrees_step, H1, H2, closed_kids by done.
  apply IH. intros c [Hc|Hc]%elem_of_app.
  - apply Hq. by right.
  - by apply (closed_kids_in b).
Qed.

End Closed.

Lemma filterOrphanBlocks_closed fuel blocks out :
  filterOrphanBlocks fuel blocks = Some out →
  out = roots blocks ++ (out ≫= kids blocks).
Proof.
  intros H. apply filterOrphanBlocks_levels in H as (n & Hg & ->).
  pose proof (levels_generation (kids blocks) n (roots blocks)) as E.
  by rewrite Hg, app_nil_r in E.
Qed.

Lemma filterOrphanBlocks_again fuel blocks out :
  NoDup (ID <$> out) →
  filterOrphanBlocks fuel blocks = Some out →
  filterOrphanBlocks fuel out = Some out.
Proof.
  intros Hnd H. pose proof (filterOrphanBlocks_closed _ _ _ H) as Hcl.
  destruct (filterOrphanBlocks_unfold fuel blocks) as (ch1 & H1 & E1).
  destruct (filterOrphanBlocks_unfold fuel out) as (ch2 & H2 & ->).
  rewrite (closed_roots blocks out Hcl).
  rewrite (mapTrees_closed blocks out Hcl Hnd ch1 ch2 H1 H2).
  - by rewrite <- E1.
  - intros b Hb. rewrite Hcl, elem_of_app. by left.
Qed.

(** *** Main results on [filterOrphanBlocks] *)

(** C1 (as amended). For every input whose block identifiers are pairwise
    distinct, [filterOrphanBlocks] returns within [length blocks]
    iterations; its result does not depend on the iteration bound; every
    returned block comes from the input; no identifier is returned twice;
    the order is breadth-first from the root blocks (the generations of
    [roots]/[kids], one after the other, in input order); a block whose
    parent is absent from the input is dropped, and every returned block
    is a root or has its parent in the result.  The empty list is mapped
    to the empty list, and the sample input [A; B; C] to [A; B]. *)
Theorem filterOrphanBlocks_distinct_ids (blocks : list Block) :
  NoDup (ID <$> blocks) →
  (∃ out,
     filterOrphanBlocks (length blocks) blocks = Some out
     ∧ (∀ fuel out', filterOrphanBlocks fuel blocks = Some out' → out' = out)
     ∧ (∀ b, b ∈ out → b ∈ blocks)
     ∧ NoDup (ID <$> out)
     ∧ (∃ n, generation (kids blocks) n (roots blocks) = []
             ∧ out = levels (kids blocks) n (roots blocks))
     ∧ (∀ c, c ∈ blocks → ParentID c ≠ ""%string →
             ParentID c ∉ ID <$> blocks → c ∉ out)
     ∧ (∀ c, c ∈ out → ParentID c = ""%string ∨ ParentID c ∈ ID <$> out))
  ∧ (∀ fuel, filterOrphanBlocks fuel [] = Some [])
  ∧ filterOrphanBlocks 3 sampleABC = Some [blockA; blockB].
Proof.
  intros Hnd. split; [|split; [by intros [|fuel]|reflexivity]].
  destruct (filterOrphanBlocks_total blocks Hnd) as (out & Hout & HI).
  destruct HI as [Hnd' Hin Hpar]. rewrite app_nil_r in Hnd', Hin, Hpar.
  exists out. repeat split; try done.
  - intros fuel out' H. eapply filterOrphanBlocks_fuel_irrelevant; eauto.
  - by apply filterOrphanBlocks_levels in Hout.
  - intros c _ Hne Habs Hc. apply Habs.
    specialize (Hpar c Hc Hne).
    apply list_elem_of_fmap in Hpar as (p & -> & Hp).
    apply list_elem_of_fmap. eauto.
  - intros c Hc. destruct (decide (ParentID c = ""%string)); [by left|].
    right. by apply Hpar.
Qed.

Lemma filterOrphanBlocks_distinct_ids_witness :
  NoDup (ID <$> sampleABC) ∧
  ∃ out, filterOrphanBlocks 3 sampleABC = Some out ∧ NoDup (ID <$> out).
Proof.
  assert (Hnd : NoDup (ID <$> sampleABC)).
  { apply (bool_decide_unpack _). vm_compute. reflexivity. }
  split; [exact Hnd|].
  destruct (filterOrphanBlocks_distinct_ids sampleABC Hnd)
    as [(out & Hout & _ & _ & Hnd' & _) _].
  exists out. split; [exact Hout|exact Hnd'].
Defined.

(** C1, counterexample. The three blocks of [sharedRoot] are pairwise
    different, two of them are roots with the same identifier; the child
    [B] of that identifier is returned twice. *)
Lemma filterOrphanBlocks_duplicates_child :
  NoDup sharedRoot ∧
  filterOrphanBlocks 4 sharedRoot = Some [rootA1; rootA2; blockB; blockB] ∧
  ¬ NoDup [rootA1; rootA2; blockB; blockB].
Proof.
  split; [|split].
  - apply (bool_decide_unpack _). vm_compute. reflexivity.
  - reflexivity.
  - intros H. apply (bool_decide_pack _) in H. vm_compute in H. exact H.
Qed.

(** A block that is its own parent under a root's identifier keeps the
    queue non-empty for ever: no iteration bound is enough. *)
Lemma filterOrphanBlocks_self_parent_loops fuel :
  filterOrphanBlocks fuel selfParented = None.
Proof.
  unfold filterOrphanBlocks. simpl buildTrees.
  assert (Hloop : ∀ n ret,
    mapTrees n (addChild ∅ selfParent) [selfParent] ret = None).
  { induction n as [|n IH]; intros ret; [reflexivity|].
    rewrite mapTrees_step.
    change (lookupChildren (addChild ∅ selfParent) selfParent)
      with [selfParent].
    apply IH. }
  destruct fuel as [|fuel]; [reflexivity|].
  rewrite mapTrees_step.
  change (lookupChildren (addChild ∅ selfParent) blockA) with [selfParent].
  apply Hloop.
Qed.

(** C9 (as amended). For every input whose block identifiers are pairwise
    distinct, filtering the output of [filterOrphanBlocks] again returns
    that same output. *)
Theorem filterOrphanBlocks_idempotent (blocks : list Block) :
  NoDup (ID <$> blocks) →
  ∃ out,
    filterOrphanBlocks (length blocks) blocks = Some out
    ∧ filterOrphanBlocks (length out) out = Some out
    ∧ ∀ fuel o, filterOrphanBlocks fuel blocks = Some o →
                filterOrphanBlocks fuel o = Some o.
Proof.
  intros Hnd.
  destruct (filterOrphanBlocks_total blocks Hnd) as (out & Hout & HI).
  destruct HI as [Hnd' _ _]. rewrite app_nil_r in Hnd'.
  exists out. split; [done|].
  pose proof (filterOrphanBlocks_again _ _ _ Hnd' Hout) as Hagain.
  split.
  - destruct (filterOrphanBlocks_total out Hnd') as (out2 & Hout2 & _).
    by rewrite <- (filterOrphanBlocks_fuel_irrelevant _ _ _ _ _ Hagain Hout2)
      in Hout2.
  - intros fuel o Ho.
    assert (o = out) as ->
      by (eapply filterOrphanBlocks_fuel_irrelevant; eauto).
    by apply (filterOrphanBlocks_again fuel blocks).
Qed.

Lemma filterOrphanBlocks_idempotent_witness :
  NoDup (ID <$> sampleABC) ∧
  ∃ out, filterOrphanBlocks 3 sampleABC = Some out ∧
         filterOrphanBlocks (length out) out = Some out.
Proof.
  assert (Hnd : NoDup (ID <$> sampleABC)).
  { apply (bool_decide_unpack _). vm_compute. reflexivity. }
  split; [exact Hnd|].
  destruct (filterOrphanBlocks_idempotent sampleABC Hnd)
    as (out & Hout & Hagain & _).
  exists out. split; [exact Hout|exact Hagain].
Defined.

(** C9, counterexample. With two roots sharing an identifier the second
    pass differs from the first: the child is doubled again. *)
Lemma filterOrphanBlocks_not_idempotent :
  filterOrphanBlocks 4 sharedRoot = Some [rootA1; rootA2; blockB; blockB] ∧
  filterOrphanBlocks 6 [rootA1; rootA2; blockB; blockB] =
    Some [rootA1; rootA2; blockB; blockB; blockB; blockB] ∧
  [rootA1; rootA2; blockB; blockB; blockB; blockB] ≠
    [rootA1; rootA2; blockB; blockB].
Proof. split; [reflexivity|split; [reflexivity|discriminate]]. Qed.

End OrphanFilter.

(** ** The handler monad: basic reasoning *)

Section HandlerLogic.
Context {A B : Type}.

Lemma Emits_ret N X (a : A) : Emits N X (mret a).
Proof. intros s. constructor. Qed.

Lemma Emits_bind N X (m : Handler A) (k : A → Handler B) :
  Emits N X m → (∀ a, Emits N X (k a)) → Emits N X (m ≫= k).
Proof.
  intros Hm Hk s. unfold mbind, Handler_bind. specialize (Hm s).
  destruct (m s) as [[ev1 s1] [a|]]; [|exact Hm].
  specialize (Hk a s1). destruct (k a s1) as [[ev2 s2] [b|]].
  - by apply Forall_app.
  - destruct Hk as (evs' & e & -> & Hevs & He).
    exists (ev1 ++ evs'), e. rewrite app_assoc. split; [done|].
    split; [by apply Forall_app|done].
Qed.

Lemma Emits_weaken (N N' X X' : Event → Prop) (h : Handler A) :
  (∀ e, N e → N' e) → (∀ e, X e → X' e) → Emits N X h → Emits N' X' h.
Proof.
  intros HN HX Hh s. specialize (Hh s). destruct (h s) as [[evs s'] [a|]].
  - eapply Forall_impl; eauto.
  - destruct Hh as (evs' & e & -> & Hevs & He). exists evs', e.
    split; [done|]. split; [eapply Forall_impl; eauto|auto].
Qed.

Lemma Emits_abort N (X : Event → Prop) code message :
  X (RespondError code message) → Emits N X (abort (A:=A) code message).
Proof. intros HX s. exists [], (RespondError code message). by repeat split. Qed.

Lemma Emits_panic N (X : Event → Prop) : X Panic → Emits N X (panic (A:=A)).
Proof. intros HX s. exists [], Panic. by repeat split. Qed.

Lemma Stateless_ret (a : A) : Stateless (mret a).
Proof. by intros s. Qed.

Lemma Stateless_bind (m : Handler A) (k : A → Handler B) :
  Stateless m → (∀ a, Stateless (k a)) → Stateless (m ≫= k).
Proof.
  intros Hm Hk s. unfold mbind, Handler_bind. specialize (Hm s).
  destruct (m s) as [[ev1 s1] [a|]]; simpl in *; [|done].
  specialize (Hk a s1). destruct (k a s1) as [[ev2 s2] ob]; simpl in *.
  congruence.
Qed.

Lemma Stateless_abort code message : Stateless (abort (A:=A) code message).
Proof. by intros s. Qed.

Lemma Stateless_panic : Stateless (panic (A:=A)).
Proof. by intros s. Qed.

End HandlerLogic.

Lemma Emits_emit (N X : Event → Prop) e : N e → Emits N X (emit e).
Proof. intros HN s. simpl. by repeat constructor. Qed.

Lemma Stateless_emit e : Stateless (emit e).
Proof. by intros s. Qed.

Lemma Emits_foldM {A X} (N E : Event → Prop) (f : A → X → Handler A) xs :
  (∀ acc x, Emits N E (f acc x)) → ∀ acc, Emits N E (foldM f acc xs).
Proof.
  intros Hf. induction xs as [|x xs IH]; intros acc; simpl.
  - apply Emits_ret.
  - apply Emits_bind; [apply Hf|apply IH].
Qed.

Lemma Stateless_foldM {A X} (f : A → X → Handler A) xs :
  (∀ acc x, Stateless (f acc x)) → ∀ acc, Stateless (foldM f acc xs).
Proof.
  intros Hf. induction xs as [|x xs IH]; intros acc; simpl.
  - apply Stateless_ret.
  - apply Stateless_bind; [apply Hf|apply IH].
Qed.

Lemma Emits_forEach {X} (N E : Event → Prop) (f : X → Handler unit) xs :
  (∀ x, Emits N E (f x)) → Emits N E (forEach f xs).
Proof.
  intros Hf. induction xs as [|x xs IH]; simpl.
  - apply Emits_ret.
  - apply Emits_bind; [apply Hf|by intros _].
Qed.

Lemma Stateless_forEach {X} (f : X → Handler unit) xs :
  (∀ x, Stateless (f x)) → Stateless (forEach f xs).
Proof.
  intros Hf. induction xs as [|x xs IH]; simpl.
  - apply Stateless_ret.
  - apply Stateless_bind; [apply Hf|by intros _].
Qed.

Lemma Emits_hasPermissionToBoard (N X : Event → Prop) env u b p :
  N (CheckBoardPermission u b p) → Emits N X (hasPermissionToBoard env u b p).
Proof. intros HN s. simpl. by repeat constructor. Qed.

Lemma Emits_hasPermissionToTeam (N X : Event → Prop) env u t p :
  N (CheckTeamPermission u t p) → Emits N X (hasPermissionToTeam env u t p).
Proof. intros HN s. simpl. by repeat constructor. Qed.

Lemma Stateless_hasPermissionToBoard env u b p :
  Stateless (hasPermissionToBoard env u b p).
Proof. by intros s. Qed.

Lemma Stateless_hasPermissionToTeam env u t p :
  Stateless (hasPermissionToTeam env u t p).
Proof. by intros s. Qed.

(** A step that adds no event on the way on and stops with a single
    event. *)
Lemma Emits_silent {A} (X : Event → Prop) (h : Handler A) s :
  Emits (λ _, False) X h →
  match h s with
  | (evs, _, Some _) => evs = []
  | (evs, _, None) => ∃ e, evs = [e] ∧ X e
  end.
Proof.
  intros Hh. specialize (Hh s). destruct (h s) as [[evs s'] [a|]].
  - destruct Hh as [|e evs He _]; [done|destruct He].
  - destruct Hh as (evs' & e & -> & Hevs & He).
    destruct Hevs as [|e' evs' He' _]; [eauto|destruct He'].
Qed.

(** ** [stampModificationMetadata] *)

Lemma appendMeta_nil rec : appendMeta [] rec = rec.
Proof. destruct rec. unfold appendMeta. simpl. by rewrite app_nil_r. Qed.

Lemma appendMeta_app l1 l2 rec :
  appendMeta l2 (appendMeta l1 rec) = appendMeta (l1 ++ l2) rec.
Proof. unfold appendMeta. simpl. by rewrite app_assoc. Qed.

Lemma stampLoop_run userID now blocks : ∀ i s,
  stampLoop userID now i blocks s =
    ([], {| auditRec := appendMeta (stampMeta userID now i blocks)
                          <$> auditRec s;
            deferred := deferred s; clockReads := clockReads s |},
     Some (stampBlock userID now <$> blocks)).
Proof.
  induction blocks as [|b blocks IH]; intros i s.
  - destruct s as [[rec|] d c]; simpl; [by rewrite appendMeta_nil|done].
  - cbn [stampLoop stampMeta].
    unfold mbind, Handler_bind, AddMeta, updateRecord.
    rewrite IH. simpl. do 3 f_equal.
    destruct (auditRec s) as [rec|]; simpl; [|done].
    by rewrite appendMeta_app.
Qed.

Lemma stampModificationMetadata_run env r blocks s :
  stampModificationMetadata env r blocks s =
    ([], {| auditRec :=
              appendMeta (stampMeta (stampedActor r)
                            (GetMillis env (clockReads s)) 0 blocks)
                <$> auditRec s;
            deferred := deferred s; clockReads := S (clockReads s) |},
     Some (stampBlock (stampedActor r) (GetMillis env (clockReads s))
             <$> blocks)).
Proof.
  unfold stampModificationMetadata, mbind, Handler_bind, getMillis.
  by rewrite stampLoop_run.
Qed.

(** C7. Every block of the batch gets the acting user in [ModifiedBy]
    (the empty string when the actor is ["single-user"]) and one and the
    same update timestamp, the single reading of the clock that
    [stampModificationMetadata] takes, whatever the size of the batch;
    nothing else in the blocks changes and nothing is sent. *)
Theorem stampModificationMetadata_stamps env r (blocks : list Block) s :
  ∃ s' stamped,
    stampModificationMetadata env r blocks s = ([], s', Some stamped)
    ∧ clockReads s' = S (clockReads s)
    ∧ length stamped = length blocks
    ∧ (∀ b', b' ∈ stamped →
         ModifiedBy b' = (if decide (getUserID r = SingleUser)
                          then ""%string else getUserID r)
         ∧ UpdateAt b' = GetMillis env (clockReads s))
    ∧ (∀ i b, blocks !! i = Some b →
         ∃ b', stamped !! i = Some b' ∧ ID b' = ID b ∧ BoardID b' = BoardID b
               ∧ ParentID b' = ParentID b ∧ BlockType b' = BlockType b
               ∧ CreateAt b' = CreateAt b).
Proof.
  rewrite stampModificationMetadata_run. eexists _, _.
  split; [reflexivity|]. simpl.
  split; [done|]. split; [by rewrite length_fmap|]. split.
  - intros b' (b & -> & _)%list_elem_of_fmap. done.
  - intros i b Hb. eexists. rewrite list_lookup_fmap, Hb. by repeat split.
Qed.

(** ** [handleGetSubTree] *)

Lemma viewAccess_run env r s :
  ∃ evs, viewAccess env r (getUserID r) (vars r "boardID") s =
           (evs, s, Some (canViewBoard env r)) ∧
         Forall isLookup evs.
Proof.
  unfold viewAccess, hasValidReadTokenForBoard, canViewBoard, readTokenValid.
  unfold mbind, Handler_bind.
  destruct (decide (String.length (query r "read_token") < 1)); simpl.
  - eexists. split; [reflexivity|]. by repeat constructor.
  - destruct (IsValidReadToken env _ _) as [[|]|]; simpl;
      (eexists; split; [reflexivity|]; by repeat constructor).
Qed.

Lemma handleGetSubTree_pass env r n :
  canViewBoard env r = true →
  (match ParseInt32 (query r "l") with Some n => n | None => 2%Z end) = n →
  n = 2%Z ∨ n = 3%Z →
  ∃ evs tail,
    runHandler (handleGetSubTree env r) =
      evs ++ CallGetSubTree (vars r "boardID") (vars r "blockID") n :: tail
    ∧ Forall isLookup evs
    ∧ ∀ m, RespondError StatusBadRequest m ∉ tail.
Proof.
  intros Hacc Hl Hn. unfold runHandler, handleGetSubTree.
  unfold mbind at 1. unfold Handler_bind at 1.
  destruct (viewAccess_run env r initialState) as (evs & -> & Hevs).
  rewrite Hacc, Hl. simpl negb. cbv iota.
  destruct (decide (n ≠ 2%Z ∧ n ≠ 3%Z)) as [[]|_]; [lia|].
  unfold mbind, Handler_bind, makeAuditRecord, deferLogRecord, AddMeta,
    Success, updateRecord, emit, abort. simpl.
  exists evs.
  destruct (GetSubTree env _ _ n) as [blocks|e]; simpl;
    [destruct (MarshalBlocks env blocks) as [json|e]; simpl|];
    unfold logDeferred; rewrite <- app_assoc; simpl; eexists;
    (split; [reflexivity|]); (split; [done|]); intros m;
    rewrite !elem_of_cons, elem_of_nil;
    intros H; repeat (destruct H as [H|H]; [by inversion H|]); done.
Qed.

(** C5 (as amended). For a subtree request that passes the access check:
    if [l] parses as a decimal 32-bit integer other than 2 and 3, the
    only response is [400 "invalid levels"] and the subtree is not read;
    if [l] parses as 2 or 3 the subtree is read with that many levels and
    no 400 is sent; if [l] does not parse (omitted or empty, not a
    number, out of range) the subtree is read with 2 levels and no 400
    is sent. *)
Theorem handleGetSubTree_levels env r :
  canViewBoard env r = true →
  (∀ n, ParseInt32 (query r "l") = Some n → n ≠ 2%Z → n ≠ 3%Z →
     ∃ pre, runHandler (handleGetSubTree env r) =
              pre ++ [RespondError StatusBadRequest "invalid levels"]
            ∧ Forall isLookup pre)
  ∧ (∀ n, ParseInt32 (query r "l") = Some n → n = 2%Z ∨ n = 3%Z →
       CallGetSubTree (vars r "boardID") (vars r "blockID") n
         ∈ runHandler (handleGetSubTree env r)
       ∧ ∀ m, RespondError StatusBadRequest m
                ∉ runHandler (handleGetSubTree env r))
  ∧ (ParseInt32 (query r "l") = None →
       CallGetSubTree (vars r "boardID") (vars r "blockID") 2
         ∈ runHandler (handleGetSubTree env r)
       ∧ ∀ m, RespondError StatusBadRequest m
                ∉ runHandler (handleGetSubTree env r))
  ∧ ParseInt32 "" = None ∧ ParseInt32 "2" = Some 2%Z
  ∧ ParseInt32 "3" = Some 3%Z.
Proof.
  intros Hacc.
  assert (Hpass : ∀ n, n = 2%Z ∨ n = 3%Z →
    (match ParseInt32 (query r "l") with Some n => n | None => 2%Z end) = n →
    CallGetSubTree (vars r "boardID") (vars r "blockID") n
      ∈ runHandler (handleGetSubTree env r)
    ∧ ∀ m, RespondError StatusBadRequest m
             ∉ runHandler (handleGetSubTree env r)).
  { intros n Hn Hl.
    destruct (handleGetSubTree_pass env r n Hacc Hl Hn)
      as (evs & tail & -> & Hevs & Htail).
    split; [apply elem_of_app; right; by left|].
    intros m [Hm|Hm]%elem_of_app.
    - rewrite Forall_forall in Hevs. exact (Hevs _ Hm).
    - apply elem_of_cons in Hm as [Hm|Hm]; [discriminate|].
      by apply (Htail m). }
  split; [|split; [|split; [|done]]].
  - intros n Hl H2 H3. unfold runHandler, handleGetSubTree.
    unfold mbind at 1. unfold Handler_bind at 1.
    destruct (viewAccess_run env r initialState) as (evs & -> & Hevs).
    rewrite Hacc, Hl. simpl negb. cbv iota.
    destruct (decide (n ≠ 2%Z ∧ n ≠ 3%Z)) as [_|Hn]; [|by destruct Hn].
    exists evs. simpl. rewrite app_nil_r. done.
  - intros n Hl Hn. apply Hpass; [done|by rewrite Hl].
  - intros Hl. apply Hpass; [by left|by rewrite Hl].
Qed.

Lemma handleGetSubTree_levels_witness :
  canViewBoard openEnv (sampleRequest "5") = true ∧
  ∃ pre, runHandler (handleGetSubTree openEnv (sampleRequest "5")) =
           pre ++ [RespondError StatusBadRequest "invalid levels"]
         ∧ Forall isLookup pre.
Proof.
  split; [reflexivity|].
  apply (proj1 (handleGetSubTree_levels openEnv (sampleRequest "5") eq_refl)
               5%Z); [reflexivity|lia|lia].
Defined.

(** C5, counterexample. The value [abc] of [l] is neither 2 nor 3, and
    the request is answered with status 200: the level falls back to 2. *)
Lemma handleGetSubTree_unparsable_level :
  query (sampleRequest "abc") "l" = "abc"%string ∧
  runHandler (handleGetSubTree openEnv (sampleRequest "abc")) =
    [CheckBoardPermission "user1" "b1" PermissionViewBoard;
     CallGetSubTree "b1" "k1" 2;
     Respond StatusOK "[]";
     AuditLogged LevelRead
       (mkAuditRecord "getSubTree" AuditSuccess
          [("boardID"%string, MetaString "b1");
           ("blockID"%string, MetaString "k1");
           ("blockCount"%string, MetaInt 0)])].
Proof. split; reflexivity. Qed.

(** ** [handleImport] *)





(** ** [handleCreateBoardsAndBlocks]: validation *)

Lemma strlen_lt1 (x : string) : String.length x < 1 ↔ x = ""%string.
Proof.
  destruct x; simpl; split; intros H; first [done|lia|discriminate].
Qed.

Lemma checkBlock_valid b s : validBlock b → checkBlock b s = ([], s, Some tt).
Proof.
  intros (Ht & Hc & Hu). unfold checkBlock.
  destruct (decide (String.length (BlockType b) < 1)) as [H|_];
    [by apply strlen_lt1 in H|].
  destruct (decide (CreateAt b < 1)%Z); [lia|].
  destruct (decide (UpdateAt b < 1)%Z); [lia|]. done.
Qed.

Lemma checkBlock_invalid b s :
  invalidBlock b → ∃ msg, checkBlock b s = ([RespondError StatusBadRequest msg], s, None).
Proof.
  intros H. unfold checkBlock.
  destruct (decide (String.length (BlockType b) < 1)) as [_|Ht]; [by eexists|].
  destruct (decide (CreateAt b < 1)%Z); [by eexists|].
  destruct (decide (UpdateAt b < 1)%Z); [by eexists|].
  destruct H as [H|[H|H]]; [|lia|lia].
  destruct Ht. by apply strlen_lt1.
Qed.

Lemma validBlock_dec b : validBlock b ∨ invalidBlock b.
Proof.
  unfold validBlock, invalidBlock.
  destruct (decide (BlockType b = ""%string)); [by right; left|].
  destruct (decide (CreateAt b < 1)%Z); [by right; right; left|].
  destruct (decide (UpdateAt b < 1)%Z); [by right; right; right|].
  left. repeat split; [done|lia|lia].
Qed.

Lemma forEach_cons {X} (f : X → Handler unit) x xs :
  forEach f (x :: xs) = (f x;; forEach f xs).
Proof. reflexivity. Qed.

Lemma checkBlocks_valid blocks s :
  (∀ b, b ∈ blocks → validBlock b) →
  forEach checkBlock blocks s = ([], s, Some tt).
Proof.
  induction blocks as [|b blocks IH]; intros H; [done|].
  rewrite forEach_cons. unfold mbind, Handler_bind.
  rewrite checkBlock_valid by (apply H; left).
  rewrite IH; [done|]. intros b' Hb'. apply H. by right.
Qed.

Lemma checkBlocks_invalid blocks s :
  (∃ b, b ∈ blocks ∧ invalidBlock b) →
  ∃ msg, forEach checkBlock blocks s =
           ([RespondError StatusBadRequest msg], s, None).
Proof.
  induction blocks as [|b blocks IH]; intros (b0 & Hb0 & Hinv).
  - by apply elem_of_nil in Hb0.
  - rewrite forEach_cons. unfold mbind, Handler_bind.
    destruct (validBlock_dec b) as [Hv|Hi].
    + rewrite checkBlock_valid by done.
      apply elem_of_cons in Hb0 as [->|Hb0].
      * destruct Hv as (Ht & Hc & Hu). destruct Hinv as [?|[?|?]]; [done|lia|lia].
      * destruct IH as (msg & ->); [eauto|]. by exists msg.
    + destruct (checkBlock_invalid b s Hi) as (msg & ->). by exists msg.
Qed.

(** ** [handleCreateBoardsAndBlocks]: boards of one team *)

Lemma checkBoard_first v board s :
  teamID v = ""%string →
  ∃ v', checkBoard v board s = ([], s, Some v') ∧ teamID v' = TeamID board.
Proof.
  intros Hv. unfold checkBoard. rewrite decide_True by done. by eexists.
Qed.

Lemma checkBoard_fits v board s :
  teamID v ≠ ""%string → boardFits (teamID v) board →
  ∃ v', checkBoard v board s = ([], s, Some v') ∧ teamID v' = teamID v.
Proof.
  intros Hv [Ht Hi]. unfold checkBoard.
  rewrite decide_False by done. rewrite decide_False by (by rewrite Ht; intros []).
  rewrite decide_False by done. by eexists.
Qed.

Lemma checkBoard_misfit v board s :
  teamID v ≠ ""%string → ¬ boardFits (teamID v) board →
  checkBoard v board s =
    ([RespondError StatusBadRequest (misfitMessage (teamID v) board)], s, None).
Proof.
  intros Hv Hfit. unfold checkBoard, misfitMessage.
  rewrite decide_False by done.
  destruct (decide (teamID v ≠ TeamID board)) as [|He]; [done|].
  destruct (decide (Board_ID board = ""%string)) as [|Hi]; [done|].
  destruct Hfit. split; [|done].
  destruct (decide (TeamID board = teamID v)); [done|]. destruct He. congruence.
Qed.

Lemma checkBoards_misfit team pre bad post : ∀ v s,
  teamID v = team → team ≠ ""%string →
  (∀ b, b ∈ pre → boardFits team b) → ¬ boardFits team bad →
  foldM checkBoard v (pre ++ bad :: post) s =
    ([RespondError StatusBadRequest (misfitMessage team bad)], s, None).
Proof.
  induction pre as [|b pre IH]; intros v s Hv Hne Hpre Hbad; simpl;
    unfold mbind, Handler_bind.
  - rewrite checkBoard_misfit by (by rewrite Hv). by rewrite Hv.
  - destruct (checkBoard_fits v b s) as (v' & -> & Hv');
      [by rewrite Hv|rewrite Hv; apply Hpre; left|].
    rewrite (IH v' s); [done|congruence|done| |done].
    intros b' Hb'. apply Hpre. by right.
Qed.

Lemma first_misfit {X} (P : X → Prop) `{∀ x, Decision (P x)} (l : list X) :
  (∃ x, x ∈ l ∧ ¬ P x) →
  ∃ pre bad post, l = pre ++ bad :: post ∧ (∀ x, x ∈ pre → P x) ∧ ¬ P bad.
Proof.
  induction l as [|a l IH]; intros (x & Hx & HP).
  - by apply elem_of_nil in Hx.
  - destruct (decide (P a)) as [Ha|Ha].
    + apply elem_of_cons in Hx as [->|Hx]; [done|].
      destruct IH as (pre & bad & post & -> & Hpre & Hbad); [eauto|].
      exists (a :: pre), bad, post. split; [done|]. split; [|done].
      intros y [->|Hy]%elem_of_cons; auto.
    + exists [], a, l. split; [done|]. split; [|done].
      intros y Hy. by apply elem_of_nil in Hy.
Qed.

Lemma blocks_valid_or_not (blocks : list Block) :
  (∀ b, b ∈ blocks → validBlock b) ∨ (∃ b, b ∈ blocks ∧ invalidBlock b).
Proof.
  induction blocks as [|b blocks [IH|(b0 & Hb0 & Hinv)]].
  - left. intros b Hb. by apply elem_of_nil in Hb.
  - destruct (validBlock_dec b) as [Hv|Hi].
    + left. intros b' [->|Hb']%elem_of_cons; auto.
    + right. exists b. split; [left|done].
  - right. exists b0. split; [by right|done].
Qed.

Lemma validBlock_not_invalid b : validBlock b → ¬ invalidBlock b.
Proof. intros (Ht & Hc & Hu) [?|[?|?]]; [done|lia|lia]. Qed.

(** The run of the create handler when the blocks are fine, the first
    board has a team, and [bad] is the first board after it that does not
    fit. *)
Lemma create_run_misfit env r bab first pre bad post :
  (∀ b, b ∈ Blocks bab → validBlock b) →
  TeamID first ≠ ""%string →
  Boards bab = first :: pre ++ bad :: post →
  (∀ b, b ∈ pre → boardFits (TeamID first) b) →
  ¬ boardFits (TeamID first) bad →
  runHandler (handleCreateBoardsAndBlocks env r (BodyValue bab)) =
    [RespondError StatusBadRequest (misfitMessage (TeamID first) bad)].
Proof.
  intros Hblocks Hfirst Hboards Hpre Hbad.
  unfold runHandler, handleCreateBoardsAndBlocks, createChecks.
  unfold mbind, Handler_bind. cbn [mret Handler_ret].
  rewrite checkBlocks_valid by done. rewrite Hboards. cbn [foldM].
  unfold mbind, Handler_bind.
  destruct (checkBoard_first (mkCreateVars false false "") first initialState)
    as (v' & -> & Hv'); [done|].
  by rewrite (checkBoards_misfit (TeamID first)).
Qed.

(** C2 (as amended). Take a create request whose first board names a
    team.  If two of its boards name different teams, or a board other
    than the first has an empty identifier, the request is answered with
    a single HTTP 400 and nothing else happens: no identifier is
    generated and no permission is asked.  When the blocks pass the
    structural validation, the message is that of the first board after
    the first one that does not fit: "cannot create boards for multiple
    teams" when its team is not the first board's, "boards need an ID to
    be referenced from the blocks" otherwise. *)
Theorem create_team_validation env r (bab : BoardsAndBlocks) :
  (∀ b, head (Boards bab) = Some b → TeamID b ≠ ""%string) →
  (∃ b1 b2, b1 ∈ Boards bab ∧ b2 ∈ Boards bab ∧ TeamID b1 ≠ TeamID b2)
  ∨ (∃ i b, 0 < i ∧ Boards bab !! i = Some b ∧ Board_ID b = ""%string) →
  ∃ msg,
    runHandler (handleCreateBoardsAndBlocks env r (BodyValue bab)) =
      [RespondError StatusBadRequest msg]
    ∧ ((∀ b, b ∈ Blocks bab →
             BlockType b ≠ ""%string ∧ (1 ≤ CreateAt b)%Z ∧ (1 ≤ UpdateAt b)%Z) →
       ∀ first pre bad post,
         Boards bab = first :: pre ++ bad :: post →
         (∀ b, b ∈ pre → TeamID b = TeamID first ∧ Board_ID b ≠ ""%string) →
         TeamID bad ≠ TeamID first ∨ Board_ID bad = ""%string →
         msg = if decide (TeamID first ≠ TeamID bad)
               then "cannot create boards for multiple teams"%string
               else "boards need an ID to be referenced from the blocks"%string).
Proof.
  intros Hteams Hbad.
  destruct (blocks_valid_or_not (Blocks bab)) as [Hvalid|Hinvalid].
  - destruct (Boards bab) as [|first rest] eqn:Hboards.
    { exfalso. destruct Hbad as [(b1 & _ & H1 & _)|(i & b & _ & Hi & _)].
      - by apply elem_of_nil in H1.
      - by rewrite lookup_nil in Hi. }
    assert (Hfirst : TeamID first ≠ ""%string) by (by apply Hteams).
    assert (Hmis : ∃ b, b ∈ rest ∧ ¬ boardFits (TeamID first) b).
    { destruct Hbad as [(b1 & b2 & H1 & H2 & Hne)|(i & b & Hi & Hb & He)].
      - apply elem_of_cons in H1 as [->|H1];
          apply elem_of_cons in H2 as [->|H2].
        + done.
        + exists b2. split; [done|]. intros [Ht _]. congruence.
        + exists b1. split; [done|]. intros [Ht _]. congruence.
        + destruct (decide (TeamID b1 = TeamID first)) as [E1|E1].
          * exists b2. split; [done|]. intros [Ht _]. congruence.
          * exists b1. split; [done|]. by intros [Ht _].
      - destruct i as [|i]; [lia|]. simpl in Hb. exists b. split.
        + apply list_elem_of_lookup. eauto.
        + by intros [_ Hid]. }
    apply first_misfit in Hmis as (pre & bad & post & -> & Hpre & Hmis);
      [|apply _].
    eexists. split.
    { apply (create_run_misfit env r bab first pre bad post); auto. }
    intros _ first' pre' bad' post' Heq Hpre' Hbad'.
    pose proof (create_run_misfit env r bab first' pre' bad' post') as Hrun.
    rewrite (create_run_misfit env r bab first pre bad post) in Hrun; auto.
    rewrite Hboards in Hrun. injection Heq as <- Heq.
    specialize (Hrun Hvalid Hfirst (f_equal _ Heq) Hpre').
    injection Hrun as ->; [done|].
    intros [Ht Hi]. destruct Hbad' as [?|?]; done.
  - unfold runHandler, handleCreateBoardsAndBlocks, createChecks.
    unfold mbind, Handler_bind. cbn [mret Handler_ret].
    destruct (checkBlocks_invalid (Blocks bab) initialState Hinvalid)
      as (msg & ->).
    exists msg. split; [done|]. intros Hvalid.
    destruct Hinvalid as (b & Hb & Hinv).
    by destruct (validBlock_not_invalid b (Hvalid b Hb)).
Qed.

Lemma create_team_validation_witness :
  (∀ b, head (Boards mixedBundle) = Some b → TeamID b ≠ ""%string) ∧
  ∃ msg,
    runHandler (handleCreateBoardsAndBlocks openEnv (sampleRequest "")
                  (BodyValue mixedBundle)) =
      [RespondError StatusBadRequest msg].
Proof.
  assert (Hteams : ∀ b, head (Boards mixedBundle) = Some b →
                        TeamID b ≠ ""%string).
  { intros b [= <-]. discriminate. }
  split; [exact Hteams|].
  destruct (create_team_validation openEnv (sampleRequest "") mixedBundle
              Hteams) as (msg & Hrun & _).
  - left. exists (mkBoard "b1" "T1" "O"), (mkBoard "b3" "T2" "O").
    split; [left|]. split; [right; right; left|discriminate].
  - exists msg. exact Hrun.
Defined.

(** C2, counterexample. In [mixedBundle] two boards name different teams
    (the first names [T1], the third [T2]); the request is rejected, but
    with the message about the missing identifier of the second board. *)
Lemma create_mixed_bundle_message :
  TeamID (mkBoard "b1" "T1" "O") ≠ TeamID (mkBoard "b3" "T2" "O") ∧
  mkBoard "b1" "T1" "O" ∈ Boards mixedBundle ∧
  mkBoard "b3" "T2" "O" ∈ Boards mixedBundle ∧
  runHandler (handleCreateBoardsAndBlocks openEnv (sampleRequest "")
                (BodyValue mixedBundle)) =
    [RespondError StatusBadRequest
       "boards need an ID to be referenced from the blocks"] ∧
  "boards need an ID to be referenced from the blocks"%string ≠
    "cannot create boards for multiple teams"%string.
Proof.
  split; [discriminate|]. split; [left|]. split; [right; right; left|].
  split; [reflexivity|discriminate].
Qed.

(** When the first board names no team, the loop takes the next board for
    the first one: the two boards of [teamlessFirstBundle] name different
    teams and the second has no identifier, and the request goes through
    to identifier generation, permission check and creation. *)
Lemma create_teamless_first_board_passes :
  runHandler (handleCreateBoardsAndBlocks openEnv (sampleRequest "")
                (BodyValue teamlessFirstBundle)) =
    [CallGenerateBoardsAndBlocksIDs teamlessFirstBundle;
     CheckTeamPermission "user1" "T1" PermissionCreatePublicChannel;
     CallCreateBoardsAndBlocks teamlessFirstBundle "user1";
     Respond StatusOK "{}";
     AuditLogged LevelModify
       (mkAuditRecord "createBoardsAndBlocks" AuditSuccess
          [("teamID"%string, MetaString "T1");
           ("userID"%string, MetaString "user1");
           ("boardsCount"%string, MetaInt 2);
           ("blocksCount"%string, MetaInt 1)])].
Proof. reflexivity. Qed.

(** ** Shapes of traces *)

(** A handler made of a parsing step, checks and a commit part. *)
Lemma outcome_of_phases {A B} (parse : Handler A) (checks : A → Handler B)
    (commit : A → B → Handler unit) :
  Stateless parse → Emits isLookup isAbort parse →
  (∀ a, Stateless (checks a)) → (∀ a, Emits isLookup isAbort (checks a)) →
  (∀ a b, CommitShape (commit a b)) →
  Outcome (runHandler (a ← parse; b ← checks a; commit a b)).
Proof.
  intros Hps Hpe Hcs Hce Hcommit. unfold runHandler, mbind, Handler_bind.
  specialize (Hps initialState). specialize (Hpe initialState).
  destruct (parse initialState) as [[ev0 s0] [a|]]; simpl in Hps; subst s0.
  - specialize (Hcs a initialState). specialize (Hce a initialState).
    destruct (checks a initialState) as [[ev1 s1] [b|]]; simpl in Hcs; subst s1.
    + destruct (Hcommit a b) as (c & s' & res & Hc & Hrun).
      destruct Hrun as [[-> (rec & Hlog & Hst)]|(data & -> & rec & Hlog & Hst)];
        rewrite Hlog.
      * apply (CommitFailed _ (ev0 ++ ev1) c rec); auto.
        -- by rewrite <- !app_assoc.
        -- by apply Forall_app.
      * apply (Committed _ (ev0 ++ ev1) c data rec); auto.
        -- by rewrite <- !app_assoc.
        -- by apply Forall_app.
    + destruct Hce as (evs' & e & -> & Hevs & He).
      apply (Rejected _ (ev0 ++ evs') e); auto.
      * unfold logDeferred. simpl. by rewrite app_nil_r, app_assoc.
      * by apply Forall_app.
  - destruct Hpe as (evs' & e & -> & Hevs & He).
    apply (Rejected _ evs' e); auto.
    unfold logDeferred. simpl. by rewrite app_nil_r.
Qed.

Lemma parse_body_Stateless {A} (body : Body A) c1 c2 :
  Stateless (match body with
             | BodyReadError => abort c1 ""
             | BodyMalformed => abort c2 ""
             | BodyNull => panic
             | BodyValue a => mret a
             end).
Proof. by destruct body. Qed.

Lemma parse_body_Emits {A} (body : Body A) c1 c2 :
  Emits isLookup isAbort
        (match body with
         | BodyReadError => abort c1 ""
         | BodyMalformed => abort c2 ""
         | BodyNull => panic
         | BodyValue a => mret a
         end).
Proof.
  destruct body; [by apply Emits_abort..|by apply Emits_panic|apply Emits_ret].
Qed.

Ltac emits_step :=
  match goal with
  | |- Emits _ _ (mret _) => apply Emits_ret
  | |- Emits _ _ (_ ≫= _) => apply Emits_bind; [|intros ?]
  | |- Emits _ _ (abort _ _) => apply Emits_abort; done
  | |- Emits _ _ panic => apply Emits_panic; done
  | |- Emits _ _ (emit _) => apply Emits_emit; done
  | |- Emits _ _ (hasPermissionToBoard _ _ _ _) =>
      apply Emits_hasPermissionToBoard; done
  | |- Emits _ _ (hasPermissionToTeam _ _ _ _) =>
      apply Emits_hasPermissionToTeam; done
  | |- Emits _ _ (if ?c then _ else _) => destruct c
  | |- Emits _ _ (match ?x with _ => _ end) => destruct x
  end.

Ltac stateless_step :=
  match goal with
  | |- Stateless (mret _) => apply Stateless_ret
  | |- Stateless (_ ≫= _) => apply Stateless_bind; [|intros ?]
  | |- Stateless (abort _ _) => apply Stateless_abort
  | |- Stateless panic => apply Stateless_panic
  | |- Stateless (emit _) => apply Stateless_emit
  | |- Stateless (hasPermissionToBoard _ _ _ _) =>
      apply Stateless_hasPermissionToBoard
  | |- Stateless (hasPermissionToTeam _ _ _ _) =>
      apply Stateless_hasPermissionToTeam
  | |- Stateless (if ?c then _ else _) => destruct c
  | |- Stateless (match ?x with _ => _ end) => destruct x
  end.

(** *** Create *)

Lemma checkBlock_Emits b : Emits (λ _, False) isBadRequest (checkBlock b).
Proof. unfold checkBlock. repeat emits_step. Qed.

Lemma checkBlock_Stateless b : Stateless (checkBlock b).
Proof. unfold checkBlock. repeat stateless_step. Qed.

Lemma checkBoard_Emits v b : Emits (λ _, False) isBadRequest (checkBoard v b).
Proof. unfold checkBoard. repeat emits_step. Qed.

Lemma checkBoard_Stateless v b : Stateless (checkBoard v b).
Proof. unfold checkBoard. repeat stateless_step. Qed.

Lemma createChecks_Stateless env u bab : Stateless (createChecks env u bab).
Proof.
  unfold createChecks. apply Stateless_bind;
    [apply Stateless_forEach, checkBlock_Stateless|intros _].
  apply Stateless_bind; [apply Stateless_foldM, checkBoard_Stateless|intros v].
  repeat stateless_step.
Qed.

Lemma createChecks_Emits env u bab :
  Emits isLookup isAbort (createChecks env u bab).
Proof.
  unfold createChecks. apply Emits_bind; [|intros _].
  { eapply Emits_weaken; [| |apply Emits_forEach, checkBlock_Emits].
    - by intros e [].
    - by intros [].  }
  apply Emits_bind; [|intros v].
  { eapply Emits_weaken; [| |apply Emits_foldM, checkBoard_Emits].
    - by intros e [].
    - by intros [].  }
  repeat emits_step.
Qed.

Lemma createCommit_shape env u checked : CommitShape (createCommit env u checked).
Proof.
  destruct checked as [newBab team]. unfold CommitShape, createCommit.
  unfold mbind, Handler_bind, makeAuditRecord, deferLogRecord, AddMeta,
    updateRecord, emit, abort, Success. simpl.
  exists (CallCreateBoardsAndBlocks newBab u).
  destruct (app_CreateBoardsAndBlocks env newBab u true) as [bab|e]; simpl;
    [destruct (MarshalBab env bab) as [data|e]; simpl|];
    eexists _, _; (split; [exact I|]).
  - right. eexists. split; [reflexivity|]. eexists. split; reflexivity.
  - left. split; [reflexivity|]. eexists. split; reflexivity.
  - left. split; [reflexivity|]. eexists. split; reflexivity.
Qed.

Lemma create_outcome env r body :
  Outcome (runHandler (handleCreateBoardsAndBlocks env r body)).
Proof.
  unfold handleCreateBoardsAndBlocks. apply outcome_of_phases.
  - apply parse_body_Stateless.
  - apply parse_body_Emits.
  - intros bab. apply createChecks_Stateless.
  - intros bab. apply createChecks_Emits.
  - intros bab checked. apply createCommit_shape.
Qed.

(** *** Patch *)

Lemma patchCheckBoard_Emits env u pbab v entry :
  Emits isLookup isAbort (patchCheckBoard env u pbab v entry).
Proof.
  unfold patchCheckBoard. destruct entry as [i boardID].
  repeat emits_step.
Qed.

Lemma patchCheckBoard_Stateless env u pbab v entry :
  Stateless (patchCheckBoard env u pbab v entry).
Proof.
  unfold patchCheckBoard. destruct entry as [i boardID].
  repeat stateless_step.
Qed.

Lemma patchCheckBlock_Emits env m blockID :
  Emits isLookup isAbort (patchCheckBlock env m blockID).
Proof. unfold patchCheckBlock. repeat emits_step. Qed.

Lemma patchCheckBlock_Stateless env m blockID :
  Stateless (patchCheckBlock env m blockID).
Proof. unfold patchCheckBlock. repeat stateless_step. Qed.

Lemma patchChecks_Emits env u pbab :
  Emits isLookup isAbort (patchChecks env u pbab).
Proof.
  unfold patchChecks. destruct (pbab_IsValid env pbab); [by apply Emits_abort|].
  apply Emits_bind; [apply Emits_foldM, patchCheckBoard_Emits|intros v].
  apply Emits_forEach, patchCheckBlock_Emits.
Qed.

Lemma patchChecks_Stateless env u pbab : Stateless (patchChecks env u pbab).
Proof.
  unfold patchChecks. destruct (pbab_IsValid env pbab);
    [apply Stateless_abort|].
  apply Stateless_bind;
    [apply Stateless_foldM, patchCheckBoard_Stateless|intros v].
  apply Stateless_forEach, patchCheckBlock_Stateless.
Qed.

Lemma patchCommit_shape env u pbab : CommitShape (patchCommit env u pbab).
Proof.
  unfold CommitShape, patchCommit.
  unfold mbind, Handler_bind, makeAuditRecord, deferLogRecord, AddMeta,
    updateRecord, emit, abort, Success. simpl.
  exists (CallPatchBoardsAndBlocks pbab u).
  destruct (app_PatchBoardsAndBlocks env pbab u) as [bab|e]; simpl;
    [destruct (MarshalBab env bab) as [data|e]; simpl|];
    eexists _, _; (split; [exact I|]).
  - right. eexists. split; [reflexivity|]. eexists. split; reflexivity.
  - left. split; [reflexivity|]. eexists. split; reflexivity.
  - left. split; [reflexivity|]. eexists. split; reflexivity.
Qed.

Lemma patch_outcome env r body :
  Outcome (runHandler (handlePatchBoardsAndBlocks env r body)).
Proof.
  unfold handlePatchBoardsAndBlocks. apply outcome_of_phases.
  - apply parse_body_Stateless.
  - apply parse_body_Emits.
  - intros pbab. apply patchChecks_Stateless.
  - intros pbab. apply patchChecks_Emits.
  - intros pbab _. apply patchCommit_shape.
Qed.

(** *** Delete *)

Lemma deleteCheckBoard_Emits env u team boardID :
  Emits isLookup isAbort (deleteCheckBoard env u team boardID).
Proof. unfold deleteCheckBoard. repeat emits_step. Qed.

Lemma deleteCheckBoard_Stateless env u team boardID :
  Stateless (deleteCheckBoard env u team boardID).
Proof. unfold deleteCheckBoard. repeat stateless_step. Qed.

Lemma deleteChecks_Emits env u dbab :
  Emits isLookup isAbort (deleteChecks env u dbab).
Proof.
  unfold deleteChecks.
  apply Emits_bind; [apply Emits_foldM, deleteCheckBoard_Emits|intros v].
  repeat emits_step.
Qed.

Lemma deleteChecks_Stateless env u dbab : Stateless (deleteChecks env u dbab).
Proof.
  unfold deleteChecks.
  apply Stateless_bind;
    [apply Stateless_foldM, deleteCheckBoard_Stateless|intros v].
  repeat stateless_step.
Qed.

Lemma deleteCommit_shape env u dbab : CommitShape (deleteCommit env u dbab).
Proof.
  unfold CommitShape, deleteCommit.
  unfold mbind, Handler_bind, makeAuditRecord, deferLogRecord, AddMeta,
    updateRecord, emit, abort, Success. simpl.
  exists (CallDeleteBoardsAndBlocks dbab u).
  destruct (app_DeleteBoardsAndBlocks env dbab u) as [e|]; simpl;
    eexists _, _; (split; [exact I|]).
  - left. split; [reflexivity|]. eexists. split; reflexivity.
  - right. eexists. split; [reflexivity|]. eexists. split; reflexivity.
Qed.

Lemma delete_outcome env r body :
  Outcome (runHandler (handleDeleteBoardsAndBlocks env r body)).
Proof.
  unfold handleDeleteBoardsAndBlocks. apply outcome_of_phases.
  - apply parse_body_Stateless.
  - apply parse_body_Emits.
  - intros dbab. apply deleteChecks_Stateless.
  - intros dbab. apply deleteChecks_Emits.
  - intros dbab _. apply deleteCommit_shape.
Qed.

Lemma composite_outcome env r kind t : CompositeTrace env r kind t → Outcome t.
Proof.
  intros [body|body|body];
    [apply create_outcome|apply patch_outcome|apply delete_outcome].
Qed.

(** ** Order of checks, errors and audit records *)

Lemma isLookup_not_audit e : isLookup e → ¬ isAuditLogged e.
Proof. destruct e; simpl; tauto. Qed.

Lemma isLookup_not_abort e : isLookup e → ¬ isAbort e.
Proof. destruct e; simpl; tauto. Qed.

Lemma isLookup_not_commit e : isLookup e → ¬ isCommitCall e.
Proof. destruct e; simpl; tauto. Qed.

Lemma isPermissionCheck_isLookup e : isPermissionCheck e → isLookup e.
Proof. destruct e; simpl; tauto. Qed.

(** Where an event that is not a lookup can sit in [pre ++ tail] when
    [pre] holds lookups only: in [tail]. *)
Lemma split_in_tail (P : Event → Prop) (x : Event) post tail : ∀ pre pre',
  Forall P pre → ¬ P x → pre' ++ x :: post = pre ++ tail →
  ∃ mid, pre' = pre ++ mid ∧ tail = mid ++ x :: post.
Proof.
  induction pre as [|a pre IH]; intros pre' Hpre Hx Heq.
  - exists pre'. by split.
  - apply Forall_cons in Hpre as [Ha Hpre].
    destruct pre' as [|a' pre']; simpl in Heq.
    + injection Heq as -> _. done.
    + injection Heq as -> Heq.
      destruct (IH pre' Hpre Hx Heq) as (mid & -> & ->). by exists mid.
Qed.

(** Every trace is a run of lookups followed by at most three events
    that are not lookups. *)
Lemma outcome_tail t :
  Outcome t →
  ∃ pre tail, t = pre ++ tail ∧ Forall isLookup pre
              ∧ Forall (λ e, ¬ isLookup e) tail.
Proof.
  intros [pre e -> Hpre He|pre c rec -> Hpre Hc Hs|pre c data rec -> Hpre Hc Hs];
    eexists pre, _; (split; [reflexivity|]); (split; [done|]);
    repeat apply Forall_cons_2; try apply Forall_nil_2; simpl; try tauto.
  - destruct e; simpl in *; tauto.
  - destruct c; simpl in *; tauto.
  - destruct c; simpl in *; tauto.
Qed.

Lemma createChecks_shape env u bab :
  ∃ evs res,
    createChecks env u bab initialState = (evs, initialState, res)
    ∧ (res = None ∧ Forall (λ e, ¬ isPermissionCheck e) evs
       ∨ Forall (λ e, ∀ m, e ≠ RespondError StatusBadRequest m) evs).
Proof.
  unfold createChecks. unfold mbind at 1. unfold Handler_bind at 1.
  pose proof (Emits_silent isBadRequest _ initialState
    (Emits_forEach _ _ _ (Blocks bab) checkBlock_Emits)) as H1.
  pose proof (Stateless_forEach checkBlock (Blocks bab)
    checkBlock_Stateless initialState) as S1.
  destruct (forEach checkBlock (Blocks bab) initialState)
    as [[ev1 s1] [[]|]]; simpl in S1; subst s1; cycle 1.
  { destruct H1 as (e & -> & He). eexists _, _. split; [reflexivity|].
    left. split; [done|]. repeat constructor.
    destruct e; simpl in *; tauto. }
  subst ev1. unfold mbind at 1. unfold Handler_bind at 1.
  pose proof (Emits_silent isBadRequest _ initialState
    (Emits_foldM _ _ _ (Boards bab) checkBoard_Emits
       (mkCreateVars false false ""))) as H2.
  pose proof (Stateless_foldM checkBoard (Boards bab)
    checkBoard_Stateless (mkCreateVars false false "") initialState) as S2.
  destruct (foldM checkBoard _ (Boards bab) initialState)
    as [[ev2 s2] [v|]]; simpl in S2; subst s2; cycle 1.
  { destruct H2 as (e & -> & He). eexists _, _. split; [reflexivity|].
    left. split; [done|]. repeat constructor.
    destruct e; simpl in *; tauto. }
  subst ev2. unfold mbind, Handler_bind, hasPermissionToTeam, emit, abort.
  simpl.
  destruct (GenerateBoardsAndBlocksIDs env bab) as [newBab|e]; simpl;
    [|eexists _, _; split; [reflexivity|]; left; split; [done|];
      repeat constructor; by intros []].
  destruct (createsPublicBoards v), (createsPrivateBoards v); simpl;
    repeat match goal with
    | |- context [HasPermissionToTeam env ?a ?b ?c] =>
        destruct (HasPermissionToTeam env a b c); simpl
    end;
    eexists _, _; (split; [reflexivity|]); right;
    repeat constructor; by intros m [=].
Qed.

Lemma runHandler_value_bind {A} (a : A) (k : A → Handler unit) :
  runHandler (mret a ≫= k) = runHandler (k a).
Proof.
  unfold runHandler, mbind, Handler_bind. cbn [mret Handler_ret].
  by destruct (k a initialState) as [[ev2 s2] ob].
Qed.

Lemma runHandler_bind {A} (m : Handler A) (k : A → Handler unit) evs res :
  m initialState = (evs, initialState, res) →
  runHandler (m ≫= k) =
    evs ++ match res with
           | Some a => runHandler (k a)
           | None => []
           end.
Proof.
  intros Hm. unfold runHandler, mbind, Handler_bind. rewrite Hm.
  destruct res as [a|].
  - destruct (k a initialState) as [[ev2 s2] ob]. by rewrite app_assoc.
  - unfold logDeferred. simpl. by rewrite app_nil_r.
Qed.

Lemma commit_run (h : Handler unit) :
  CommitShape h →
  ∃ c rec,
    isCommitCall c ∧
    (runHandler h = [c; RespondError StatusInternalServerError "";
                     AuditLogged LevelModify rec]
     ∧ Status rec = AuditFail
     ∨ ∃ data, runHandler h = [c; Respond StatusOK data;
                               AuditLogged LevelModify rec]
               ∧ Status rec = AuditSuccess).
Proof.
  intros (c & s' & res & Hc & Hrun). unfold runHandler.
  destruct Hrun as [[-> (rec & -> & Hs)]|(data & -> & rec & -> & Hs)];
    exists c, rec; (split; [done|]); [left|right; exists data]; by split.
Qed.

Lemma create_bad_request_before_permissions env r body msg :
  RespondError StatusBadRequest msg
    ∈ runHandler (handleCreateBoardsAndBlocks env r body) →
  Forall (λ e, ¬ isPermissionCheck e)
         (runHandler (handleCreateBoardsAndBlocks env r body)).
Proof.
  unfold handleCreateBoardsAndBlocks.
  destruct body as [| | |bab];
    [intros _; repeat constructor; by intros []..|].
  rewrite runHandler_value_bind.
  destruct (createChecks_shape env (getUserID r) bab)
    as (evs & res & Heq & Hshape).
  rewrite (runHandler_bind _ _ evs res Heq).
  destruct Hshape as [[-> Hevs]|Hevs].
  - intros _. by rewrite app_nil_r.
  - intros Hin. exfalso.
    assert (Hnot : RespondError StatusBadRequest msg ∉ evs).
    { intros H. rewrite Forall_forall in Hevs. by apply (Hevs _ H msg). }
    apply elem_of_app in Hin as [Hin|Hin]; [done|].
    destruct res as [checked|]; [|by apply elem_of_nil in Hin].
    destruct (commit_run _ (createCommit_shape env (getUserID r) checked))
      as (c & rec & Hc & [[Hrun _]|(data & Hrun & _)]);
      rewrite Hrun in Hin;
      repeat (apply elem_of_cons in Hin as [Hin|Hin];
              [first [discriminate Hin|subst c; by destruct Hc]|]);
      by apply elem_of_nil in Hin.
Qed.

Lemma outcome_cases t :
  Outcome t →
  Forall (λ e, ¬ isAuditLogged e ∧ ¬ isCommitCall e) t
  ∨ ∃ body rec,
      t = body ++ [AuditLogged LevelModify rec]
      ∧ Forall (λ e, ¬ isAuditLogged e) body
      ∧ (∃ c, c ∈ body ∧ isCommitCall c)
      ∧ (Status rec = AuditFail
         ∨ Status rec = AuditSuccess
           ∧ Forall (λ e, ¬ isAbort e) body
           ∧ ∃ pre c data, body = pre ++ [c; Respond StatusOK data]
                           ∧ isCommitCall c ∧ Forall isLookup pre).
Proof.
  intros [pre e -> Hpre He|pre c rec -> Hpre Hc Hs|pre c data rec -> Hpre Hc Hs].
  - left. apply Forall_app. split.
    + eapply Forall_impl; [exact Hpre|]. intros x Hx.
      split; [by apply isLookup_not_audit|by apply isLookup_not_commit].
    + repeat constructor; destruct e; simpl in *; tauto.
  - right. exists (pre ++ [c; RespondError StatusInternalServerError ""]), rec.
    split; [by rewrite <- app_assoc|]. split.
    { apply Forall_app. split.
      - eapply Forall_impl; [exact Hpre|]. apply isLookup_not_audit.
      - repeat constructor; [destruct c; simpl in *; tauto|by intros []]. }
    split; [|by left].
    exists c. split; [|done]. apply elem_of_app. right. left.
  - right. exists (pre ++ [c; Respond StatusOK data]), rec.
    split; [by rewrite <- app_assoc|]. split.
    { apply Forall_app. split.
      - eapply Forall_impl; [exact Hpre|]. apply isLookup_not_audit.
      - repeat constructor; [destruct c; simpl in *; tauto|by intros []]. }
    split.
    { exists c. split; [|done]. apply elem_of_app. right. left. }
    right. split; [done|]. split; [|by exists pre, c, data].
    apply Forall_app. split.
    + eapply Forall_impl; [exact Hpre|]. apply isLookup_not_abort.
    + repeat constructor; [destruct c; simpl in *; tauto|by intros []].
Qed.

(** C3, counterexample. A patch request that targets a board that does
    not exist: the permission on the board is checked first, the missing
    board is found afterwards. *)
Lemma patch_checks_permission_before_reference :
  GetBoard emptyStoreEnv "b1" = Ok None ∧
  runHandler (handlePatchBoardsAndBlocks emptyStoreEnv (sampleRequest "")
                (BodyValue patchMissingBoard)) =
    [CheckBoardPermission "user1" "b1" PermissionManageBoardProperties;
     CallGetBoard "b1";
     RespondError StatusBadRequest ""].
Proof. split; reflexivity. Qed.

(** C4, counterexample. A create request with a block without a type is
    answered with HTTP 400 and no audit record is written at all. *)
Lemma create_rejected_without_audit_record :
  runHandler (handleCreateBoardsAndBlocks openEnv (sampleRequest "")
                (BodyValue untypedBlockBundle)) =
    [RespondError StatusBadRequest "missing type for block id k1"] ∧
  Forall (λ e, ¬ isAuditLogged e)
    (runHandler (handleCreateBoardsAndBlocks openEnv (sampleRequest "")
                   (BodyValue untypedBlockBundle))).
Proof. split; [reflexivity|]. repeat constructor. by intros []. Qed.

(** ** [handlePatchBoardsAndBlocks]: targeted blocks *)

Lemma patchCheckBoard_map env u pbab v i boardID s evs s' v' :
  patchCheckBoard env u pbab v (i, boardID) s = (evs, s', Some v') →
  boardIDMap v' = <[boardID := true]> (boardIDMap v).
Proof.
  unfold patchCheckBoard, hasPermissionToBoard, mbind, Handler_bind, emit,
    abort, panic. cbn [mret Handler_ret].
  destruct (BoardPatches pbab !! i) as [patch|]; [|discriminate].
  destruct (patch_IsValid env patch); [discriminate|]. simpl.
  destruct (HasPermissionToBoard env u boardID PermissionManageBoardProperties);
    simpl; [|discriminate].
  destruct (Patch_Type patch); simpl;
    [destruct (HasPermissionToBoard env u boardID PermissionManageBoardType);
     simpl; [|discriminate]|];
    (destruct (GetBoard env boardID) as [[board|]|]; simpl; try discriminate;
     match goal with |- context [decide ?P] => destruct (decide P) end;
     simpl; [discriminate|]; by intros [= _ _ <-]).
Qed.

Lemma patchBoards_map env u pbab : ∀ entries v s evs s' v',
  foldM (patchCheckBoard env u pbab) v entries s = (evs, s', Some v') →
  ∀ k, is_Some (boardIDMap v' !! k) ↔
       is_Some (boardIDMap v !! k) ∨ k ∈ entries.*2.
Proof.
  induction entries as [|[i boardID] entries IH]; intros v s evs s' v' H k.
  - injection H as _ _ <-. rewrite fmap_nil, elem_of_nil. tauto.
  - cbn [foldM] in H. unfold mbind, Handler_bind in H.
    destruct (patchCheckBoard env u pbab v (i, boardID) s)
      as [[ev1 s1] [v1|]] eqn:E1; [|discriminate].
    destruct (foldM _ v1 entries s1) as [[ev2 s2] ob] eqn:E2.
    injection H as _ _ ->.
    rewrite (IH _ _ _ _ _ E2 k), (patchCheckBoard_map _ _ _ _ _ _ _ _ _ _ E1).
    rewrite fmap_cons, elem_of_cons. simpl.
    destruct (decide (boardID = k)) as [->|Hne].
    + rewrite lookup_insert_eq. split; [by right; left|]. intros _. by left.
    + rewrite lookup_insert_ne by done. split.
      * intros [?|?]; [by left|by right; right].
      * intros [?|[?|?]]; [by left|congruence|by right].
Qed.

Lemma indexed_snd {X} (xs : list X) : (indexed xs).*2 = xs.
Proof. unfold indexed. apply snd_zip. by rewrite length_seq. Qed.

Lemma patchCheckBlock_run env (m : gmap string bool) id s :
  patchCheckBlock env m id s =
    match GetBlockWithID env id with
    | Failed _ =>
        ([CallGetBlockWithID id; RespondError StatusInternalServerError ""],
         s, None)
    | Ok None =>
        ([CallGetBlockWithID id; RespondError StatusBadRequest ""], s, None)
    | Ok (Some block) =>
        match m !! BoardID block with
        | None =>
            ([CallGetBlockWithID id; RespondError StatusBadRequest ""],
             s, None)
        | Some _ => ([CallGetBlockWithID id], s, Some tt)
        end
    end.
Proof.
  unfold patchCheckBlock, mbind, Handler_bind, emit, abort.
  cbn [mret Handler_ret].
  destruct (GetBlockWithID env id) as [[block|]|err]; simpl; try done.
  by destruct (m !! BoardID block).
Qed.

(** The loop over the targeted blocks stops at the first block that is
    missing, lies on a board outside [m], or cannot be read. *)
Lemma patchBlocks_foreign env (m : gmap string bool) ids s :
  (∃ id, id ∈ ids ∧
         (GetBlockWithID env id = Ok None
          ∨ ∃ block, GetBlockWithID env id = Ok (Some block)
                     ∧ m !! BoardID block = None)) →
  ∃ pre e,
    forEach (patchCheckBlock env m) ids s = (pre ++ [e], s, None)
    ∧ Forall isLookup pre ∧ isAbort e
    ∧ ((∀ id, id ∈ ids → ∀ err, GetBlockWithID env id ≠ Failed err) →
       e = RespondError StatusBadRequest "").
Proof.
  induction ids as [|id ids IH]; intros (bad & Hbad & Hforeign).
  - by apply elem_of_nil in Hbad.
  - cbn [forEach]. unfold mbind at 1. unfold Handler_bind at 1.
    rewrite patchCheckBlock_run.
    destruct (GetBlockWithID env id) as [[block|]|err] eqn:Hget; simpl.
    + destruct (m !! BoardID block) as [flag|] eqn:Hm; simpl.
      * apply elem_of_cons in Hbad as [->|Hbad].
        { destruct Hforeign as [H|(block' & H & Hm')]; congruence. }
        destruct IH as (pre & e & -> & Hpre & He & H400); [eauto|].
        exists (CallGetBlockWithID id :: pre), e. split; [done|].
        split; [by constructor|]. split; [done|].
        intros Hok. apply H400. intros id' Hid'. apply Hok. by right.
      * exists [CallGetBlockWithID id], (RespondError StatusBadRequest "").
        split; [done|]. split; [by repeat constructor|]. by split.
    + exists [CallGetBlockWithID id], (RespondError StatusBadRequest "").
      split; [done|]. split; [by repeat constructor|]. by split.
    + exists [CallGetBlockWithID id],
        (RespondError StatusInternalServerError "").
      split; [done|]. split; [by repeat constructor|]. split; [done|].
      intros Hok. destruct (Hok id (ltac:(left)) err Hget).
Qed.

Lemma patchChecks_foreign env u pbab :
  (∃ id, id ∈ BlockIDs pbab ∧ foreignBlock env (BoardIDs pbab) id) →
  ∃ pre e,
    patchChecks env u pbab initialState = (pre ++ [e], initialState, None)
    ∧ Forall isLookup pre ∧ isAbort e
    ∧ (pbab_IsValid env pbab = None → patchBoardsPass env u pbab →
       (∀ id, id ∈ BlockIDs pbab → ∀ err, GetBlockWithID env id ≠ Failed err) →
       e = RespondError StatusBadRequest "").
Proof.
  intros (bad & Hbad & Hforeign).
  pose proof (patchChecks_Emits env u pbab initialState) as Hemits.
  pose proof (patchChecks_Stateless env u pbab initialState) as Hstate.
  unfold patchBoardsPass. revert Hemits Hstate. unfold patchChecks.
  destruct (pbab_IsValid env pbab) as [err|].
  { intros _ _. exists [], (RespondError StatusBadRequest "").
    by repeat split. }
  unfold mbind, Handler_bind.
  destruct (foldM (patchCheckBoard env u pbab) (mkPatchVars "" ∅)
              (indexed (BoardIDs pbab)) initialState)
    as [[ev1 s1] [v|]] eqn:Hboards; cycle 1.
  { intros (pre & e & -> & Hpre & He) Hs. simpl in Hs. subst s1.
    exists pre, e. repeat split; try done.
    intros _ (evs & v & [=]). }
  destruct (patchBlocks_foreign env (boardIDMap v) (BlockIDs pbab) s1)
    as (pre & e & -> & Hpre & He & H400).
  { exists bad. split; [done|].
    destruct Hforeign as [?|(block & Hget & Hnot)]; [by left|].
    right. exists block. split; [done|].
    destruct (boardIDMap v !! BoardID block) as [flag|] eqn:Hm; [|done].
    destruct Hnot.
    pose proof (proj1 (patchBoards_map _ _ _ _ _ _ _ _ _ Hboards
                         (BoardID block)) (mk_is_Some _ _ Hm)) as Hk.
    simpl in Hk. rewrite indexed_snd, lookup_empty in Hk.
    destruct Hk as [[x [=]]|Hk]; done. }
  intros Hemits Hs. simpl in Hs. subst s1.
  specialize (Forall_app isLookup ev1 (pre ++ [e])) as Happ.
  assert (Hev1 : Forall isLookup ev1).
  { pose proof (Emits_foldM isLookup isAbort _ (indexed (BoardIDs pbab))
      (patchCheckBoard_Emits env u pbab) (mkPatchVars "" ∅) initialState)
      as Hb.
    by rewrite Hboards in Hb. }
  exists (ev1 ++ pre), e. rewrite <- app_assoc.
  split; [done|]. split; [by apply Forall_app|]. split; [done|].
  intros _ _ Hok. by apply H400.
Qed.

(** C6 (as amended). A patch request that targets a block that does not
    exist, or whose board is not among the request's [boardIDs], fails:
    the handler only looks things up and ends with an error response (or
    a panic), so [PatchBoardsAndBlocks] is never called and no audit
    record is written.  The response is HTTP 400 when the request
    passes [IsValid], the loop over the boards goes through and no block
    lookup returns an error; otherwise it is the response of the check
    that failed before. *)
Theorem patch_block_validation env r (pbab : PatchBoardsAndBlocks) :
  (∃ blockID,
     blockID ∈ BlockIDs pbab ∧
     (GetBlockWithID env blockID = Ok None
      ∨ ∃ block, GetBlockWithID env blockID = Ok (Some block)
                 ∧ BoardID block ∉ BoardIDs pbab)) →
  ∃ pre e,
    runHandler (handlePatchBoardsAndBlocks env r (BodyValue pbab)) = pre ++ [e]
    ∧ Forall isLookup pre ∧ isAbort e
    ∧ (∀ p u, CallPatchBoardsAndBlocks p u
                ∉ runHandler (handlePatchBoardsAndBlocks env r (BodyValue pbab)))
    ∧ (pbab_IsValid env pbab = None →
       patchBoardsPass env (getUserID r) pbab →
       (∀ id, id ∈ BlockIDs pbab → ∀ err, GetBlockWithID env id ≠ Failed err) →
       e = RespondError StatusBadRequest "").
Proof.
  intros Hforeign.
  destruct (patchChecks_foreign env (getUserID r) pbab Hforeign)
    as (pre & e & Hrun & Hpre & He & H400).
  assert (Heq : runHandler (handlePatchBoardsAndBlocks env r (BodyValue pbab))
                = pre ++ [e]).
  { unfold handlePatchBoardsAndBlocks.
    rewrite runHandler_value_bind, (runHandler_bind _ _ _ _ Hrun).
    by rewrite app_nil_r. }
  exists pre, e. rewrite Heq. repeat split; try done.
  intros p u [H|H]%elem_of_app.
  - rewrite Forall_forall in Hpre. exact (Hpre _ H).
  - apply elem_of_cons in H as [H|H]; [by subst e|].
    by apply elem_of_nil in H.
Qed.

Lemma patch_block_validation_witness :
  (∃ blockID,
     blockID ∈ BlockIDs patchMissingBlock ∧
     (GetBlockWithID blocklessEnv blockID = Ok None
      ∨ ∃ block, GetBlockWithID blocklessEnv blockID = Ok (Some block)
                 ∧ BoardID block ∉ BoardIDs patchMissingBlock)) ∧
  ∃ pre,
    runHandler (handlePatchBoardsAndBlocks blocklessEnv (sampleRequest "")
                  (BodyValue patchMissingBlock)) =
      pre ++ [RespondError StatusBadRequest ""].
Proof.
  assert (H : ∃ blockID,
     blockID ∈ BlockIDs patchMissingBlock ∧
     (GetBlockWithID blocklessEnv blockID = Ok None
      ∨ ∃ block, GetBlockWithID blocklessEnv blockID = Ok (Some block)
                 ∧ BoardID block ∉ BoardIDs patchMissingBlock)).
  { exists "k1"%string. split; [left|]. by left. }
  split; [exact H|].
  destruct (patch_block_validation blocklessEnv (sampleRequest "")
              patchMissingBlock H) as (pre & e & Hrun & _ & _ & _ & H400).
  exists pre. rewrite Hrun. f_equal. f_equal. apply H400.
  - reflexivity.
  - eexists _, _. reflexivity.
  - intros id _ err. discriminate.
Defined.

(** C6, counterexample. The block [k1] does not exist, and the user may
    not change the board [b1]: the request fails with HTTP 403, the
    missing block is never looked at. *)
Lemma patch_missing_block_forbidden :
  GetBlockWithID lockedEnv "k1" = Ok None ∧
  runHandler (handlePatchBoardsAndBlocks lockedEnv (sampleRequest "")
                (BodyValue patchMissingBlock)) =
    [CheckBoardPermission "user1" "b1" PermissionManageBoardProperties;
     RespondError StatusForbidden ""].
Proof. split; reflexivity. Qed.

(** * Part III: further properties of the code *)

(** ** [filterOrphanBlocks]: which blocks are kept, and where *)

Section OrphanFilterMore.
Import Orphans.

(** X1. A list in which every block is a root comes back unchanged, in
    the same order, whether or not identifiers repeat. *)
Theorem filterOrphanBlocks_all_roots (blocks : list Block) :
  (∀ b, b ∈ blocks → ParentID b = ""%string) →
  filterOrphanBlocks (length blocks) blocks = Some blocks.
Proof.
  intros Hroots.
  destruct (filterOrphanBlocks_unfold (length blocks) blocks)
    as (ch & Hch & ->).
  assert (Hr : roots blocks = blocks) by (by apply filter_all).
  rewrite Hr.
  pose proof (mapTrees_batch ch blocks 0 [] []) as Hb.
  rewrite Nat.add_0_r, app_nil_r in Hb. rewrite Hb.
  rewrite bind_nil_all; [done|].
  intros b Hb'. rewrite Hch. apply filter_none.
  intros c Hc [Hne _]. by apply Hne, Hroots.
Qed.

Lemma filterOrphanBlocks_all_roots_witness :
  (∀ b, b ∈ [rootA1; rootA2] → ParentID b = ""%string) ∧
  filterOrphanBlocks 2 [rootA1; rootA2] = Some [rootA1; rootA2].
Proof.
  assert (H : ∀ b, b ∈ [rootA1; rootA2] → ParentID b = ""%string).
  { intros b Hb. repeat (apply elem_of_cons in Hb as [->|Hb]; [done|]).
    by apply elem_of_nil in Hb. }
  split; [exact H|]. exact (filterOrphanBlocks_all_roots [rootA1; rootA2] H).
Defined.

Lemma levels_rooted blocks n : ∀ q,
  (∀ b, b ∈ q → Rooted blocks b) →
  ∀ b, b ∈ levels (kids blocks) n q → Rooted blocks b.
Proof.
  induction n as [|n IH]; intros q Hq b Hb; simpl in Hb.
  - by apply elem_of_nil in Hb.
  - apply elem_of_app in Hb as [Hb|Hb]; [by apply Hq|].
    apply (IH (q ≫= kids blocks)); [|done].
    intros c (p & Hc & Hp)%list_elem_of_bind.
    apply kids_elem in Hc as [[Hne Hpar] Hin].
    by apply (rooted_child blocks p c); [apply Hq|..].
Qed.

Lemma rooted_kept fuel (blocks out : list Block) b :
  filterOrphanBlocks fuel blocks = Some out → Rooted blocks b → b ∈ out.
Proof.
  intros H. pose proof (filterOrphanBlocks_closed _ _ _ H) as Hcl.
  induction 1 as [r Hin Hr|p c Hp IH Hin Hne Hpar].
  - rewrite Hcl. apply elem_of_app. left. by apply roots_elem.
  - rewrite Hcl. apply elem_of_app. right.
    apply list_elem_of_bind. exists p. split; [|done].
    by apply kids_elem.
Qed.

(** X2. Whenever the filter returns, it returns exactly the blocks of the
    input that are connected to a root through parents present in the
    input: nothing with an intact chain of ancestors is lost, and nothing
    else is kept. *)
Theorem filterOrphanBlocks_keeps_rooted fuel (blocks out : list Block) :
  filterOrphanBlocks fuel blocks = Some out →
  ∀ b, b ∈ out ↔ Rooted blocks b.
Proof.
  intros H b. split.
  - destruct (filterOrphanBlocks_levels _ _ _ H) as (n & _ & ->).
    apply levels_rooted. intros r Hr. apply roots_elem in Hr as [Hr Hin].
    by apply rooted_root.
  - by apply rooted_kept with fuel.
Qed.

Lemma filterOrphanBlocks_keeps_rooted_witness :
  filterOrphanBlocks 3 sampleABC = Some [blockA; blockB] ∧
  (blockB ∈ [blockA; blockB] ↔ Rooted sampleABC blockB).
Proof.
  assert (H : filterOrphanBlocks 3 sampleABC = Some [blockA; blockB])
    by reflexivity.
  split; [exact H|].
  exact (filterOrphanBlocks_keeps_rooted 3 sampleABC [blockA; blockB] H blockB).
Defined.

Lemma levels_parent_first blocks n : ∀ q before,
  (∀ pre c post, q = pre ++ c :: post → ParentID c ≠ ""%string →
                 ParentID c ∈ ID <$> (before ++ pre)) →
  ∀ pre c post,
    levels (kids blocks) n q = pre ++ c :: post → ParentID c ≠ ""%string →
    ParentID c ∈ ID <$> (before ++ pre).
Proof.
  induction n as [|n IH]; intros q before Hq pre c post Heq Hne; simpl in Heq.
  - by destruct pre.
  - assert (Hnext : ∀ pre' c' post',
      q ≫= kids blocks = pre' ++ c' :: post' → ParentID c' ≠ ""%string →
      ParentID c' ∈ ID <$> ((before ++ q) ++ pre')).
    { intros pre' c' post' Heq' _.
      assert (Hc' : c' ∈ q ≫= kids blocks).
      { rewrite Heq'. apply elem_of_app. right. left. }
      apply list_elem_of_bind in Hc' as (p & Hc' & Hp).
      apply kids_elem in Hc' as [[_ ->] _].
      rewrite !fmap_app, !elem_of_app. left. right.
      apply list_elem_of_fmap. eauto. }
    apply app_eq_inv in Heq as [(k & Hq' & Hrest)|(k & -> & Hrest)].
    + destruct k as [|m k].
      * rewrite app_nil_r in Hq'. subst q. simpl in Hrest. symmetry in Hrest.
        pose proof (IH _ _ Hnext [] c post Hrest Hne) as Hin.
        by rewrite app_nil_r in Hin.
      * injection Hrest as -> Hrest. by apply (Hq pre m k).
    + rewrite app_assoc. by apply (IH _ _ Hnext k c post).
Qed.

(** X3. In the list the filter returns, the root blocks come first, in
    input order, and every other block comes after a block that carries
    its parent identifier: parents always precede their children. *)
Theorem filterOrphanBlocks_parent_first fuel (blocks out : list Block) :
  filterOrphanBlocks fuel blocks = Some out →
  (∃ rest, out = roots blocks ++ rest
           ∧ ∀ c, c ∈ rest → ParentID c ≠ ""%string)
  ∧ ∀ pre c post,
      out = pre ++ c :: post → ParentID c ≠ ""%string →
      ParentID c ∈ ID <$> pre.
Proof.
  intros H. split.
  - exists (out ≫= kids blocks). split.
    + by apply (filterOrphanBlocks_closed fuel).
    + intros c (p & Hc & _)%list_elem_of_bind.
      by apply kids_elem in Hc as [[Hne _] _].
  - destruct (filterOrphanBlocks_levels _ _ _ H) as (n & _ & ->).
    intros pre c post Heq Hne.
    apply (levels_parent_first blocks n (roots blocks) [] ) with (post := post);
      [|done|done].
    intros pre' c' post' Heq' Hne'. exfalso.
    assert (Hc' : c' ∈ roots blocks).
    { rewrite Heq'. apply elem_of_app. right. left. }
    apply roots_elem in Hc' as [Hr _]. by apply Hne'.
Qed.

Lemma filterOrphanBlocks_parent_first_witness :
  filterOrphanBlocks 3 sampleABC = Some [blockA; blockB] ∧
  ParentID blockB ∈ ID <$> [blockA].
Proof.
  assert (H : filterOrphanBlocks 3 sampleABC = Some [blockA; blockB])
    by reflexivity.
  split; [exact H|].
  apply (proj2 (filterOrphanBlocks_parent_first 3 sampleABC _ H)
           [blockA] blockB []); [reflexivity|discriminate].
Defined.

End OrphanFilterMore.

(** ** The composite handlers: what a call to the persistence layer
    presupposes *)

(** A commit call in the trace of a handler made of parsing, checks and
    commit comes from the commit part, after parsing and checks passed. *)
Lemma commit_in_run {A B} (parse : Handler A) (checks : A → Handler B)
    (commit : A → B → Handler unit) c :
  Stateless parse → Emits isLookup isAbort parse →
  (∀ a, Stateless (checks a)) → (∀ a, Emits isLookup isAbort (checks a)) →
  isCommitCall c →
  c ∈ runHandler (a ← parse; b ← checks a; commit a b) →
  ∃ a b ev0 ev1,
    parse initialState = (ev0, initialState, Some a)
    ∧ checks a initialState = (ev1, initialState, Some b)
    ∧ c ∈ runHandler (commit a b).
Proof.
  intros Hps Hpe Hcs Hce Hc Hin.
  specialize (Hps initialState). specialize (Hpe initialState).
  destruct (parse initialState) as [[ev0 s0] ra] eqn:Hparse.
  simpl in Hps. subst s0.
  rewrite (runHandler_bind _ _ _ _ Hparse) in Hin.
  assert (Hnot : ∀ evs e, Forall isLookup evs → isAbort e →
                          c ∉ evs ++ [e]).
  { intros evs e Hevs He [H|H]%elem_of_app.
    - rewrite Forall_forall in Hevs.
      by apply (isLookup_not_commit c); [apply Hevs|].
    - apply elem_of_cons in H as [->|H]; [by destruct e|].
      by apply elem_of_nil in H. }
  destruct ra as [a|]; cycle 1.
  { destruct Hpe as (evs' & e & -> & Hevs & He).
    rewrite app_nil_r in Hin. by destruct (Hnot evs' e). }
  specialize (Hcs a initialState). specialize (Hce a initialState).
  destruct (checks a initialState) as [[ev1 s1] rb] eqn:Hchecks.
  simpl in Hcs. subst s1.
  rewrite (runHandler_bind _ _ _ _ Hchecks) in Hin.
  assert (Hlook : ∀ evs, Forall isLookup evs → c ∉ evs).
  { intros evs Hevs H. rewrite Forall_forall in Hevs.
    by apply (isLookup_not_commit c); [apply Hevs|]. }
  apply elem_of_app in Hin as [Hin|Hin]; [by destruct (Hlook ev0)|].
  destruct rb as [b|]; cycle 1.
  { destruct Hce as (evs' & e & -> & Hevs & He).
    rewrite app_nil_r in Hin. by destruct (Hnot evs' e). }
  apply elem_of_app in Hin as [Hin|Hin]; [by destruct (Hlook ev1)|].
  by exists a, b, ev0, ev1.
Qed.

Lemma parse_body_value {A} (body : Body A) c1 c2 evs s (a : A) :
  (match body with
   | BodyReadError => abort c1 ""
   | BodyMalformed => abort c2 ""
   | BodyNull => panic
   | BodyValue a => mret a
   end) initialState = (evs, s, Some a) →
  body = BodyValue a.
Proof. destruct body; try discriminate. by intros [= _ _ ->]. Qed.

(** *** Create *)

Lemma checkBlocks_pass blocks : ∀ s evs s',
  forEach checkBlock blocks s = (evs, s', Some tt) →
  ∀ b, b ∈ blocks → validBlock b.
Proof.
  induction blocks as [|b blocks IH]; intros s evs s' H b' Hb'.
  - by apply elem_of_nil in Hb'.
  - cbn [forEach] in H. unfold mbind, Handler_bind in H.
    destruct (validBlock_dec b) as [Hv|Hi].
    + rewrite checkBlock_valid in H by done.
      apply elem_of_cons in Hb' as [->|Hb']; [done|].
      destruct (forEach checkBlock blocks s) as [[ev2 s2] [[]|]] eqn:E;
        [|discriminate].
      by apply (IH _ _ _ E).
    + destruct (checkBlock_invalid b s Hi) as (msg & Hrun).
      rewrite Hrun in H. discriminate.
Qed.

Lemma checkBoard_pass v b s evs s' v1 :
  checkBoard v b s = (evs, s', Some v1) →
  createsPublicBoards v1 =
    (if decide (Board_Type b = BoardTypeOpen) then true
     else createsPublicBoards v)
  ∧ createsPrivateBoards v1 =
      (if decide (Board_Type b = BoardTypePrivate) then true
       else createsPrivateBoards v)
  ∧ teamID v1 =
      (if decide (teamID v = ""%string) then TeamID b else teamID v).
Proof.
  unfold checkBoard.
  destruct (decide (teamID v = ""%string)); [by intros [= _ _ <-]|].
  destruct (decide (teamID v ≠ TeamID b)); [discriminate|].
  destruct (decide (Board_ID b = ""%string)); [discriminate|].
  by intros [= _ _ <-].
Qed.

Lemma checkBoards_pass boards : ∀ v s evs s' v',
  foldM checkBoard v boards s = (evs, s', Some v') →
  teamID v' =
    (if decide (teamID v = ""%string) then firstTeam boards else teamID v)
  ∧ (createsPublicBoards v' = true ↔
     createsPublicBoards v = true
     ∨ ∃ b, b ∈ boards ∧ Board_Type b = BoardTypeOpen)
  ∧ (createsPrivateBoards v' = true ↔
     createsPrivateBoards v = true
     ∨ ∃ b, b ∈ boards ∧ Board_Type b = BoardTypePrivate).
Proof.
  induction boards as [|b boards IH]; intros v s evs s' v' H.
  - injection H as _ _ <-. split; [by destruct (decide _)|].
    split; (split; [by left|]); by intros [?|(b & []%elem_of_nil & _)].
  - cbn [foldM] in H. unfold mbind, Handler_bind in H.
    destruct (checkBoard v b s) as [[ev1 s1] [v1|]] eqn:E1; [|discriminate].
    destruct (foldM checkBoard v1 boards s1) as [[ev2 s2] r2] eqn:E2.
    injection H as _ _ ->.
    destruct (checkBoard_pass _ _ _ _ _ _ E1) as (Hpub & Hpriv & Hteam).
    destruct (IH _ _ _ _ _ E2) as (IHteam & IHpub & IHpriv).
    split; [|split].
    + rewrite IHteam, Hteam. simpl.
      destruct (decide (teamID v = ""%string)); [|by rewrite decide_False].
      by destruct (decide (TeamID b = ""%string)).
    + rewrite IHpub, Hpub.
      destruct (decide (Board_Type b = BoardTypeOpen)) as [Ho|Ho].
      * split; [|by intros _; left]. intros _. right. exists b.
        split; [left|done].
      * split.
        -- intros [?|(b' & Hb' & ?)]; [by left|]. right. exists b'.
           split; [by right|done].
        -- intros [?|(b' & [->|Hb']%elem_of_cons & ?)]; [by left|done|].
           right. by exists b'.
    + rewrite IHpriv, Hpriv.
      destruct (decide (Board_Type b = BoardTypePrivate)) as [Ho|Ho].
      * split; [|by intros _; left]. intros _. right. exists b.
        split; [left|done].
      * split.
        -- intros [?|(b' & Hb' & ?)]; [by left|]. right. exists b'.
           split; [by right|done].
        -- intros [?|(b' & [->|Hb']%elem_of_cons & ?)]; [by left|done|].
           right. by exists b'.
Qed.

Lemma createChecks_pass env u bab evs s' newBab team :
  createChecks env u bab initialState = (evs, s', Some (newBab, team)) →
  GenerateBoardsAndBlocksIDs env bab = Ok newBab
  ∧ team = firstTeam (Boards bab)
  ∧ (∀ b, b ∈ Blocks bab → validBlock b)
  ∧ ((∃ b, b ∈ Boards bab ∧ Board_Type b = BoardTypeOpen) →
     HasPermissionToTeam env u team PermissionCreatePublicChannel = true)
  ∧ ((∃ b, b ∈ Boards bab ∧ Board_Type b = BoardTypePrivate) →
     HasPermissionToTeam env u team PermissionCreatePrivateChannel = true).
Proof.
  unfold createChecks. unfold mbind at 1. unfold Handler_bind at 1.
  destruct (forEach checkBlock (Blocks bab) initialState)
    as [[ev1 s1] [[]|]] eqn:E1; [|discriminate].
  unfold mbind at 1. unfold Handler_bind at 1.
  destruct (foldM checkBoard _ (Boards bab) s1)
    as [[ev2 s2] [v|]] eqn:E2; [|discriminate].
  destruct (checkBoards_pass _ _ _ _ _ _ E2) as (Hteam & Hpub & Hpriv).
  simpl in Hteam, Hpub, Hpriv.
  unfold mbind, Handler_bind, hasPermissionToTeam, emit, abort.
  cbn [mret Handler_ret].
  destruct (GenerateBoardsAndBlocksIDs env bab) as [nb|e]; [|discriminate].
  simpl.
  destruct (createsPublicBoards v) eqn:Epub; simpl;
    [destruct (HasPermissionToTeam env u (teamID v)
                 PermissionCreatePublicChannel) eqn:Ppub; simpl;
     [|discriminate]|];
    (destruct (createsPrivateBoards v) eqn:Epriv; simpl;
     [destruct (HasPermissionToTeam env u (teamID v)
                  PermissionCreatePrivateChannel) eqn:Ppriv; simpl;
      [|discriminate]|]);
    intros [= _ _ <- <-]; (split; [done|]); (split; [done|]);
    (split; [by apply (checkBlocks_pass _ _ _ _ E1)|]);
    split; intros Hex;
    first [done
          | apply (λ H, proj2 Hpub (or_intror H)) in Hex; discriminate
          | apply (λ H, proj2 Hpriv (or_intror H)) in Hex; discriminate].
Qed.

Lemma createCommit_run env u newBab team :
  ∃ tail,
    runHandler (createCommit env u (newBab, team)) =
      CallCreateBoardsAndBlocks newBab u :: tail
    ∧ Forall (λ e, ¬ isCommitCall e) tail.
Proof.
  unfold runHandler, createCommit.
  unfold mbind, Handler_bind, makeAuditRecord, deferLogRecord, AddMeta,
    updateRecord, emit, abort, Success. simpl.
  destruct (app_CreateBoardsAndBlocks env newBab u true) as [bab|e]; simpl;
    [destruct (MarshalBab env bab) as [data|e]; simpl|];
    eexists; (split; [reflexivity|]); repeat constructor; by intros [].
Qed.

(** X5. [CreateBoardsAndBlocks] is only ever called for a parsed bundle
    whose blocks all pass the structural validation, with the bundle that
    [GenerateBoardsAndBlocksIDs] returned, on behalf of the session's
    user; and if the bundle holds an open (private) board, the user has
    the permission to create public (private) boards on the team of the
    first board that names a team. *)
Theorem create_call_presupposes env r body newBab u :
  CallCreateBoardsAndBlocks newBab u
    ∈ runHandler (handleCreateBoardsAndBlocks env r body) →
  ∃ bab,
    body = BodyValue bab
    ∧ u = getUserID r
    ∧ GenerateBoardsAndBlocksIDs env bab = Ok newBab
    ∧ (∀ b, b ∈ Blocks bab →
            BlockType b ≠ ""%string ∧ (1 ≤ CreateAt b)%Z ∧ (1 ≤ UpdateAt b)%Z)
    ∧ ((∃ b, b ∈ Boards bab ∧ Board_Type b = BoardTypeOpen) →
       HasPermissionToTeam env u (firstTeam (Boards bab))
         PermissionCreatePublicChannel = true)
    ∧ ((∃ b, b ∈ Boards bab ∧ Board_Type b = BoardTypePrivate) →
       HasPermissionToTeam env u (firstTeam (Boards bab))
         PermissionCreatePrivateChannel = true).
Proof.
  intros Hin. unfold handleCreateBoardsAndBlocks in Hin.
  apply commit_in_run in Hin as (bab & checked & ev0 & ev1 & Hp & Hc & Hin);
    [|apply parse_body_Stateless|apply parse_body_Emits
     |intros; apply createChecks_Stateless|intros; apply createChecks_Emits
     |exact I].
  apply parse_body_value in Hp. destruct checked as [nb team].
  destruct (createCommit_run env (getUserID r) nb team) as (tail & Hrun & Ht).
  rewrite Hrun in Hin. apply elem_of_cons in Hin as [[= -> ->]|Hin]; cycle 1.
  { rewrite Forall_forall in Ht. by destruct (Ht _ Hin). }
  destruct (createChecks_pass _ _ _ _ _ _ _ Hc)
    as (Hgen & -> & Hvalid & Hpub & Hpriv).
  by exists bab.
Qed.

Lemma create_call_presupposes_witness :
  CallCreateBoardsAndBlocks teamlessFirstBundle "user1"
    ∈ runHandler (handleCreateBoardsAndBlocks openEnv (sampleRequest "")
                    (BodyValue teamlessFirstBundle)) ∧
  ∃ bab, BodyValue teamlessFirstBundle = BodyValue bab
         ∧ GenerateBoardsAndBlocksIDs openEnv bab = Ok teamlessFirstBundle.
Proof.
  assert (H : CallCreateBoardsAndBlocks teamlessFirstBundle "user1"
    ∈ runHandler (handleCreateBoardsAndBlocks openEnv (sampleRequest "")
                    (BodyValue teamlessFirstBundle))).
  { right. right. left. }
  split; [exact H|].
  destruct (create_call_presupposes _ _ _ _ _ H) as (bab & Hb & _ & Hg & _).
  exists bab. split; [exact Hb|exact Hg].
Defined.

(** *** Patch *)

Lemma zip_seq_elem {X} (xs : list X) : ∀ n i (x : X),
  (i, x) ∈ zip (seq n (length xs)) xs ↔ n ≤ i ∧ xs !! (i - n) = Some x.
Proof.
  induction xs as [|y xs IH]; intros n i x; simpl.
  - rewrite elem_of_nil, lookup_nil. split; [done|by intros [_ ?]].
  - rewrite elem_of_cons, IH. split.
    + intros [[= -> ->]|[Hle Hl]].
      * split; [lia|]. by rewrite Nat.sub_diag.
      * split; [lia|]. by replace (i - n) with (S (i - S n)) by lia.
    + intros [Hle Hl]. destruct (decide (i = n)) as [->|Hne].
      * rewrite Nat.sub_diag in Hl. left. by injection Hl as ->.
      * right. split; [lia|].
        by replace (i - n) with (S (i - S n)) in Hl by lia.
Qed.

Lemma indexed_elem {X} (xs : list X) i (x : X) :
  (i, x) ∈ indexed xs ↔ xs !! i = Some x.
Proof.
  unfold indexed. rewrite zip_seq_elem, Nat.sub_0_r.
  split; [by intros [_ ?]|]. intros H. split; [lia|done].
Qed.

Lemma patchCheckBoard_pass env u pbab v i boardID s evs s' v1 :
  patchCheckBoard env u pbab v (i, boardID) s = (evs, s', Some v1) →
  ∃ patch board,
    BoardPatches pbab !! i = Some patch
    ∧ patch_IsValid env patch = None
    ∧ HasPermissionToBoard env u boardID PermissionManageBoardProperties
      = true
    ∧ (is_Some (Patch_Type patch) →
       HasPermissionToBoard env u boardID PermissionManageBoardType = true)
    ∧ GetBoard env boardID = Ok (Some board)
    ∧ TeamID board = patch_teamID v1
    ∧ patch_teamID v1 =
        (if decide (patch_teamID v = ""%string) then TeamID board
         else patch_teamID v).
Proof.
  unfold patchCheckBoard, hasPermissionToBoard, mbind, Handler_bind, emit,
    abort, panic. cbn [mret Handler_ret].
  destruct (BoardPatches pbab !! i) as [patch|]; [|discriminate].
  destruct (patch_IsValid env patch) eqn:Hvalid; [discriminate|]. simpl.
  destruct (HasPermissionToBoard env u boardID PermissionManageBoardProperties)
    eqn:Hprop; simpl; [|discriminate].
  destruct (Patch_Type patch) as [t|] eqn:Htype; simpl;
    [destruct (HasPermissionToBoard env u boardID PermissionManageBoardType)
       eqn:Hty; simpl; [|discriminate]|];
    (destruct (GetBoard env boardID) as [[board|]|] eqn:Hget; simpl;
     try discriminate;
     match goal with |- context [decide (?a ≠ ?b)] =>
       destruct (decide (a ≠ b)) as [|Hteam] end;
     simpl; [discriminate|]; intros [= _ _ <-];
     exists patch, board; do 3 (split; [done|]);
     (split; [first [done|rewrite Htype; by intros [? [=]]]|]);
     (split; [done|]);
     simpl; (split; [|done]);
     by destruct (decide ((if decide (patch_teamID v = ""%string)
                           then TeamID board else patch_teamID v)
                          = TeamID board))).
Qed.

Lemma patchBoards_pass env u pbab : ∀ entries v s evs s' v',
  foldM (patchCheckBoard env u pbab) v entries s = (evs, s', Some v') →
  (patch_teamID v ≠ ""%string → patch_teamID v' = patch_teamID v)
  ∧ ∀ i boardID, (i, boardID) ∈ entries →
      ∃ patch board,
        BoardPatches pbab !! i = Some patch
        ∧ patch_IsValid env patch = None
        ∧ HasPermissionToBoard env u boardID PermissionManageBoardProperties
          = true
        ∧ (is_Some (Patch_Type patch) →
           HasPermissionToBoard env u boardID PermissionManageBoardType
           = true)
        ∧ GetBoard env boardID = Ok (Some board)
        ∧ (TeamID board = ""%string ∨ TeamID board = patch_teamID v').
Proof.
  induction entries as [|[j b] entries IH]; intros v s evs s' v' H.
  - injection H as _ _ <-. split; [done|]. by intros i b []%elem_of_nil.
  - cbn [foldM] in H. unfold mbind, Handler_bind in H.
    destruct (patchCheckBoard env u pbab v (j, b) s)
      as [[ev1 s1] [v1|]] eqn:E1; [|discriminate].
    destruct (foldM _ v1 entries s1) as [[ev2 s2] r2] eqn:E2.
    injection H as _ _ ->.
    destruct (patchCheckBoard_pass _ _ _ _ _ _ _ _ _ _ E1)
      as (patch & board & Hp & Hv & Hprop & Hty & Hget & Hteam & Hv1).
    destruct (IH _ _ _ _ _ E2) as (IHkeep & IHall).
    split.
    + intros Hne. rewrite decide_False in Hv1 by done.
      rewrite IHkeep; [done|]. by rewrite Hv1.
    + intros i boardID [[= -> ->]|Hin]%elem_of_cons; [|by apply IHall].
      exists patch, board. repeat split; try done.
      destruct (decide (patch_teamID v1 = ""%string)) as [He|Hne].
      * left. by rewrite Hteam.
      * right. rewrite Hteam. symmetry. by apply IHkeep.
Qed.

Lemma patchBlocks_pass env (m : gmap string bool) ids : ∀ s evs s',
  forEach (patchCheckBlock env m) ids s = (evs, s', Some tt) →
  ∀ id, id ∈ ids →
    ∃ block, GetBlockWithID env id = Ok (Some block)
             ∧ is_Some (m !! BoardID block).
Proof.
  induction ids as [|id ids IH]; intros s evs s' H id' Hid'.
  - by apply elem_of_nil in Hid'.
  - cbn [forEach] in H. unfold mbind at 1 in H. unfold Handler_bind at 1 in H.
    rewrite patchCheckBlock_run in H.
    destruct (GetBlockWithID env id) as [[block|]|err] eqn:Hget;
      try discriminate.
    destruct (m !! BoardID block) as [flag|] eqn:Hm; [|discriminate].
    destruct (forEach (patchCheckBlock env m) ids s) as [[ev2 s2] [[]|]] eqn:E;
      [|discriminate].
    apply elem_of_cons in Hid' as [->|Hid'].
    + exists block. split; [done|]. by rewrite Hm.
    + by apply (IH _ _ _ E).
Qed.

Lemma patchChecks_pass env u pbab evs s' :
  patchChecks env u pbab initialState = (evs, s', Some tt) →
  pbab_IsValid env pbab = None
  ∧ (∀ i boardID, BoardIDs pbab !! i = Some boardID →
       ∃ patch board,
         BoardPatches pbab !! i = Some patch
         ∧ patch_IsValid env patch = None
         ∧ HasPermissionToBoard env u boardID PermissionManageBoardProperties
           = true
         ∧ (is_Some (Patch_Type patch) →
            HasPermissionToBoard env u boardID PermissionManageBoardType
            = true)
         ∧ GetBoard env boardID = Ok (Some board))
  ∧ (∀ b1 b2 board1 board2,
       b1 ∈ BoardIDs pbab → b2 ∈ BoardIDs pbab →
       GetBoard env b1 = Ok (Some board1) →
       GetBoard env b2 = Ok (Some board2) →
       TeamID board1 ≠ ""%string → TeamID board2 ≠ ""%string →
       TeamID board1 = TeamID board2)
  ∧ (∀ blockID, blockID ∈ BlockIDs pbab →
       ∃ block, GetBlockWithID env blockID = Ok (Some block)
                ∧ BoardID block ∈ BoardIDs pbab).
Proof.
  unfold patchChecks.
  destruct (pbab_IsValid env pbab) as [err|]; [discriminate|].
  unfold mbind, Handler_bind.
  destruct (foldM (patchCheckBoard env u pbab) (mkPatchVars "" ∅)
              (indexed (BoardIDs pbab)) initialState)
    as [[ev1 s1] [v|]] eqn:Hboards; [|discriminate].
  destruct (forEach _ (BlockIDs pbab) s1) as [[ev2 s2] [[]|]] eqn:Hblocks;
    [|discriminate].
  intros _. destruct (patchBoards_pass _ _ _ _ _ _ _ _ _ Hboards)
    as (_ & Hall).
  split; [done|]. split; [|split].
  - intros i boardID Hi. apply indexed_elem in Hi.
    destruct (Hall _ _ Hi) as (patch & board & ? & ? & ? & ? & ? & _).
    by exists patch, board.
  - intros b1 b2 board1 board2 H1 H2 G1 G2 N1 N2.
    apply list_elem_of_lookup in H1 as [i1 H1].
    apply list_elem_of_lookup in H2 as [i2 H2].
    apply indexed_elem in H1, H2.
    destruct (Hall _ _ H1) as (_ & c1 & _ & _ & _ & _ & G1' & T1).
    destruct (Hall _ _ H2) as (_ & c2 & _ & _ & _ & _ & G2' & T2).
    rewrite G1 in G1'. rewrite G2 in G2'.
    injection G1' as <-. injection G2' as <-.
    destruct T1 as [|T1]; [done|]. destruct T2 as [|T2]; [done|]. congruence.
  - intros blockID Hid.
    destruct (patchBlocks_pass _ _ _ _ _ _ Hblocks _ Hid)
      as (block & Hget & Hm).
    exists block. split; [done|].
    apply (patchBoards_map _ _ _ _ _ _ _ _ _ Hboards) in Hm.
    rewrite indexed_snd in Hm. simpl in Hm. rewrite lookup_empty in Hm.
    by destruct Hm as [[? [=]]|?].
Qed.

Lemma patchCommit_run env u pbab :
  ∃ tail,
    runHandler (patchCommit env u pbab) =
      CallPatchBoardsAndBlocks pbab u :: tail
    ∧ Forall (λ e, ¬ isCommitCall e) tail.
Proof.
  unfold runHandler, patchCommit.
  unfold mbind, Handler_bind, makeAuditRecord, deferLogRecord, AddMeta,
    updateRecord, emit, abort, Success. simpl.
  destruct (app_PatchBoardsAndBlocks env pbab u) as [bab|e]; simpl;
    [destruct (MarshalBab env bab) as [data|e]; simpl|];
    eexists; (split; [reflexivity|]); repeat constructor; by intros [].
Qed.

(** X6. [PatchBoardsAndBlocks] is only ever called with the parsed patch
    set, after [IsValid] accepted it, and only if for every targeted
    board the patch at its index is valid, the user may manage the
    board's properties (and its type, when the patch changes the type)
    and the board exists; only if every targeted block exists and lies on
    a targeted board; and only if the targeted boards that name a team
    all name the same one. *)
Theorem patch_call_presupposes env r body pbab u :
  CallPatchBoardsAndBlocks pbab u
    ∈ runHandler (handlePatchBoardsAndBlocks env r body) →
  body = BodyValue pbab
  ∧ u = getUserID r
  ∧ pbab_IsValid env pbab = None
  ∧ (∀ i boardID, BoardIDs pbab !! i = Some boardID →
       ∃ patch board,
         BoardPatches pbab !! i = Some patch
         ∧ patch_IsValid env patch = None
         ∧ HasPermissionToBoard env u boardID PermissionManageBoardProperties
           = true
         ∧ (is_Some (Patch_Type patch) →
            HasPermissionToBoard env u boardID PermissionManageBoardType
            = true)
         ∧ GetBoard env boardID = Ok (Some board))
  ∧ (∀ b1 b2 board1 board2,
       b1 ∈ BoardIDs pbab → b2 ∈ BoardIDs pbab →
       GetBoard env b1 = Ok (Some board1) →
       GetBoard env b2 = Ok (Some board2) →
       TeamID board1 ≠ ""%string → TeamID board2 ≠ ""%string →
       TeamID board1 = TeamID board2)
  ∧ (∀ blockID, blockID ∈ BlockIDs pbab →
       ∃ block, GetBlockWithID env blockID = Ok (Some block)
                ∧ BoardID block ∈ BoardIDs pbab).
Proof.
  intros Hin. unfold handlePatchBoardsAndBlocks in Hin.
  apply commit_in_run in Hin as (p & [] & ev0 & ev1 & Hp & Hc & Hin);
    [|apply parse_body_Stateless|apply parse_body_Emits
     |intros; apply patchChecks_Stateless|intros; apply patchChecks_Emits
     |exact I].
  apply parse_body_value in Hp.
  destruct (patchCommit_run env (getUserID r) p) as (tail & Hrun & Ht).
  rewrite Hrun in Hin. apply elem_of_cons in Hin as [[= -> ->]|Hin]; cycle 1.
  { rewrite Forall_forall in Ht. by destruct (Ht _ Hin). }
  destruct (patchChecks_pass _ _ _ _ _ Hc) as (Hv & Hb & Ht' & Hk).
  by repeat split.
Qed.

Lemma patch_call_presupposes_witness :
  CallPatchBoardsAndBlocks patchMissingBlock "user1"
    ∈ runHandler (handlePatchBoardsAndBlocks openEnv (sampleRequest "")
                    (BodyValue patchMissingBlock)) ∧
  ∀ blockID, blockID ∈ BlockIDs patchMissingBlock →
    ∃ block, GetBlockWithID openEnv blockID = Ok (Some block)
             ∧ BoardID block ∈ BoardIDs patchMissingBlock.
Proof.
  assert (H : CallPatchBoardsAndBlocks patchMissingBlock "user1"
    ∈ runHandler (handlePatchBoardsAndBlocks openEnv (sampleRequest "")
                    (BodyValue patchMissingBlock))).
  { do 3 right. left. }
  split; [exact H|].
  exact (proj2 (proj2 (proj2 (proj2 (proj2
           (patch_call_presupposes _ _ _ _ _ H)))))).
Defined.

(** *** Delete *)

Lemma deleteCheckBoard_pass env u team boardID s evs s' team1 :
  deleteCheckBoard env u team boardID s = (evs, s', Some team1) →
  ∃ board,
    GetBoard env boardID = Ok (Some board)
    ∧ HasPermissionToBoard env u boardID PermissionDeleteBoard = true
    ∧ TeamID board = team1
    ∧ team1 = (if decide (team = ""%string) then TeamID board else team).
Proof.
  unfold deleteCheckBoard, hasPermissionToBoard, mbind, Handler_bind, emit,
    abort. cbn [mret Handler_ret].
  destruct (GetBoard env boardID) as [[board|]|] eqn:Hget; simpl;
    try discriminate.
  match goal with |- context [decide (?a ≠ ?b)] =>
    destruct (decide (a ≠ b)) as [|Hteam] end; simpl; [discriminate|].
  destruct (HasPermissionToBoard env u boardID PermissionDeleteBoard)
    eqn:Hperm; simpl; [|discriminate].
  intros [= _ _ <-]. exists board. do 2 (split; [done|]). split; [|done].
  by destruct (decide ((if decide (team = ""%string)
                        then TeamID board else team) = TeamID board)).
Qed.

Lemma deleteBoards_pass env u : ∀ boards team s evs s' team',
  foldM (deleteCheckBoard env u) team boards s = (evs, s', Some team') →
  (team ≠ ""%string → team' = team)
  ∧ ∀ boardID, boardID ∈ boards →
      ∃ board,
        GetBoard env boardID = Ok (Some board)
        ∧ HasPermissionToBoard env u boardID PermissionDeleteBoard = true
        ∧ (TeamID board = ""%string ∨ TeamID board = team').
Proof.
  induction boards as [|b boards IH]; intros team s evs s' team' H.
  - injection H as _ _ <-. split; [done|]. by intros i []%elem_of_nil.
  - cbn [foldM] in H. unfold mbind, Handler_bind in H.
    destruct (deleteCheckBoard env u team b s)
      as [[ev1 s1] [team1|]] eqn:E1; [|discriminate].
    destruct (foldM _ team1 boards s1) as [[ev2 s2] r2] eqn:E2.
    injection H as _ _ ->.
    destruct (deleteCheckBoard_pass _ _ _ _ _ _ _ _ E1)
      as (board & Hget & Hperm & Hteam & Hteam1).
    destruct (IH _ _ _ _ _ E2) as (IHkeep & IHall).
    split.
    + intros Hne. rewrite decide_False in Hteam1 by done.
      rewrite IHkeep; [done|]. by rewrite Hteam1.
    + intros boardID [->|Hin]%elem_of_cons; [|by apply IHall].
      exists board. do 2 (split; [done|]).
      destruct (decide (team1 = ""%string)) as [He|Hne].
      * left. by rewrite Hteam.
      * right. rewrite Hteam. symmetry. by apply IHkeep.
Qed.

Lemma deleteChecks_pass env u dbab evs s' :
  deleteChecks env u dbab initialState = (evs, s', Some tt) →
  dbab_IsValid env dbab = None
  ∧ (∀ boardID, boardID ∈ dbab_Boards dbab →
       ∃ board,
         GetBoard env boardID = Ok (Some board)
         ∧ HasPermissionToBoard env u boardID PermissionDeleteBoard = true)
  ∧ (∀ b1 b2 board1 board2,
       b1 ∈ dbab_Boards dbab → b2 ∈ dbab_Boards dbab →
       GetBoard env b1 = Ok (Some board1) →
       GetBoard env b2 = Ok (Some board2) →
       TeamID board1 ≠ ""%string → TeamID board2 ≠ ""%string →
       TeamID board1 = TeamID board2).
Proof.
  unfold deleteChecks. unfold mbind, Handler_bind.
  destruct (foldM (deleteCheckBoard env u) ""%string (dbab_Boards dbab)
              initialState) as [[ev1 s1] [team|]] eqn:Hboards; [|discriminate].
  destruct (dbab_IsValid env dbab) as [err|]; [discriminate|].
  intros _. destruct (deleteBoards_pass _ _ _ _ _ _ _ _ Hboards) as (_ & Hall).
  split; [done|]. split.
  - intros boardID Hin. destruct (Hall _ Hin) as (board & ? & ? & _).
    by exists board.
  - intros b1 b2 board1 board2 H1 H2 G1 G2 N1 N2.
    destruct (Hall _ H1) as (c1 & G1' & _ & T1).
    destruct (Hall _ H2) as (c2 & G2' & _ & T2).
    rewrite G1 in G1'. rewrite G2 in G2'.
    injection G1' as <-. injection G2' as <-.
    destruct T1 as [|T1]; [done|]. destruct T2 as [|T2]; [done|]. congruence.
Qed.

Lemma deleteCommit_run env u dbab :
  ∃ tail,
    runHandler (deleteCommit env u dbab) =
      CallDeleteBoardsAndBlocks dbab u :: tail
    ∧ Forall (λ e, ¬ isCommitCall e) tail.
Proof.
  unfold runHandler, deleteCommit.
  unfold mbind, Handler_bind, makeAuditRecord, deferLogRecord, AddMeta,
    updateRecord, emit, abort, Success. simpl.
  destruct (app_DeleteBoardsAndBlocks env dbab u) as [e|]; simpl;
    eexists; (split; [reflexivity|]); repeat constructor; by intros [].
Qed.

(** X7. [DeleteBoardsAndBlocks] is only ever called with the parsed
    delete set, after [IsValid] accepted it, and only if every targeted
    board exists and the user may delete it, and the targeted boards that
    name a team all name the same one. *)
Theorem delete_call_presupposes env r body dbab u :
  CallDeleteBoardsAndBlocks dbab u
    ∈ runHandler (handleDeleteBoardsAndBlocks env r body) →
  body = BodyValue dbab
  ∧ u = getUserID r
  ∧ dbab_IsValid env dbab = None
  ∧ (∀ boardID, boardID ∈ dbab_Boards dbab →
       ∃ board,
         GetBoard env boardID = Ok (Some board)
         ∧ HasPermissionToBoard env u boardID PermissionDeleteBoard = true)
  ∧ (∀ b1 b2 board1 board2,
       b1 ∈ dbab_Boards dbab → b2 ∈ dbab_Boards dbab →
       GetBoard env b1 = Ok (Some board1) →
       GetBoard env b2 = Ok (Some board2) →
       TeamID board1 ≠ ""%string → TeamID board2 ≠ ""%string →
       TeamID board1 = TeamID board2).
Proof.
  intros Hin. unfold handleDeleteBoardsAndBlocks in Hin.
  apply commit_in_run in Hin as (d & [] & ev0 & ev1 & Hp & Hc & Hin);
    [|apply parse_body_Stateless|apply parse_body_Emits
     |intros; apply deleteChecks_Stateless|intros; apply deleteChecks_Emits
     |exact I].
  apply parse_body_value in Hp.
  destruct (deleteCommit_run env (getUserID r) d) as (tail & Hrun & Ht).
  rewrite Hrun in Hin. apply elem_of_cons in Hin as [[= -> ->]|Hin]; cycle 1.
  { rewrite Forall_forall in Ht. by destruct (Ht _ Hin). }
  destruct (deleteChecks_pass _ _ _ _ _ Hc) as (Hv & Hb & Ht').
  by repeat split.
Qed.

Lemma delete_call_presupposes_witness :
  CallDeleteBoardsAndBlocks (mkDbab ["b1"%string; "b2"%string] []) "user1"
    ∈ runHandler (handleDeleteBoardsAndBlocks openEnv (sampleRequest "")
                    (BodyValue (mkDbab ["b1"%string; "b2"%string] []))) ∧
  ∀ boardID, boardID ∈ ["b1"%string; "b2"%string] →
    ∃ board,
      GetBoard openEnv boardID = Ok (Some board)
      ∧ HasPermissionToBoard openEnv "user1" boardID PermissionDeleteBoard
        = true.
Proof.
  assert (H : CallDeleteBoardsAndBlocks
                (mkDbab ["b1"%string; "b2"%string] []) "user1"
    ∈ runHandler (handleDeleteBoardsAndBlocks openEnv (sampleRequest "")
                    (BodyValue (mkDbab ["b1"%string; "b2"%string] [])))).
  { do 4 right. left. }
  split; [exact H|].
  exact (proj1 (proj2 (proj2 (proj2 (delete_call_presupposes _ _ _ _ _ H))))).
Defined.

(** ** [filterOrphanBlocks]: nothing is lost without orphans *)

Section OrphanFilterPermutation.
Import Orphans.

(** X4. For an input with pairwise distinct identifiers the result holds
    every input block at most once (so it is never longer than the
    input); and when every block is connected to a root, the result is a
    rearrangement of the whole input. *)
Theorem filterOrphanBlocks_rearranges (blocks : list Block) :
  NoDup (ID <$> blocks) →
  ∃ out,
    filterOrphanBlocks (length blocks) blocks = Some out
    ∧ out ⊆+ blocks
    ∧ length out ≤ length blocks
    ∧ ((∀ b, b ∈ blocks → Rooted blocks b) → out ≡ₚ blocks).
Proof.
  intros Hnd.
  destruct (filterOrphanBlocks_total blocks Hnd) as (out & Hout & HI).
  destruct HI as [Hnd' Hin _]. rewrite app_nil_r in Hnd', Hin.
  apply NoDup_fmap_1 in Hnd'.
  assert (Hsub : out ⊆+ blocks) by (by apply NoDup_submseteq).
  exists out. split; [done|]. split; [done|].
  split; [by apply submseteq_length|].
  intros Hall. apply NoDup_Permutation; [done|by apply NoDup_fmap_1 in Hnd|].
  intros b. split; [apply Hin|]. intros Hb.
  by apply (rooted_kept _ _ _ _ Hout), Hall.
Qed.

Lemma filterOrphanBlocks_rearranges_witness :
  NoDup (ID <$> sampleABC) ∧
  ∃ out, filterOrphanBlocks 3 sampleABC = Some out ∧ length out ≤ 3.
Proof.
  assert (Hnd : NoDup (ID <$> sampleABC)).
  { apply (bool_decide_unpack _). vm_compute. reflexivity. }
  split; [exact Hnd|].
  destruct (filterOrphanBlocks_rearranges sampleABC Hnd)
    as (out & Hout & _ & Hlen & _).
  exists out. split; [exact Hout|exact Hlen].
Defined.

End OrphanFilterPermutation.

(** ** [handleGetSubTree] and [handleImport]: what the calls presuppose *)

(** X8. [GetSubTree] is only ever called for a request that passed the
    access check, with the board and block of the route, and with 2 or 3
    levels: the number parsed from [l], or 2 when [l] does not parse. *)
Theorem getSubTree_call_presupposes env r boardID blockID levels :
  CallGetSubTree boardID blockID levels
    ∈ runHandler (handleGetSubTree env r) →
  canViewBoard env r = true
  ∧ boardID = vars r "boardID" ∧ blockID = vars r "blockID"
  ∧ (levels = 2%Z ∨ levels = 3%Z)
  ∧ levels = match ParseInt32 (query r "l") with
             | Some n => n
             | None => 2%Z
             end.
Proof.
  unfold runHandler, handleGetSubTree.
  unfold mbind at 1. unfold Handler_bind at 1.
  destruct (viewAccess_run env r initialState) as (evs & -> & Hevs).
  assert (Hno : ∀ e, e ∈ evs → e ≠ CallGetSubTree boardID blockID levels).
  { intros e He ->. rewrite Forall_forall in Hevs. exact (Hevs _ He). }
  destruct (canViewBoard env r); simpl negb; cbv iota; cycle 1.
  { simpl. unfold logDeferred. simpl. intros H.
    repeat (rewrite elem_of_app in H || rewrite elem_of_cons in H
            || rewrite elem_of_nil in H).
    repeat (match type of H with _ ∨ _ => destruct H as [H|H] end);
      try done; try discriminate H; by destruct (Hno _ H). }
  set (n := match ParseInt32 (query r "l") with Some n => n | None => 2%Z end).
  destruct (decide (n ≠ 2%Z ∧ n ≠ 3%Z)) as [Hn|Hn].
  { simpl. unfold logDeferred. simpl. intros H.
    repeat (rewrite elem_of_app in H || rewrite elem_of_cons in H
            || rewrite elem_of_nil in H).
    repeat (match type of H with _ ∨ _ => destruct H as [H|H] end);
      try done; try discriminate H; by destruct (Hno _ H). }
  assert (Hn' : n = 2%Z ∨ n = 3%Z) by lia.
  unfold mbind, Handler_bind, makeAuditRecord, deferLogRecord, AddMeta,
    Success, updateRecord, emit, abort. simpl.
  destruct (GetSubTree env _ _ n) as [blocks|e]; simpl;
    [destruct (MarshalBlocks env blocks) as [json|e]; simpl|];
    unfold logDeferred; simpl;
    intros H;
    repeat (rewrite elem_of_app in H || rewrite elem_of_cons in H
            || rewrite elem_of_nil in H);
    repeat (match type of H with _ ∨ _ => destruct H as [H|H] end);
    try done; try discriminate H; try (by destruct (Hno _ H));
    injection H as -> -> ->; by repeat split.
Qed.

Lemma getSubTree_call_presupposes_witness :
  CallGetSubTree "b1" "k1" 3
    ∈ runHandler (handleGetSubTree openEnv (sampleRequest "3")) ∧
  canViewBoard openEnv (sampleRequest "3") = true.
Proof.
  assert (H : CallGetSubTree "b1" "k1" 3
    ∈ runHandler (handleGetSubTree openEnv (sampleRequest "3"))).
  { right. left. }
  split; [exact H|].
  exact (proj1 (getSubTree_call_presupposes _ _ _ _ _ H)).
Defined.

(** X9. [handleImport] calls [InsertBlocks] only when the session's user
    may manage the cards of the route's board and the body could be read,
    on behalf of that user, with what [GenerateBlockIDs] returns for the
    submitted blocks after their board was overwritten and the metadata
    stamped. *)
Theorem import_insert_presupposes env r body bs u :
  CallInsertBlocks bs u ∈ runHandler (handleImport env r body) →
  HasPermissionToBoard env (getUserID r) (vars r "boardID")
    PermissionManageBoardCards = true
  ∧ u = getUserID r
  ∧ body ≠ BodyReadError ∧ body ≠ BodyMalformed
  ∧ bs = GenerateBlockIDs env
           (stampBlock (stampedActor r) (GetMillis env 0)
              <$> (setBoardID (vars r "boardID") <$> importedBlocks body)).
Proof.
  unfold runHandler, handleImport, hasPermissionToBoard.
  unfold mbind, Handler_bind, mret, Handler_ret, makeAuditRecord,
    deferLogRecord, AddMeta, updateRecord, emit, abort. simpl.
  destruct (HasPermissionToBoard env _ _ _) eqn:Hperm; simpl; cycle 1.
  { intros H. repeat (apply elem_of_cons in H as [H|H]; [discriminate|]).
    by apply elem_of_nil in H. }
  destruct body as [| | |blocks]; simpl importedBlocks; simpl;
    rewrite ?stampModificationMetadata_run; simpl;
    try (destruct (InsertBlocks env _ _ _) as [inserted|e]; simpl);
    unfold logDeferred; simpl; intros H;
    repeat (rewrite elem_of_app in H || rewrite elem_of_cons in H
            || rewrite elem_of_nil in H);
    repeat (match type of H with _ ∨ _ => destruct H as [H|H] end);
    try done; try discriminate H;
    simplify_eq; by repeat split.
Qed.

Lemma import_insert_presupposes_witness :
  (∃ bs, CallInsertBlocks bs "user1"
           ∈ runHandler (handleImport openEnv (sampleRequest "")
                           (BodyValue [sampleCard]))) ∧
  HasPermissionToBoard openEnv "user1" "b1" PermissionManageBoardCards = true.
Proof.
  assert (H : ∃ bs, CallInsertBlocks bs "user1"
           ∈ runHandler (handleImport openEnv (sampleRequest "")
                           (BodyValue [sampleCard]))).
  { eexists. do 2 right. left. }
  split; [exact H|]. destruct H as (bs & H).
  exact (proj1 (import_insert_presupposes _ _ _ _ _ H)).
Defined.

(** ** [handlePostBlocks] *)

Lemma checkPostedBlock_run boardID b s :
  (checkPostedBlock boardID b s = ([], s, Some tt)
   ∧ validBlock b ∧ BoardID b = boardID)
  ∨ ∃ msg, checkPostedBlock boardID b s =
             ([RespondError StatusBadRequest msg], s, None).
Proof.
  unfold checkPostedBlock.
  destruct (decide (String.length (BlockType b) < 1)) as [|Ht];
    [right; by eexists|].
  destruct (decide (CreateAt b < 1)%Z); [right; by eexists|].
  destruct (decide (UpdateAt b < 1)%Z); [right; by eexists|].
  destruct (decide (BoardID b ≠ boardID)) as [|Hb]; [right; by eexists|].
  left. split; [done|]. split.
  - split; [|lia]. intros He. apply Ht. by apply strlen_lt1.
  - by destruct (decide (BoardID b = boardID)).
Qed.

Lemma checkPostedBlocks_run boardID blocks s :
  (forEach (checkPostedBlock boardID) blocks s = ([], s, Some tt)
   ∧ ∀ b, b ∈ blocks → validBlock b ∧ BoardID b = boardID)
  ∨ ∃ msg, forEach (checkPostedBlock boardID) blocks s =
             ([RespondError StatusBadRequest msg], s, None).
Proof.
  induction blocks as [|b blocks IH].
  - left. split; [done|]. by intros b []%elem_of_nil.
  - cbn [forEach]. unfold mbind, Handler_bind.
    destruct (checkPostedBlock_run boardID b s) as [(-> & Hv & Hb)|(msg & ->)];
      [|right; by exists msg].
    destruct IH as [(-> & Hall)|(msg & ->)]; [|right; by exists msg].
    left. split; [done|]. intros b' [->|Hb']%elem_of_cons; auto.
Qed.

(** X10. [handlePostBlocks] calls [InsertBlocks] only when the user may
    manage the cards of the route's board and every submitted block has a
    type, timestamps of at least 1 and the board of the route; what is
    inserted are the blocks returned by [GenerateBlockIDs], each stamped
    with the acting user and one and the same reading of the clock. *)
Theorem postBlocks_insert_presupposes env r body bs u :
  CallInsertBlocks bs u ∈ runHandler (handlePostBlocks env r body) →
  HasPermissionToBoard env (getUserID r) (vars r "boardID")
    PermissionManageBoardCards = true
  ∧ u = getUserID r
  ∧ (∀ b, b ∈ importedBlocks body →
       (BlockType b ≠ ""%string ∧ (1 ≤ CreateAt b)%Z ∧ (1 ≤ UpdateAt b)%Z)
       ∧ BoardID b = vars r "boardID")
  ∧ bs = stampBlock (stampedActor r) (GetMillis env 0)
           <$> GenerateBlockIDs env (importedBlocks body)
  ∧ (∀ b, b ∈ bs →
       ModifiedBy b = stampedActor r ∧ UpdateAt b = GetMillis env 0).
Proof.
  intros H. unfold handlePostBlocks in H.
  rewrite (runHandler_bind _ _
             [CheckBoardPermission (getUserID r) (vars r "boardID")
                PermissionManageBoardCards]
             (Some (HasPermissionToBoard env (getUserID r) (vars r "boardID")
                      PermissionManageBoardCards)) eq_refl) in H.
  apply elem_of_cons in H as [H|H]; [discriminate|].
  destruct (HasPermissionToBoard env _ _ _) eqn:Hperm; simpl negb in H;
    cbv iota in H; cycle 1.
  { apply elem_of_cons in H as [H|H]; [discriminate|].
    by apply elem_of_nil in H. }
  assert (Hparse : ∃ evs res,
    (match body with
     | BodyReadError | BodyMalformed => abort StatusInternalServerError ""
     | BodyNull => mret []
     | BodyValue blocks => mret blocks
     end) initialState = (evs, initialState, res)
    ∧ (res = None ∧ (∃ e, evs = [e] ∧ isAbort e)
       ∨ res = Some (importedBlocks body) ∧ evs = [])).
  { destruct body; eexists _, _; (split; [reflexivity|]);
      first [by right|left; split; [done|]; by eexists]. }
  destruct Hparse as (ev0 & res0 & Hparse & Hres0).
  rewrite (runHandler_bind _ _ _ _ Hparse) in H.
  destruct Hres0 as [[-> (e & -> & He)]|[-> ->]].
  { rewrite app_nil_r in H. apply elem_of_cons in H as [H|H]; [by subst e|].
    by apply elem_of_nil in H. }
  simpl app in H.
  destruct (checkPostedBlocks_run (vars r "boardID") (importedBlocks body)
              initialState) as [(Hloop & Hall)|(msg & Hloop)];
    rewrite (runHandler_bind _ _ _ _ Hloop) in H; cycle 1.
  { rewrite app_nil_r in H. apply elem_of_cons in H as [H|H]; [discriminate|].
    by apply elem_of_nil in H. }
  simpl app in H.
  rewrite (runHandler_bind _ _ [CallGenerateBlockIDs (importedBlocks body)]
             (Some tt) eq_refl) in H.
  apply elem_of_cons in H as [H|H]; [discriminate|].
  assert (Hrest : u = getUserID r
    ∧ bs = stampBlock (stampedActor r) (GetMillis env 0)
             <$> GenerateBlockIDs env (importedBlocks body)).
  { revert H. unfold runHandler.
    unfold mbind, Handler_bind, makeAuditRecord, deferLogRecord, AddMeta,
      updateRecord, emit, abort, Success. simpl.
    rewrite stampModificationMetadata_run. simpl.
    destruct (InsertBlocks env _ _ _) as [inserted|e]; simpl;
      [destruct (MarshalBlocks env inserted) as [json|e]; simpl|];
      unfold logDeferred; simpl; intros H;
      repeat (rewrite elem_of_app in H || rewrite elem_of_cons in H
              || rewrite elem_of_nil in H);
      repeat (match type of H with _ ∨ _ => destruct H as [H|H] end);
      try done; try discriminate H;
      simplify_eq; by split. }
  destruct Hrest as [-> ->].
  split; [done|]. split; [done|]. split; [exact Hall|]. split; [done|].
  by intros b (b0 & -> & _)%list_elem_of_fmap.
Qed.

Lemma postBlocks_insert_presupposes_witness :
  (∃ bs, CallInsertBlocks bs "user1"
           ∈ runHandler (handlePostBlocks openEnv (sampleRequest "")
                           (BodyValue [sampleCard]))) ∧
  ∀ b, b ∈ [sampleCard] → BoardID b = "b1"%string.
Proof.
  assert (H : ∃ bs, CallInsertBlocks bs "user1"
           ∈ runHandler (handlePostBlocks openEnv (sampleRequest "")
                           (BodyValue [sampleCard]))).
  { eexists. do 2 right. left. }
  split; [exact H|]. destruct H as (bs & H). intros b Hb.
  exact (proj2 (proj1 (proj2 (proj2
           (postBlocks_insert_presupposes _ _ _ _ _ H))) b Hb)).
Defined.

(** ** The handlers of single blocks *)

Section SingleBlocks.

Ltac run_block :=
  unfold runBlockHandler, handleDeleteBlock, handlePatchBlock,
    handleGetBlocks, selectBlocks, handleExport;
  unfold mbind, mret, BlockHandler_bind, BlockHandler_ret, core, callStore,
    outOfFuel, hasPermissionToBoard, Handler_bind, Handler_ret,
    makeAuditRecord, deferLogRecord, AddMeta, Success, updateRecord, emit,
    abort, logDeferred, initialState; simpl.

Ltac in_trace :=
  solve [repeat first [apply list_elem_of_here | apply list_elem_of_further]].

Ltac elem_cases H :=
  repeat (rewrite elem_of_app in H || rewrite elem_of_cons in H
          || rewrite elem_of_nil in H);
  repeat (match type of H with _ ∨ _ => destruct H as [H|H] end);
  try done; try discriminate H.

(** X11. [handleDeleteBlock] calls [DeleteBlock] only for the block and
    user of the request, when the user may manage the cards of the
    route's board and the block exists on that board; the run then ends
    with the audit record [deleteBlock], which reports success exactly
    when [DeleteBlock] returned no error. *)
Theorem deleteBlock_call_presupposes store env r blockID u :
  Store (CallDeleteBlock blockID u)
    ∈ runBlockHandler (handleDeleteBlock store env r) →
  blockID = vars r "blockID" ∧ u = getUserID r
  ∧ HasPermissionToBoard env u (vars r "boardID")
      PermissionManageBoardCards = true
  ∧ (∃ block, GetBlockWithID env blockID = Ok (Some block)
              ∧ BoardID block = vars r "boardID")
  ∧ ∃ rec,
      last (runBlockHandler (handleDeleteBlock store env r))
        = Some (Core (AuditLogged LevelModify rec))
      ∧ EventName rec = "deleteBlock"%string
      ∧ (Status rec = AuditSuccess ↔ DeleteBlock store blockID u = None).
Proof.
  run_block.
  destruct (HasPermissionToBoard env _ _ _) eqn:Hperm; simpl;
    [|intros H; elem_cases H].
  destruct (GetBlockWithID env _) as [[block|]|e] eqn:Hget; simpl;
    [|intros H; elem_cases H..].
  destruct (decide (BoardID block ≠ _)) as [Hne|Heq%dec_stable]; simpl;
    [intros H; elem_cases H|].
  destruct (DeleteBlock store _ _) as [e|] eqn:Hdel; simpl;
    intros H; elem_cases H; simplify_eq;
    (split; [done|]); (split; [done|]); (split; [done|]);
    (split; [by eexists|]); eexists; (split; [reflexivity|]);
    (split; [done|]); by rewrite Hdel.
Qed.

Lemma deleteBlock_call_presupposes_witness :
  Store (CallDeleteBlock "k1" "user1")
    ∈ runBlockHandler (handleDeleteBlock (sampleStore []) openEnv
                         (blockRequest "")) ∧
  HasPermissionToBoard openEnv "user1" "b1" PermissionManageBoardCards = true.
Proof.
  assert (H : Store (CallDeleteBlock "k1" "user1")
    ∈ runBlockHandler (handleDeleteBlock (sampleStore []) openEnv
                         (blockRequest ""))).
  { do 2 right. left. }
  split; [exact H|].
  exact (proj1 (proj2 (proj2 (deleteBlock_call_presupposes _ _ _ _ _ H)))).
Defined.

(** X12. [handlePatchBlock] calls [PatchBlock] only for the block and
    user of the request and with the patch read from the body (no patch
    for the JSON [null]), when the user may manage the cards of the
    route's board and the block exists on that board; the run then ends
    with the audit record [patchBlock], which reports success exactly
    when [PatchBlock] returned no error. *)
Theorem patchBlock_call_presupposes store env r body blockID patch u :
  Store (CallPatchBlock blockID patch u)
    ∈ runBlockHandler (handlePatchBlock store env r body) →
  blockID = vars r "blockID" ∧ u = getUserID r
  ∧ (body = BodyNull ∧ patch = None
     ∨ ∃ p, body = BodyValue p ∧ patch = Some p)
  ∧ HasPermissionToBoard env u (vars r "boardID")
      PermissionManageBoardCards = true
  ∧ (∃ block, GetBlockWithID env blockID = Ok (Some block)
              ∧ BoardID block = vars r "boardID")
  ∧ ∃ rec,
      last (runBlockHandler (handlePatchBlock store env r body))
        = Some (Core (AuditLogged LevelModify rec))
      ∧ EventName rec = "patchBlock"%string
      ∧ (Status rec = AuditSuccess
         ↔ PatchBlock store blockID patch u = None).
Proof.
  run_block.
  destruct (HasPermissionToBoard env _ _ _) eqn:Hperm; simpl;
    [|intros H; elem_cases H].
  destruct (GetBlockWithID env _) as [[block|]|e] eqn:Hget; simpl;
    [|intros H; elem_cases H..].
  destruct (decide (BoardID block ≠ _)) as [Hne|Heq%dec_stable]; simpl;
    [intros H; elem_cases H|].
  destruct body as [| | |p]; simpl; try (intros H; by elem_cases H).
  all: destruct (PatchBlock store _ _ _) as [e|] eqn:Hpatch; simpl;
    intros H; elem_cases H; simplify_eq;
    (split; [done|]); (split; [done|]);
    (split; [first [by left|right; by eexists]|]); (split; [done|]);
    (split; [by eexists|]); eexists; (split; [reflexivity|]);
    (split; [done|]); by rewrite Hpatch.
Qed.

Lemma patchBlock_call_presupposes_witness :
  Store (CallPatchBlock "k1" None "user1")
    ∈ runBlockHandler (handlePatchBlock (sampleStore []) openEnv
                         (blockRequest "") BodyNull) ∧
  HasPermissionToBoard openEnv "user1" "b1" PermissionManageBoardCards = true.
Proof.
  assert (H : Store (CallPatchBlock "k1" None "user1")
    ∈ runBlockHandler (handlePatchBlock (sampleStore []) openEnv
                         (blockRequest "") BodyNull)).
  { do 2 right. left. }
  split; [exact H|].
  exact (proj1 (proj2 (proj2 (proj2
           (patchBlock_call_presupposes _ _ _ _ _ _ _ H))))).
Defined.

(** X13. For a user who may manage the cards of the board,
    [handleDeleteBlock] and [handlePatchBlock] answer a block that does
    not exist and a block of another board alike: 404 after the lookup,
    with no call to the store and no audit record, and for
    [handlePatchBlock] without regard to the body. *)
Theorem single_block_not_found store env r body :
  HasPermissionToBoard env (getUserID r) (vars r "boardID")
    PermissionManageBoardCards = true →
  (GetBlockWithID env (vars r "blockID") = Ok None
   ∨ ∃ block, GetBlockWithID env (vars r "blockID") = Ok (Some block)
              ∧ BoardID block ≠ vars r "boardID") →
  let notFound :=
    [Core (CheckBoardPermission (getUserID r) (vars r "boardID")
             PermissionManageBoardCards);
     Core (CallGetBlockWithID (vars r "blockID"));
     Core (RespondError StatusNotFound "")] in
  runBlockHandler (handleDeleteBlock store env r) = notFound
  ∧ runBlockHandler (handlePatchBlock store env r body) = notFound.
Proof.
  intros Hperm Hget. run_block. rewrite Hperm. simpl.
  destruct Hget as [->|(block & -> & Hne)]; simpl; [done|].
  by destruct (decide (BoardID block ≠ _)).
Qed.

Lemma single_block_not_found_witness :
  runBlockHandler (handleDeleteBlock (sampleStore []) blocklessEnv
                     (blockRequest ""))
  = [Core (CheckBoardPermission "user1" "b1" PermissionManageBoardCards);
     Core (CallGetBlockWithID "k1");
     Core (RespondError StatusNotFound "")].
Proof.
  exact (proj1 (single_block_not_found (sampleStore []) blocklessEnv
                  (blockRequest "") BodyNull eq_refl (or_introl eq_refl))).
Defined.

(** X14. When [handleGetBlocks] answers 200, the user may view the
    board and the body is the encoding of: all blocks of the board when
    [all] is given, whatever [block_id] says; otherwise, when [block_id]
    is given, the one block of that identifier, which is on the route's
    board, or no block when there is none; otherwise the blocks selected
    by [parent_id] and [type]. *)
Theorem getBlocks_answer store env r json :
  Core (Respond StatusOK json)
    ∈ runBlockHandler (handleGetBlocks store env r) →
  HasPermissionToBoard env (getUserID r) (vars r "boardID")
    PermissionViewBoard = true
  ∧ ∃ blocks,
      MarshalBlocks env blocks = Ok json
      ∧ (query r "all" ≠ ""%string →
           GetBlocksForBoard store (vars r "boardID") = Ok blocks)
      ∧ (query r "all" = ""%string → query r "block_id" ≠ ""%string →
           GetBlockWithID env (query r "block_id") = Ok None ∧ blocks = []
           ∨ ∃ block,
               GetBlockWithID env (query r "block_id") = Ok (Some block)
               ∧ BoardID block = vars r "boardID" ∧ blocks = [block])
      ∧ (query r "all" = ""%string → query r "block_id" = ""%string →
           GetBlocks store (vars r "boardID") (query r "parent_id")
             (query r "type") = Ok blocks).
Proof.
  run_block.
  destruct (HasPermissionToBoard env _ _ _) eqn:Hperm; simpl;
    [|intros H; elem_cases H].
  destruct (decide (query r "all" ≠ ""%string)) as [Hall|Hall%dec_stable];
    simpl;
    [|destruct (decide (query r "block_id" ≠ ""%string))
        as [Hid|Hid%dec_stable]; simpl].
  - destruct (GetBlocksForBoard store _) as [blocks|e] eqn:Hget; simpl;
      [|intros H; elem_cases H].
    destruct (MarshalBlocks env blocks) as [json'|e] eqn:Hjson; simpl;
      intros H; elem_cases H; simplify_eq.
    split; [done|]. exists blocks. by repeat split.
  - destruct (GetBlockWithID env _) as [[block|]|e] eqn:Hget; simpl;
      [|..|intros H; elem_cases H].
    + destruct (decide (BoardID block ≠ _)) as [Hne|Heq%dec_stable]; simpl;
        [intros H; elem_cases H|].
      destruct (MarshalBlocks env [block]) as [json'|e] eqn:Hjson; simpl;
        intros H; elem_cases H; simplify_eq.
      split; [done|]. exists [block]. repeat split; try done.
      intros _ _. right. by exists block.
    + destruct (MarshalBlocks env []) as [json'|e] eqn:Hjson; simpl;
        intros H; elem_cases H; simplify_eq.
      split; [done|]. exists []. repeat split; try done.
      intros _ _. by left.
  - destruct (GetBlocks store _ _ _) as [blocks|e] eqn:Hget; simpl;
      [|intros H; elem_cases H].
    destruct (MarshalBlocks env blocks) as [json'|e] eqn:Hjson; simpl;
      intros H; elem_cases H; simplify_eq.
    split; [done|]. exists blocks. by repeat split.
Qed.

Lemma getBlocks_answer_witness :
  Core (Respond StatusOK "[]")
    ∈ runBlockHandler (handleGetBlocks (sampleStore []) openEnv
                         (blockRequest "k1")) ∧
  HasPermissionToBoard openEnv "user1" "b1" PermissionViewBoard = true.
Proof.
  assert (H : Core (Respond StatusOK "[]")
    ∈ runBlockHandler (handleGetBlocks (sampleStore []) openEnv
                         (blockRequest "k1"))).
  { do 2 right. left. }
  split; [exact H|].
  exact (proj1 (getBlocks_answer _ _ _ _ H)).
Defined.

(** X15. Every run of [handleGetBlocks] that passes the permission check
    ends with the audit record [getBlocks] at read level, which starts
    with the board and the four query values; it reports success exactly
    when the answer was 200, and then closes with the number of blocks
    sent. *)
Theorem getBlocks_audited store env r :
  HasPermissionToBoard env (getUserID r) (vars r "boardID")
    PermissionViewBoard = true →
  ∃ rec,
    last (runBlockHandler (handleGetBlocks store env r))
      = Some (Core (AuditLogged LevelRead rec))
    ∧ EventName rec = "getBlocks"%string
    ∧ take 5 (Meta rec)
      = [("boardID"%string, MetaString (vars r "boardID"));
         ("parentID"%string, MetaString (query r "parent_id"));
         ("blockType"%string, MetaString (query r "type"));
         ("all"%string, MetaString (query r "all"));
         ("blockID"%string, MetaString (query r "block_id"))]
    ∧ (Status rec = AuditSuccess
       ↔ ∃ json, Core (Respond StatusOK json)
                   ∈ runBlockHandler (handleGetBlocks store env r))
    ∧ (Status rec = AuditSuccess →
       ∃ blocks json,
         MarshalBlocks env blocks = Ok json
         ∧ Core (Respond StatusOK json)
             ∈ runBlockHandler (handleGetBlocks store env r)
         ∧ drop 5 (Meta rec)
           = [("blockCount"%string, MetaInt (Z.of_nat (length blocks)))]).
Proof.
  intros Hperm. run_block. rewrite Hperm. simpl.
  assert (Hfail : ∀ x : list BlockEvent,
    (∀ e, e ∈ x → ¬ ∃ json, e = Core (Respond StatusOK json)) →
    (AuditFail = AuditSuccess ↔ ∃ json, Core (Respond StatusOK json) ∈ x)).
  { intros x Hx. split; [done|]. intros (json & Hj). destruct (Hx _ Hj).
    by exists json. }
  destruct (decide (query r "all" ≠ ""%string)); simpl;
    [|destruct (decide (query r "block_id" ≠ ""%string)); simpl].
  - destruct (GetBlocksForBoard store _) as [blocks|e]; simpl;
      [destruct (MarshalBlocks env blocks) as [json|e] eqn:Hjson; simpl|];
      eexists; (split; [reflexivity|]); (split; [done|]); (split; [done|]);
      simpl.
    + split; [split; [intros _; exists json; in_trace|done]|].
      intros _. exists blocks, json. split; [done|]. split; [in_trace|done].
    + split; [|done]. apply Hfail. intros e' He' (j & ->). elem_cases He'.
    + split; [|done]. apply Hfail. intros e' He' (j & ->). elem_cases He'.
  - destruct (GetBlockWithID env _) as [[block|]|e]; simpl;
      [destruct (decide (BoardID block ≠ _)); simpl;
         [|destruct (MarshalBlocks env [block]) as [json|e] eqn:Hjson; simpl]
      |destruct (MarshalBlocks env []) as [json|e] eqn:Hjson; simpl|];
      eexists; (split; [reflexivity|]); (split; [done|]); (split; [done|]);
      simpl.
    + split; [|done]. apply Hfail. intros e' He' (j & ->). elem_cases He'.
    + split; [split; [intros _; exists json; in_trace|done]|].
      intros _. exists [block], json. split; [done|].
      split; [in_trace|done].
    + split; [|done]. apply Hfail. intros e' He' (j & ->). elem_cases He'.
    + split; [split; [intros _; exists json; in_trace|done]|].
      intros _. exists [], json. split; [done|]. split; [in_trace|done].
    + split; [|done]. apply Hfail. intros e' He' (j & ->). elem_cases He'.
    + split; [|done]. apply Hfail. intros e' He' (j & ->). elem_cases He'.
  - destruct (GetBlocks store _ _ _) as [blocks|e]; simpl;
      [destruct (MarshalBlocks env blocks) as [json|e] eqn:Hjson; simpl|];
      eexists; (split; [reflexivity|]); (split; [done|]); (split; [done|]);
      simpl.
    + split; [split; [intros _; exists json; in_trace|done]|].
      intros _. exists blocks, json. split; [done|]. split; [in_trace|done].
    + split; [|done]. apply Hfail. intros e' He' (j & ->). elem_cases He'.
    + split; [|done]. apply Hfail. intros e' He' (j & ->). elem_cases He'.
Qed.

Lemma getBlocks_audited_witness :
  ∃ rec,
    last (runBlockHandler (handleGetBlocks (sampleStore []) openEnv
                             (blockRequest "k1")))
      = Some (Core (AuditLogged LevelRead rec))
    ∧ EventName rec = "getBlocks"%string.
Proof.
  destruct (getBlocks_audited (sampleStore []) openEnv (blockRequest "k1")
              eq_refl) as (rec & Hlast & Hname & _).
  exists rec. split; [exact Hlast|exact Hname].
Defined.

Lemma answer_last (pre : list BlockEvent) e :
  isAnswer e →
  ∃ pre' e' post, pre ++ [e] = pre' ++ e' :: post ∧ isAnswer e'
                  ∧ Forall isAudit post.
Proof. intros He. by exists pre, e, []. Qed.

Lemma answer_then_audit (pre : list BlockEvent) e a :
  isAnswer e → isAudit a →
  ∃ pre' e' post, pre ++ [e; a] = pre' ++ e' :: post ∧ isAnswer e'
                  ∧ Forall isAudit post.
Proof.
  intros He Ha. exists pre, e, [a]. repeat split; [done|]. by constructor.
Qed.

Ltac answered :=
  split; [reflexivity|]; split; [simpl; lia|];
  first
    [ apply (answer_last []); exact I
    | apply (answer_last [_]); exact I
    | apply (answer_last [_; _]); exact I
    | apply (answer_last [_; _; _]); exact I
    | apply (answer_then_audit []); exact I
    | apply (answer_then_audit [_]); exact I
    | apply (answer_then_audit [_; _]); exact I
    | apply (answer_then_audit [_; _; _]); exact I ].

(** X16. [handleDeleteBlock], [handlePatchBlock] and [handleGetBlocks]
    answer every request exactly once, the answer is the last thing they
    do before the audit record is written, and they write at most one
    audit record. *)
Theorem single_block_handlers_answer_once store env r body :
  let answersOnce (t : list BlockEvent) :=
    length (filter isAnswer t) = 1
    ∧ length (filter isAudit t) ≤ 1
    ∧ ∃ pre e post, t = pre ++ e :: post ∧ isAnswer e
                    ∧ Forall isAudit post in
  answersOnce (runBlockHandler (handleDeleteBlock store env r))
  ∧ answersOnce (runBlockHandler (handlePatchBlock store env r body))
  ∧ answersOnce (runBlockHandler (handleGetBlocks store env r)).
Proof.
  cbv zeta. split; [|split]; run_block.
  - destruct (HasPermissionToBoard env _ _ _); simpl;
      [|answered].
    destruct (GetBlockWithID env _) as [[block|]|e]; simpl;
      [destruct (decide (BoardID block ≠ _)); simpl;
         [|destruct (DeleteBlock store _ _); simpl]|..];
      answered.
  - destruct (HasPermissionToBoard env _ _ _); simpl;
      [|answered].
    destruct (GetBlockWithID env _) as [[block|]|e]; simpl;
      [destruct (decide (BoardID block ≠ _)); simpl;
         [|destruct body; simpl;
           try destruct (PatchBlock store _ _ _); simpl]|..];
      answered.
  - destruct (HasPermissionToBoard env _ _ _); simpl;
      [|answered].
    destruct (decide (query r "all" ≠ ""%string)); simpl;
      [|destruct (decide (query r "block_id" ≠ ""%string)); simpl].
    + destruct (GetBlocksForBoard store _) as [blocks|e]; simpl;
        [destruct (MarshalBlocks env blocks); simpl|];
        answered.
    + destruct (GetBlockWithID env _) as [[block|]|e]; simpl;
        [destruct (decide (BoardID block ≠ _)); simpl;
           [|destruct (MarshalBlocks env [block]); simpl]
        |destruct (MarshalBlocks env []); simpl|];
        answered.
    + destruct (GetBlocks store _ _ _) as [blocks|e]; simpl;
        [destruct (MarshalBlocks env blocks); simpl|];
        answered.
Qed.

(** ** [handleExport] *)

Lemma filterOrphanBlocks_enough_fuel fuel (blocks : list Block) :
  NoDup (ID <$> blocks) → length blocks ≤ fuel →
  ∃ out, Orphans.filterOrphanBlocks fuel blocks = Some out
         ∧ out ⊆+ blocks
         ∧ ∀ b, b ∈ out ↔ Rooted blocks b.
Proof.
  intros Hnd Hfuel.
  destruct (filterOrphanBlocks_total blocks Hnd) as (out & Hout & HI).
  destruct HI as [Hnd' Hin _]. rewrite app_nil_r in Hnd', Hin.
  apply NoDup_fmap_1 in Hnd'.
  exists out. split; [|split; [by apply NoDup_submseteq|]].
  - destruct (filterOrphanBlocks_unfold (length blocks) blocks)
      as (ch1 & H1 & E1).
    destruct (filterOrphanBlocks_unfold fuel blocks) as (ch2 & H2 & E2).
    rewrite E2, (mapTrees_children_ext ch2 ch1)
      by (intros b; by rewrite H1, H2).
    rewrite E1 in Hout. by apply (mapTrees_mono _ _ _ _ _ _ Hout).
  - intros b. split; [|by apply rooted_kept with (length blocks)].
    destruct (filterOrphanBlocks_levels _ _ _ Hout) as (n & _ & ->).
    apply levels_rooted. intros r Hr. apply roots_elem in Hr as [Hr Hr'].
    by apply rooted_root.
Qed.

(** X17. For a user who may view the board, and blocks with pairwise
    distinct identifiers read from the store (all blocks of the board, or
    with [root_id] the blocks under that root), [handleExport] answers
    with the encoding of exactly the blocks that are connected to a root,
    in the order of [filterOrphanBlocks]; its audit record [export] holds
    the board, the root, the number of blocks read and the number of
    blocks kept, which is never larger, and reports success exactly when
    the encoding succeeded. *)
Theorem export_answers_filtered fuel store env r (blocks : list Block) :
  HasPermissionToBoard env (getUserID r) (vars r "boardID")
    PermissionViewBoard = true →
  (if decide (query r "root_id" = ""%string)
   then GetBlocksForBoard store (vars r "boardID")
   else GetBlocksWithRootID store (vars r "boardID") (query r "root_id"))
    = Ok blocks →
  NoDup (ID <$> blocks) →
  length blocks ≤ fuel →
  ∃ out answer status,
    Orphans.filterOrphanBlocks fuel blocks = Some out
    ∧ (∀ b, b ∈ out ↔ Rooted blocks b)
    ∧ length out ≤ length blocks
    ∧ runBlockHandler (handleExport fuel store env r)
      = [Core (CheckBoardPermission (getUserID r) (vars r "boardID")
                 PermissionViewBoard);
         Store (if decide (query r "root_id" = ""%string)
                then CallGetBlocksForBoard (vars r "boardID")
                else CallGetBlocksWithRootID (vars r "boardID")
                       (query r "root_id"));
         Core answer;
         Core (AuditLogged LevelRead
                 (mkAuditRecord "export" status
                    [("boardID"%string, MetaString (vars r "boardID"));
                     ("rootID"%string, MetaString (query r "root_id"));
                     ("rawCount"%string,
                      MetaInt (Z.of_nat (length blocks)));
                     ("filteredCount"%string,
                      MetaInt (Z.of_nat (length out)))]))]
    ∧ match MarshalBlocks env out with
      | Ok json => answer = Respond StatusOK json ∧ status = AuditSuccess
      | Failed _ =>
          answer = RespondError StatusInternalServerError ""
          ∧ status = AuditFail
      end.
Proof.
  intros Hperm Hget Hnd Hfuel.
  destruct (filterOrphanBlocks_enough_fuel fuel blocks Hnd Hfuel)
    as (out & Hout & Hsub & Hrooted).
  exists out.
  assert (Hrun : ∀ answer status,
    match MarshalBlocks env out with
    | Ok json => answer = Respond StatusOK json ∧ status = AuditSuccess
    | Failed _ =>
        answer = RespondError StatusInternalServerError ""
        ∧ status = AuditFail
    end →
    runBlockHandler (handleExport fuel store env r)
    = [Core (CheckBoardPermission (getUserID r) (vars r "boardID")
               PermissionViewBoard);
       Store (if decide (query r "root_id" = ""%string)
              then CallGetBlocksForBoard (vars r "boardID")
              else CallGetBlocksWithRootID (vars r "boardID")
                     (query r "root_id"));
       Core answer;
       Core (AuditLogged LevelRead
               (mkAuditRecord "export" status
                  [("boardID"%string, MetaString (vars r "boardID"));
                   ("rootID"%string, MetaString (query r "root_id"));
                   ("rawCount"%string, MetaInt (Z.of_nat (length blocks)));
                   ("filteredCount"%string,
                    MetaInt (Z.of_nat (length out)))]))]).
  { intros answer status Hm. run_block. rewrite Hperm. simpl.
    destruct (decide (query r "root_id" = ""%string)); simpl;
      rewrite Hget; simpl; rewrite Hout; simpl;
      destruct (MarshalBlocks env out); simpl; by destruct Hm as [-> ->]. }
  destruct (MarshalBlocks env out) as [json|e] eqn:Hjson.
  - exists (Respond StatusOK json), AuditSuccess.
    split; [done|]. split; [done|]. split; [by apply submseteq_length|].
    split; [by apply Hrun|done].
  - exists (RespondError StatusInternalServerError ""), AuditFail.
    split; [done|]. split; [done|]. split; [by apply submseteq_length|].
    split; [by apply Hrun|done].
Qed.

Lemma export_answers_filtered_witness :
  ∃ out,
    Orphans.filterOrphanBlocks 3 Orphans.sampleABC = Some out
    ∧ length out ≤ 3.
Proof.
  assert (Hnd : NoDup (ID <$> Orphans.sampleABC)).
  { apply (bool_decide_unpack _). vm_compute. reflexivity. }
  destruct (export_answers_filtered 3 (sampleStore Orphans.sampleABC) openEnv
              (blockRequest "") Orphans.sampleABC eq_refl eq_refl Hnd
              (le_n 3))
    as (out & _ & _ & Hout & _ & Hlen & _).
  exists out. split; [exact Hout|exact Hlen].
Defined.

End SingleBlocks.

(** * Part IV: the handlers, request by request *)

Ltac run_steps :=
  unfold hasPermissionToBoard, mbind, Handler_bind, emit, abort, panic;
  cbn [mret Handler_ret]; simpl.

Ltac prefix_cases pre Heq :=
  repeat (destruct pre as [|? pre]; simplify_eq/=).

(** ** [handleImport]: the board of the imported blocks *)





(** ** [handleCreateBoardsAndBlocks]: bundles that are accepted *)

Lemma foldM_cons {A X} (f : A → X → Handler A) acc x xs :
  foldM f acc (x :: xs) = (acc' ← f acc x; foldM f acc' xs).
Proof. reflexivity. Qed.

Lemma checkBoards_fit boards : ∀ v s,
  teamID v ≠ ""%string → Forall (boardFits (teamID v)) boards →
  ∃ v', foldM checkBoard v boards s = ([], s, Some v').
Proof.
  induction boards as [|b boards IH]; intros v s Hv Hfit; [by eexists|].
  apply Forall_cons in Hfit as [Hb Hfit].
  destruct (checkBoard_fits v b s Hv Hb) as (v1 & Hrun & Hteam).
  destruct (IH v1 s) as (v' & Hrest); [by rewrite Hteam..|].
  exists v'. rewrite foldM_cons. unfold mbind, Handler_bind.
  by rewrite Hrun, Hrest.
Qed.

Lemma checkBoards_agree boards s :
  boardsAgree boards →
  ∃ v', foldM checkBoard (mkCreateVars false false "") boards s
        = ([], s, Some v').
Proof.
  destruct boards as [|first rest]; [by eexists|]. intros [Hteam Hfit].
  destruct (checkBoard_first (mkCreateVars false false "") first s eq_refl)
    as (v1 & Hrun & Hv1).
  destruct (checkBoards_fit rest v1 s) as (v' & Hrest); [by rewrite Hv1..|].
  exists v'. rewrite foldM_cons. unfold mbind, Handler_bind.
  by rewrite Hrun, Hrest.
Qed.

(** The loop over the boards goes through in silence, or stops with one
    of its two messages. *)
Lemma checkBoards_run boards : ∀ v s,
  (∃ v', foldM checkBoard v boards s = ([], s, Some v'))
  ∨ (∃ msg, foldM checkBoard v boards s
            = ([RespondError StatusBadRequest msg], s, None)
            ∧ (msg = multipleTeamsMessage ∨ msg = boardNeedsIDMessage)).
Proof.
  induction boards as [|b boards IH]; intros v s; [left; by eexists|].
  rewrite foldM_cons. unfold mbind, Handler_bind.
  assert (Hstep : (∃ v1, checkBoard v b s = ([], s, Some v1))
    ∨ (∃ msg, checkBoard v b s = ([RespondError StatusBadRequest msg], s, None)
              ∧ (msg = multipleTeamsMessage ∨ msg = boardNeedsIDMessage))).
  { unfold checkBoard. destruct (decide (teamID v = ""%string));
      [left; by eexists|].
    destruct (decide (teamID v ≠ TeamID b)); [right; eexists; eauto|].
    destruct (decide (Board_ID b = ""%string)); [right; eexists; eauto|].
    left. by eexists. }
  destruct Hstep as [(v1 & ->)|(msg & -> & Hmsg)]; [|right; by exists msg].
  destruct (IH v1 s) as [(v' & ->)|(msg & -> & Hmsg)];
    [left; by eexists|right; by exists msg].
Qed.

(** The checks of a create request whose blocks are valid and whose
    boards get through the loop: identifiers are generated, the
    permissions the bundle needs are asked on the team the boards name,
    and the checks pass when these are granted. *)
Lemma createChecks_accepts env u bab v newBab :
  (∀ b, b ∈ Blocks bab → validBlock b) →
  foldM checkBoard (mkCreateVars false false "") (Boards bab) initialState
    = ([], initialState, Some v) →
  GenerateBoardsAndBlocksIDs env bab = Ok newBab →
  ((∃ b, b ∈ Boards bab ∧ Board_Type b = BoardTypeOpen) →
   HasPermissionToTeam env u (firstTeam (Boards bab))
     PermissionCreatePublicChannel = true) →
  ((∃ b, b ∈ Boards bab ∧ Board_Type b = BoardTypePrivate) →
   HasPermissionToTeam env u (firstTeam (Boards bab))
     PermissionCreatePrivateChannel = true) →
  ∃ evs,
    createChecks env u bab initialState
    = (CallGenerateBoardsAndBlocksIDs bab :: evs, initialState,
       Some (newBab, firstTeam (Boards bab)))
    ∧ Forall isPermissionCheck evs.
Proof.
  intros Hvalid Hboards Hgen Hpub Hpriv.
  destruct (checkBoards_pass _ _ _ _ _ _ Hboards) as (Hteam & Hfpub & Hfpriv).
  simpl in Hteam, Hfpub, Hfpriv.
  unfold createChecks, mbind, Handler_bind.
  rewrite checkBlocks_valid by done. rewrite Hboards.
  unfold emit. simpl. rewrite Hgen, Hteam.
  unfold hasPermissionToTeam, mbind, Handler_bind, emit, abort.
  cbn [mret Handler_ret].
  assert (Hp1 : createsPublicBoards v = true →
    HasPermissionToTeam env u (firstTeam (Boards bab))
      PermissionCreatePublicChannel = true).
  { intros E. apply Hpub. by apply Hfpub in E as [|]. }
  assert (Hp2 : createsPrivateBoards v = true →
    HasPermissionToTeam env u (firstTeam (Boards bab))
      PermissionCreatePrivateChannel = true).
  { intros E. apply Hpriv. by apply Hfpriv in E as [|]. }
  clear Hfpub Hfpriv.
  destruct (createsPublicBoards v); destruct (createsPrivateBoards v); simpl;
    rewrite ?Hp1, ?Hp2 by done; simpl;
    (eexists; split; [reflexivity|]; by repeat constructor).
Qed.

Lemma createChecks_generates env u bab v :
  (∀ b, b ∈ Blocks bab → validBlock b) →
  foldM checkBoard (mkCreateVars false false "") (Boards bab) initialState
    = ([], initialState, Some v) →
  ∃ evs res,
    createChecks env u bab initialState
    = (CallGenerateBoardsAndBlocksIDs bab :: evs, initialState, res).
Proof.
  intros Hvalid Hboards.
  unfold createChecks, mbind, Handler_bind.
  rewrite checkBlocks_valid by done. rewrite Hboards.
  unfold emit. simpl.
  destruct (GenerateBoardsAndBlocksIDs env bab) as [newBab|e];
    [|by eexists _, _].
  unfold hasPermissionToTeam, mbind, Handler_bind, emit, abort.
  cbn [mret Handler_ret].
  destruct (createsPublicBoards v); destruct (createsPrivateBoards v); simpl;
    repeat (match goal with
            | |- context [HasPermissionToTeam ?e ?a ?b ?c] =>
                destruct (HasPermissionToTeam e a b c); simpl
            end);
    by eexists _, _.
Qed.

(** The trace of a create request, blocks valid, up to and after the
    generation of identifiers. *)
Lemma create_valid_blocks_run env r bab :
  (∀ b, b ∈ Blocks bab → validBlock b) →
  let t := runHandler (handleCreateBoardsAndBlocks env r (BodyValue bab)) in
  (∃ msg, t = [RespondError StatusBadRequest msg]
          ∧ (msg = multipleTeamsMessage ∨ msg = boardNeedsIDMessage)
          ∧ ¬ boardsAgree (Boards bab))
  ∨ (∃ v tail,
       foldM checkBoard (mkCreateVars false false "") (Boards bab)
         initialState = ([], initialState, Some v)
       ∧ t = CallGenerateBoardsAndBlocksIDs bab :: tail).
Proof.
  intros Hvalid t. subst t.
  unfold handleCreateBoardsAndBlocks. rewrite runHandler_value_bind.
  destruct (checkBoards_run (Boards bab) (mkCreateVars false false "")
              initialState) as [(v & Hrun)|(msg & Hrun & Hmsg)].
  - right. exists v.
    destruct (createChecks_generates env (getUserID r) bab v Hvalid Hrun)
      as (evs & res & Hchecks).
    rewrite (runHandler_bind _ _ _ _ Hchecks). by eexists.
  - left. exists msg.
    assert (Hchecks : createChecks env (getUserID r) bab initialState
                      = ([RespondError StatusBadRequest msg], initialState,
                         None)).
    { unfold createChecks, mbind, Handler_bind.
      rewrite checkBlocks_valid by done. by rewrite Hrun. }
    rewrite (runHandler_bind _ _ _ _ Hchecks). split; [done|].
    split; [done|].
    intros Hagree. apply (checkBoards_agree _ initialState) in Hagree
      as (v' & Hv'). congruence.
Qed.

Lemma checkBlocks_invalid_message blocks s :
  (∃ b, b ∈ blocks ∧ invalidBlock b) →
  ∃ b msg,
    b ∈ blocks ∧ invalidBlock b
    ∧ forEach checkBlock blocks s
      = ([RespondError StatusBadRequest msg], s, None)
    ∧ (msg = sprintf1 "missing type for block id " (ID b)
       ∨ msg = sprintf1 "invalid createAt for block id " (ID b)
       ∨ msg = sprintf1 "invalid UpdateAt for block id " (ID b)).
Proof.
  induction blocks as [|b blocks IH]; intros (b0 & Hb0 & Hinv).
  - by apply elem_of_nil in Hb0.
  - rewrite forEach_cons. unfold mbind, Handler_bind.
    destruct (validBlock_dec b) as [Hv|Hi].
    + rewrite checkBlock_valid by done.
      apply elem_of_cons in Hb0 as [Hb0|Hb0].
      * subst b0. destruct Hv as (Ht & Hc & Hu).
        destruct Hinv as [?|[?|?]]; [done|lia|lia].
      * destruct IH as (b1 & msg & Hb1 & Hi1 & -> & Hmsg); [eauto|].
        exists b1, msg. split; [by right|done].
    + exists b. unfold checkBlock.
      destruct (decide (String.length (BlockType b) < 1)) as [_|Ht];
        [eexists; split; [left|]; eauto|].
      destruct (decide (CreateAt b < 1)%Z);
        [eexists; split; [left|]; eauto|].
      destruct (decide (UpdateAt b < 1)%Z);
        [eexists; split; [left|]; eauto 6|].
      destruct Hi as [H|[H|H]]; [|lia|lia].
      destruct Ht. by apply strlen_lt1.
Qed.

Lemma createCommit_succeeds env u newBab team created data :
  app_CreateBoardsAndBlocks env newBab u true = Ok created →
  MarshalBab env created = Ok data →
  ∃ rec,
    runHandler (createCommit env u (newBab, team))
    = [CallCreateBoardsAndBlocks newBab u; Respond StatusOK data;
       AuditLogged LevelModify rec]
    ∧ Status rec = AuditSuccess
    ∧ EventName rec = "createBoardsAndBlocks"%string.
Proof.
  intros Hcreate Hjson. unfold runHandler, createCommit.
  unfold mbind, Handler_bind, makeAuditRecord, deferLogRecord, AddMeta,
    updateRecord, emit, abort, Success. simpl.
  rewrite Hcreate. simpl. rewrite Hjson. simpl.
  by eexists.
Qed.

(** C8. A create request with a block whose type is empty, or whose
    [createAt] or [updateAt] is below 1, is answered with a single HTTP
    400 that names such a block, and nothing else happens: no identifier
    is generated, no permission is asked, nothing is created, no audit
    record is written.  When every block has a type and both timestamps
    are at least 1, the loop over the blocks completes without a
    response and the handler goes on: it rejects the bundle only for
    its boards, with one of the two messages of the loop over the
    boards, and otherwise generates the identifiers; it does so whenever
    the boards name one team, and then, the identifiers generated, the
    permissions for the kinds of boards granted, the bundle stored and
    encoded, it answers 200 and records a success. *)
Theorem create_structural_validation env r (bab : BoardsAndBlocks) :
  let userID := getUserID r in
  let t := runHandler (handleCreateBoardsAndBlocks env r (BodyValue bab)) in
  ((∃ b, b ∈ Blocks bab ∧
         (BlockType b = ""%string ∨ (CreateAt b < 1)%Z ∨ (UpdateAt b < 1)%Z)) →
   ∃ b msg,
     b ∈ Blocks bab
     ∧ (BlockType b = ""%string ∨ (CreateAt b < 1)%Z ∨ (UpdateAt b < 1)%Z)
     ∧ t = [RespondError StatusBadRequest msg]
     ∧ (msg = sprintf1 "missing type for block id " (ID b)
        ∨ msg = sprintf1 "invalid createAt for block id " (ID b)
        ∨ msg = sprintf1 "invalid UpdateAt for block id " (ID b)))
  ∧ ((∀ b, b ∈ Blocks bab →
           BlockType b ≠ ""%string ∧ (1 ≤ CreateAt b)%Z ∧ (1 ≤ UpdateAt b)%Z) →
     (∀ s, forEach checkBlock (Blocks bab) s = ([], s, Some tt))
     ∧ ((∃ msg, t = [RespondError StatusBadRequest msg]
                ∧ (msg = multipleTeamsMessage ∨ msg = boardNeedsIDMessage)
                ∧ ¬ boardsAgree (Boards bab))
        ∨ ∃ tail, t = CallGenerateBoardsAndBlocksIDs bab :: tail)
     ∧ (boardsAgree (Boards bab) →
        ∃ tail, t = CallGenerateBoardsAndBlocksIDs bab :: tail)
     ∧ (∀ newBab created data,
          boardsAgree (Boards bab) →
          GenerateBoardsAndBlocksIDs env bab = Ok newBab →
          ((∃ b, b ∈ Boards bab ∧ Board_Type b = BoardTypeOpen) →
           HasPermissionToTeam env userID (firstTeam (Boards bab))
             PermissionCreatePublicChannel = true) →
          ((∃ b, b ∈ Boards bab ∧ Board_Type b = BoardTypePrivate) →
           HasPermissionToTeam env userID (firstTeam (Boards bab))
             PermissionCreatePrivateChannel = true) →
          app_CreateBoardsAndBlocks env newBab userID true = Ok created →
          MarshalBab env created = Ok data →
          ∃ checks rec,
            t = CallGenerateBoardsAndBlocksIDs bab
                :: checks ++ [CallCreateBoardsAndBlocks newBab userID;
                              Respond StatusOK data;
                              AuditLogged LevelModify rec]
            ∧ Forall isPermissionCheck checks
            ∧ Status rec = AuditSuccess)).
Proof.
  intros userID t. split.
  - intros H. subst t.
    destruct (checkBlocks_invalid_message (Blocks bab) initialState H)
      as (b & msg & Hb & Hinv & Hrun & Hmsg).
    exists b, msg. split; [done|]. split; [done|]. split; [|done].
    unfold handleCreateBoardsAndBlocks. rewrite runHandler_value_bind.
    assert (Hchecks : createChecks env (getUserID r) bab initialState
                      = ([RespondError StatusBadRequest msg], initialState,
                         None)).
    { unfold createChecks, mbind, Handler_bind. by rewrite Hrun. }
    by rewrite (runHandler_bind _ _ _ _ Hchecks).
  - intros Hvalid. split; [intros s; by apply checkBlocks_valid|].
    pose proof (create_valid_blocks_run env r bab Hvalid) as Hrun.
    fold t in Hrun. simpl in Hrun.
    split; [|split].
    + destruct Hrun as [Hrej|(v & tail & _ & Ht)]; [by left|right; eauto].
    + intros Hagree.
      destruct Hrun as [(msg & _ & _ & Hno)|(v & tail & _ & Ht)];
        [done|eauto].
    + intros newBab created data Hagree Hgen Hpub Hpriv Hcreate Hjson.
      destruct (checkBoards_agree _ initialState Hagree) as (v & Hboards).
      destruct (createChecks_accepts env userID bab v newBab Hvalid Hboards
                  Hgen Hpub Hpriv) as (checks & Hchecks & Hperm).
      destruct (createCommit_succeeds env userID newBab
                  (firstTeam (Boards bab)) created data Hcreate Hjson)
        as (rec & Hcommit & Hstatus & _).
      exists checks, rec. split; [|done]. subst t.
      unfold handleCreateBoardsAndBlocks. rewrite runHandler_value_bind.
      rewrite (runHandler_bind _ _ _ _ Hchecks). fold userID.
      by rewrite Hcommit.
Qed.

Lemma create_structural_validation_witness :
  (∃ b, b ∈ [Orphans.sampleBlock "k1" "" ""] ∧
        (BlockType b = ""%string ∨ (CreateAt b < 1)%Z ∨ (UpdateAt b < 1)%Z)) ∧
  (∃ b msg,
     b ∈ [Orphans.sampleBlock "k1" "" ""] ∧
     runHandler (handleCreateBoardsAndBlocks openEnv (sampleRequest "")
                   (BodyValue (mkBab [mkBoard "b1" "T1" "O"]
                                 [Orphans.sampleBlock "k1" "" ""]))) =
       [RespondError StatusBadRequest msg]) ∧
  (∀ b, b ∈ [sampleCard] →
        BlockType b ≠ ""%string ∧ (1 ≤ CreateAt b)%Z ∧ (1 ≤ UpdateAt b)%Z) ∧
  ∃ tail,
    runHandler (handleCreateBoardsAndBlocks openEnv (sampleRequest "")
                  (BodyValue (mkBab [mkBoard "b1" "T1" "O"] [sampleCard]))) =
      CallGenerateBoardsAndBlocksIDs (mkBab [mkBoard "b1" "T1" "O"] [sampleCard])
      :: tail.
Proof.
  assert (H : ∃ b, b ∈ [Orphans.sampleBlock "k1" "" ""] ∧
        (BlockType b = ""%string ∨ (CreateAt b < 1)%Z ∨ (UpdateAt b < 1)%Z)).
  { eexists. split; [left|]. by left. }
  assert (Hvalid : ∀ b, b ∈ [sampleCard] →
        BlockType b ≠ ""%string ∧ (1 ≤ CreateAt b)%Z ∧ (1 ≤ UpdateAt b)%Z).
  { intros b Hb. apply elem_of_cons in Hb as [Hb|Hb];
      [subst b; repeat split; [discriminate|reflexivity..]
      |by apply elem_of_nil in Hb]. }
  split; [exact H|]. split; [|split; [exact Hvalid|]].
  - destruct (proj1 (create_structural_validation openEnv (sampleRequest "")
                (mkBab [mkBoard "b1" "T1" "O"]
                   [Orphans.sampleBlock "k1" "" ""])) H)
      as (b & msg & Hb & _ & Hrun & _).
    exists b, msg. split; [exact Hb|exact Hrun].
  - refine (proj1 (proj2 (proj2 (proj2
              (create_structural_validation openEnv (sampleRequest "")
                 (mkBab [mkBoard "b1" "T1" "O"] [sampleCard])) Hvalid))) _).
    split; [discriminate|constructor].
Defined.

(** ** The audit record of the composite handlers, request by request *)

(** A request gets through the parser and the checks exactly when the
    trace ends with the persistence call, the answer and the audit
    record. *)
Lemma phases_record {A B} (parse : Handler A) (checks : A → Handler B)
    (commit : A → B → Handler unit) :
  Stateless parse → Emits isLookup isAbort parse →
  (∀ a, Stateless (checks a)) → (∀ a, Emits isLookup isAbort (checks a)) →
  (∀ a b, CommitShape (commit a b)) →
  (∃ a ev0 b ev1 s,
     parse initialState = (ev0, initialState, Some a)
     ∧ checks a initialState = (ev1, s, Some b))
  ↔ (∃ pre c answer rec,
       runHandler (a ← parse; b ← checks a; commit a b)
       = pre ++ [c; answer; AuditLogged LevelModify rec]
       ∧ isCommitCall c ∧ Forall isLookup pre).
Proof.
  intros Hps Hpe Hcs Hce Hcommit. split.
  - intros (a & ev0 & b & ev1 & s & Hparse & Hchecks).
    pose proof (Hcs a initialState) as Hs. rewrite Hchecks in Hs.
    simpl in Hs. subst s.
    pose proof (Hpe initialState) as He0. rewrite Hparse in He0.
    pose proof (Hce a initialState) as He1. rewrite Hchecks in He1.
    rewrite (runHandler_bind _ _ _ _ Hparse).
    rewrite (runHandler_bind _ _ _ _ Hchecks).
    destruct (commit_run _ (Hcommit a b))
      as (c & rec & Hc & [[-> _]|(data & -> & _)]);
      eexists (ev0 ++ ev1), c, _, rec;
      (split; [by rewrite <- app_assoc|]); (split; [done|]);
      by apply Forall_app.
  - intros (pre & c & answer & rec & Hrun & Hc & _).
    assert (Hin : c ∈ runHandler (a ← parse; b ← checks a; commit a b)).
    { rewrite Hrun. apply elem_of_app. right. left. }
    destruct (commit_in_run parse checks commit c Hps Hpe Hcs Hce Hc Hin)
      as (a & b & ev0 & ev1 & Hparse & Hchecks & _).
    by exists a, ev0, b, ev1, initialState.
Qed.

Lemma parse_body_run {A} (body : Body A) c1 c2 (a : A) :
  (∃ ev0, (match body with
           | BodyReadError => abort c1 ""
           | BodyMalformed => abort c2 ""
           | BodyNull => panic
           | BodyValue a => mret a
           end) initialState = (ev0, initialState, Some a))
  ↔ body = BodyValue a.
Proof.
  split.
  - intros (ev0 & H). by apply parse_body_value in H.
  - intros ->. by exists [].
Qed.

Lemma create_record_iff env r body :
  createPasses env r body
  ↔ ∃ pre c answer rec,
      runHandler (handleCreateBoardsAndBlocks env r body)
      = pre ++ [c; answer; AuditLogged LevelModify rec]
      ∧ isCommitCall c ∧ Forall isLookup pre.
Proof.
  unfold handleCreateBoardsAndBlocks.
  rewrite <- phases_record;
    [|apply parse_body_Stateless|apply parse_body_Emits
     |intros bab; apply createChecks_Stateless
     |intros bab; apply createChecks_Emits
     |intros bab checked; apply createCommit_shape].
  unfold createPasses. split.
  - intros (bab & evs & s & checked & -> & Hchecks).
    by exists bab, [], checked, evs, s.
  - intros (bab & ev0 & checked & ev1 & s & Hparse & Hchecks).
    apply parse_body_value in Hparse as ->. by exists bab, ev1, s, checked.
Qed.

Lemma patch_record_iff env r body :
  patchPasses env r body
  ↔ ∃ pre c answer rec,
      runHandler (handlePatchBoardsAndBlocks env r body)
      = pre ++ [c; answer; AuditLogged LevelModify rec]
      ∧ isCommitCall c ∧ Forall isLookup pre.
Proof.
  unfold handlePatchBoardsAndBlocks.
  rewrite <- (phases_record _ (λ pbab, patchChecks env (getUserID r) pbab)
                (λ pbab _, patchCommit env (getUserID r) pbab));
    [|apply parse_body_Stateless|apply parse_body_Emits
     |intros pbab; apply patchChecks_Stateless
     |intros pbab; apply patchChecks_Emits
     |intros pbab _; apply patchCommit_shape].
  unfold patchPasses. split.
  - intros (pbab & evs & s & -> & Hchecks).
    by exists pbab, [], tt, evs, s.
  - intros (pbab & ev0 & [] & ev1 & s & Hparse & Hchecks).
    apply parse_body_value in Hparse as ->. by exists pbab, ev1, s.
Qed.

Lemma delete_record_iff env r body :
  deletePasses env r body
  ↔ ∃ pre c answer rec,
      runHandler (handleDeleteBoardsAndBlocks env r body)
      = pre ++ [c; answer; AuditLogged LevelModify rec]
      ∧ isCommitCall c ∧ Forall isLookup pre.
Proof.
  unfold handleDeleteBoardsAndBlocks.
  rewrite <- (phases_record _ (λ dbab, deleteChecks env (getUserID r) dbab)
                (λ dbab _, deleteCommit env (getUserID r) dbab));
    [|apply parse_body_Stateless|apply parse_body_Emits
     |intros dbab; apply deleteChecks_Stateless
     |intros dbab; apply deleteChecks_Emits
     |intros dbab _; apply deleteCommit_shape].
  unfold deletePasses. split.
  - intros (dbab & evs & s & -> & Hchecks).
    by exists dbab, [], tt, evs, s.
  - intros (dbab & ev0 & [] & ev1 & s & Hparse & Hchecks).
    apply parse_body_value in Hparse as ->. by exists dbab, ev1, s.
Qed.

(** A request answered with 400 or 403 leaves no audit record. *)
Lemma outcome_rejected_unrecorded t code msg :
  Outcome t → RespondError code msg ∈ t →
  code = StatusBadRequest ∨ code = StatusForbidden →
  Forall (λ e, ¬ isAuditLogged e) t.
Proof.
  intros [pre e -> Hpre He|pre c rec -> Hpre Hc Hs|pre c data rec -> Hpre Hc Hs]
    Hin Hcode.
  - apply Forall_app. split.
    + eapply Forall_impl; [exact Hpre|]. apply isLookup_not_audit.
    + repeat constructor. destruct e; simpl in *; tauto.
  - exfalso. apply elem_of_app in Hin as [Hin|Hin].
    + rewrite Forall_forall in Hpre. by apply Hpre in Hin.
    + repeat (apply elem_of_cons in Hin as [Hin|Hin];
              [first [discriminate Hin|idtac]|]).
      * subst c. done.
      * injection Hin as -> _. by destruct Hcode.
      * by apply elem_of_nil in Hin.
  - exfalso. apply elem_of_app in Hin as [Hin|Hin].
    + rewrite Forall_forall in Hpre. by apply Hpre in Hin.
    + repeat (apply elem_of_cons in Hin as [Hin|Hin];
              [first [discriminate Hin|idtac]|]).
      * subst c. done.
      * by apply elem_of_nil in Hin.
Qed.

Lemma outcome_record t :
  Outcome t →
  ((∃ level rec, AuditLogged level rec ∈ t) ↔ (∃ c, c ∈ t ∧ isCommitCall c))
  ∧ (∀ pre level rec post,
       t = pre ++ AuditLogged level rec :: post →
       post = [] ∧ Forall (λ e, ¬ isAuditLogged e) pre)
  ∧ (∀ level rec,
       AuditLogged level rec ∈ t → Status rec = AuditSuccess →
       ∃ pre c data,
         t = pre ++ [c; Respond StatusOK data; AuditLogged level rec]
         ∧ isCommitCall c ∧ Forall isLookup pre)
  ∧ (∀ e level rec,
       e ∈ t → isAbort e → AuditLogged level rec ∈ t →
       Status rec = AuditFail).
Proof.
  intros Ht.
  destruct (outcome_cases t Ht)
    as [Hnone|(body & rec & -> & Hbody & Hcommit & Hstatus)].
  - assert (Hno : ∀ level rec, AuditLogged level rec ∉ t).
    { intros level rec H. rewrite Forall_forall in Hnone.
      by destruct (proj1 (Hnone _ H)). }
    split; [|split; [|split]].
    + split.
      * intros (level & rec & H). by destruct (Hno level rec).
      * intros (c & Hc & Hcc). rewrite Forall_forall in Hnone.
        by destruct (proj2 (Hnone _ Hc)).
    + intros pre level rec post ->. destruct (Hno level rec).
      apply elem_of_app. right. left.
    + intros level rec H. by destruct (Hno level rec).
    + intros e level rec _ _ H. by destruct (Hno level rec).
  - assert (Hsame : ∀ level rec',
      AuditLogged level rec' ∈ body ++ [AuditLogged LevelModify rec] →
      level = LevelModify ∧ rec' = rec).
    { intros level rec' [H|H]%elem_of_app.
      - rewrite Forall_forall in Hbody. by destruct (Hbody _ H).
      - apply elem_of_cons in H as [[= -> ->]|H]; [done|].
        by apply elem_of_nil in H. }
    split; [|split; [|split]].
    + split.
      * intros _. destruct Hcommit as (c & Hc & Hcc). exists c.
        split; [|done]. apply elem_of_app. by left.
      * intros _. exists LevelModify, rec. apply elem_of_app. right. left.
    + intros pre level rec' post Heq. symmetry in Heq.
      destruct (split_in_tail (λ e, ¬ isAuditLogged e)
                  (AuditLogged level rec') post
                  [AuditLogged LevelModify rec] body pre Hbody)
        as (mid & -> & Hmid); [by intros H; apply H|done|].
      destruct mid as [|m mid]; simpl in Hmid.
      * injection Hmid as _ _ <-. split; [done|]. by rewrite app_nil_r.
      * injection Hmid as _ Hmid. by destruct mid.
    + intros level rec' H Hs. destruct (Hsame _ _ H) as [-> ->].
      destruct Hstatus as [Hf|(_ & _ & pre & c & data & -> & Hc & Hpre)];
        [congruence|].
      exists pre, c, data. split; [by rewrite <- app_assoc|done].
    + intros e level rec' He Ha H. destruct (Hsame _ _ H) as [-> ->].
      destruct Hstatus as [Hf|(_ & Hna & _)]; [done|]. exfalso.
      apply elem_of_app in He as [He|He].
      * rewrite Forall_forall in Hna. by apply (Hna _ He).
      * apply elem_of_cons in He as [->|He]; [done|].
        by apply elem_of_nil in He.
Qed.

(** A trace without the persistence call ends with the error response
    or the panic of a check, after lookups only. *)
Lemma outcome_not_committed t :
  Outcome t →
  (¬ ∃ pre c answer rec,
       t = pre ++ [c; answer; AuditLogged LevelModify rec]
       ∧ isCommitCall c ∧ Forall isLookup pre) →
  ∃ pre e, t = pre ++ [e] ∧ isAbort e ∧ Forall isLookup pre.
Proof.
  intros [pre e -> Hpre He|pre c rec -> Hpre Hc Hs|pre c data rec -> Hpre Hc Hs]
    Hno.
  - by exists pre, e.
  - destruct Hno. by eexists pre, c, _, rec.
  - destruct Hno. by eexists pre, c, _, rec.
Qed.

Lemma createCommit_record env u newBab team :
  ∃ answer rec,
    runHandler (createCommit env u (newBab, team))
    = [CallCreateBoardsAndBlocks newBab u; answer;
       AuditLogged LevelModify rec]
    ∧ EventName rec = "createBoardsAndBlocks"%string.
Proof.
  unfold runHandler, createCommit.
  unfold mbind, Handler_bind, makeAuditRecord, deferLogRecord, AddMeta,
    updateRecord, emit, abort, Success. simpl.
  destruct (app_CreateBoardsAndBlocks env newBab u true) as [bab|e]; simpl;
    [destruct (MarshalBab env bab) as [data|e]; simpl|];
    by eexists _, _.
Qed.

Lemma patchCommit_record env u pbab :
  ∃ answer rec,
    runHandler (patchCommit env u pbab)
    = [CallPatchBoardsAndBlocks pbab u; answer; AuditLogged LevelModify rec]
    ∧ EventName rec = "patchBoardsAndBlocks"%string.
Proof.
  unfold runHandler, patchCommit.
  unfold mbind, Handler_bind, makeAuditRecord, deferLogRecord, AddMeta,
    updateRecord, emit, abort, Success. simpl.
  destruct (app_PatchBoardsAndBlocks env pbab u) as [bab|e]; simpl;
    [destruct (MarshalBab env bab) as [data|e]; simpl|];
    by eexists _, _.
Qed.

Lemma deleteCommit_record env u dbab :
  ∃ answer rec,
    runHandler (deleteCommit env u dbab)
    = [CallDeleteBoardsAndBlocks dbab u; answer; AuditLogged LevelModify rec]
    ∧ EventName rec = "deleteBoardsAndBlocks"%string.
Proof.
  unfold runHandler, deleteCommit.
  unfold mbind, Handler_bind, makeAuditRecord, deferLogRecord, AddMeta,
    updateRecord, emit, abort, Success. simpl.
  destruct (app_DeleteBoardsAndBlocks env dbab u) as [e|]; simpl;
    by eexists _, _.
Qed.

(** The checks of a patch request all of whose boards exist, belong to
    one team, have a valid patch and may be changed by the user, and all
    of whose blocks exist on targeted boards. *)
Lemma patchBoards_accept env u pbab team : ∀ entries v s,
  (∀ i b, (i, b) ∈ entries → patchGranted env u pbab team i b) →
  patch_teamID v = ""%string ∨ patch_teamID v = team →
  ∃ evs v', foldM (patchCheckBoard env u pbab) v entries s
            = (evs, s, Some v').
Proof.
  induction entries as [|[i b] entries IH]; intros v s Hall Hteam;
    [by eexists _, _|].
  destruct (Hall i b) as (patch & board & Hp & Hv & Hprops & Htype & Hget
                          & Hboard); [left|].
  assert (Hstep : ∃ ev1 v1,
    patchCheckBoard env u pbab v (i, b) s = (ev1, s, Some v1)
    ∧ (patch_teamID v1 = ""%string ∨ patch_teamID v1 = team)).
  { unfold patchCheckBoard. rewrite Hp, Hv. run_steps. rewrite Hprops. simpl.
    assert (Hteam' : (if decide (patch_teamID v = ""%string)
                      then TeamID board else patch_teamID v) = TeamID board).
    { destruct (decide (patch_teamID v = ""%string)) as [|Hne]; [done|].
      destruct Hteam as [ | -> ]; [done|]. by rewrite Hboard. }
    destruct (Patch_Type patch) as [ty|] eqn:Hty; simpl;
      [rewrite Htype by done; simpl|];
      rewrite Hget; simpl; rewrite Hteam';
      (destruct (decide (TeamID board ≠ TeamID board)) as [|_]; [done|]);
      eexists _, _; (split; [reflexivity|]); right; simpl; congruence. }
  destruct Hstep as (ev1 & v1 & Hstep & Hteam1).
  destruct (IH v1 s) as (ev2 & v' & Hrest); [|done|].
  { intros j c Hjc. apply Hall. by right. }
  exists (ev1 ++ ev2), v'. rewrite foldM_cons. unfold mbind, Handler_bind.
  by rewrite Hstep, Hrest.
Qed.

Lemma patchBlocks_accept env (m : gmap string bool) ids s :
  (∀ id, id ∈ ids →
         ∃ block, GetBlockWithID env id = Ok (Some block)
                  ∧ is_Some (m !! BoardID block)) →
  ∃ evs, forEach (patchCheckBlock env m) ids s = (evs, s, Some tt).
Proof.
  induction ids as [|id ids IH]; intros Hall; [by eexists|].
  destruct (Hall id) as (block & Hget & (x & Hx)); [left|].
  destruct IH as (ev2 & Hrest); [intros id' Hid'; apply Hall; by right|].
  rewrite forEach_cons. unfold mbind, Handler_bind.
  rewrite patchCheckBlock_run, Hget, Hx, Hrest. by eexists.
Qed.

Lemma patchChecks_accepts env u pbab team :
  pbab_IsValid env pbab = None →
  (∀ i b, BoardIDs pbab !! i = Some b → patchGranted env u pbab team i b) →
  (∀ id, id ∈ BlockIDs pbab →
         ∃ block, GetBlockWithID env id = Ok (Some block)
                  ∧ BoardID block ∈ BoardIDs pbab) →
  ∃ evs, patchChecks env u pbab initialState = (evs, initialState, Some tt)
         ∧ Forall isLookup evs.
Proof.
  intros Hvalid Hboards Hblocks.
  assert (Hrun : ∃ evs, patchChecks env u pbab initialState
                        = (evs, initialState, Some tt)).
  { unfold patchChecks. rewrite Hvalid.
    destruct (patchBoards_accept env u pbab team (indexed (BoardIDs pbab))
                (mkPatchVars "" ∅) initialState) as (ev1 & v & Hloop).
    { intros i b Hib. apply Hboards. by apply indexed_elem. }
    { by left. }
    destruct (patchBlocks_accept env (boardIDMap v) (BlockIDs pbab)
                initialState) as (ev2 & Hloop2).
    { intros id Hid. destruct (Hblocks id Hid) as (block & Hget & Hin).
      exists block. split; [done|].
      apply (patchBoards_map _ _ _ _ _ _ _ _ _ Hloop). right.
      by rewrite indexed_snd. }
    exists (ev1 ++ ev2). unfold mbind, Handler_bind.
    by rewrite Hloop, Hloop2. }
  destruct Hrun as (evs & Hrun). exists evs. split; [done|].
  pose proof (patchChecks_Emits env u pbab initialState) as He.
  by rewrite Hrun in He.
Qed.

(** The checks of a delete request all of whose boards exist, belong to
    one team and may be deleted by the user. *)
Lemma deleteBoards_accept env u team : ∀ boards acc s,
  (∀ b, b ∈ boards → deleteGranted env u team b) →
  acc = ""%string ∨ acc = team →
  ∃ evs acc', foldM (deleteCheckBoard env u) acc boards s
              = (evs, s, Some acc').
Proof.
  induction boards as [|b boards IH]; intros acc s Hall Hacc;
    [by eexists _, _|].
  destruct (Hall b) as (board & Hget & Hboard & Hperm); [left|].
  assert (Hstep : ∃ ev1 acc1,
    deleteCheckBoard env u acc b s = (ev1, s, Some acc1)
    ∧ (acc1 = ""%string ∨ acc1 = team)).
  { unfold deleteCheckBoard. run_steps. rewrite Hget. simpl.
    assert (Hteam' : (if decide (acc = ""%string)
                      then TeamID board else acc) = TeamID board).
    { destruct (decide (acc = ""%string)) as [|Hne]; [done|].
      destruct Hacc as [ | -> ]; [done|]. by rewrite Hboard. }
    rewrite Hteam'.
    destruct (decide (TeamID board ≠ TeamID board)) as [|_]; [done|].
    simpl. rewrite Hperm. simpl.
    eexists _, _. split; [reflexivity|]. by right. }
  destruct Hstep as (ev1 & acc1 & Hstep & Hacc1).
  destruct (IH acc1 s) as (ev2 & acc' & Hrest); [|done|].
  { intros c Hc. apply Hall. by right. }
  exists (ev1 ++ ev2), acc'. rewrite foldM_cons. unfold mbind, Handler_bind.
  by rewrite Hstep, Hrest.
Qed.

Lemma deleteChecks_accepts env u dbab team :
  (∀ b, b ∈ dbab_Boards dbab → deleteGranted env u team b) →
  dbab_IsValid env dbab = None →
  ∃ evs, deleteChecks env u dbab initialState = (evs, initialState, Some tt)
         ∧ Forall isLookup evs.
Proof.
  intros Hboards Hvalid.
  assert (Hrun : ∃ evs, deleteChecks env u dbab initialState
                        = (evs, initialState, Some tt)).
  { unfold deleteChecks.
    destruct (deleteBoards_accept env u team (dbab_Boards dbab) ""%string
                initialState Hboards) as (ev1 & acc & Hloop); [by left|].
    exists (ev1 ++ []). unfold mbind, Handler_bind.
    by rewrite Hloop, Hvalid. }
  destruct Hrun as (evs & Hrun). exists evs. split; [done|].
  pose proof (deleteChecks_Emits env u dbab initialState) as He.
  by rewrite Hrun in He.
Qed.

(** C4 (as amended). In the three boards-and-blocks handlers the audit
    record is created, with outcome failure, once validation and
    permission checks have passed.  A request that gets through the
    parser and the checks ends with the persistence call, the answer and
    one audit record, whatever the persistence layer and the encoder
    return.  So does every create request with valid blocks and boards
    of one team for which identifiers are generated and the permissions
    for its kinds of boards are granted; every patch request with a
    valid patch set whose boards exist in one team, each with a valid
    patch and the permissions to apply it, and whose blocks exist on
    targeted boards; and every delete request with a valid set whose
    boards exist in one team and may be deleted.  A request that does not get
    through ends with the error response or the panic of a check, and
    one answered with 400 or 403 leaves no record.  A record is logged
    exactly when the request was handed to the persistence layer, at
    most once, as the last thing the handler does.  A logged record says
    success only when the persistence call was followed by the 200
    response and nothing was aborted; whenever an error response or a
    panic occurs, a logged record says failure. *)
Theorem audit_record_outcome env r kind t :
  CompositeTrace env r kind t →
  ((∃ level rec, AuditLogged level rec ∈ t) ↔ (∃ c, c ∈ t ∧ isCommitCall c))
  ∧ (∀ pre level rec post,
       t = pre ++ AuditLogged level rec :: post →
       post = [] ∧ Forall (λ e, ¬ isAuditLogged e) pre)
  ∧ (∀ level rec,
       AuditLogged level rec ∈ t → Status rec = AuditSuccess →
       ∃ pre c data,
         t = pre ++ [c; Respond StatusOK data; AuditLogged level rec]
         ∧ isCommitCall c ∧ Forall isLookup pre)
  ∧ (∀ e level rec,
       e ∈ t → isAbort e → AuditLogged level rec ∈ t →
       Status rec = AuditFail)
  ∧ (∀ code msg,
       RespondError code msg ∈ t →
       code = StatusBadRequest ∨ code = StatusForbidden →
       Forall (λ e, ¬ isAuditLogged e) t)
  ∧ (∀ body,
       t = runHandler (handleCreateBoardsAndBlocks env r body) →
       (createPasses env r body
        ↔ ∃ pre c answer rec,
            t = pre ++ [c; answer; AuditLogged LevelModify rec]
            ∧ isCommitCall c ∧ Forall isLookup pre)
       ∧ (¬ createPasses env r body →
          ∃ pre e, t = pre ++ [e] ∧ isAbort e ∧ Forall isLookup pre))
  ∧ (∀ body,
       t = runHandler (handlePatchBoardsAndBlocks env r body) →
       (patchPasses env r body
        ↔ ∃ pre c answer rec,
            t = pre ++ [c; answer; AuditLogged LevelModify rec]
            ∧ isCommitCall c ∧ Forall isLookup pre)
       ∧ (¬ patchPasses env r body →
          ∃ pre e, t = pre ++ [e] ∧ isAbort e ∧ Forall isLookup pre))
  ∧ (∀ body,
       t = runHandler (handleDeleteBoardsAndBlocks env r body) →
       (deletePasses env r body
        ↔ ∃ pre c answer rec,
            t = pre ++ [c; answer; AuditLogged LevelModify rec]
            ∧ isCommitCall c ∧ Forall isLookup pre)
       ∧ (¬ deletePasses env r body →
          ∃ pre e, t = pre ++ [e] ∧ isAbort e ∧ Forall isLookup pre))
  ∧ (∀ bab newBab,
       t = runHandler (handleCreateBoardsAndBlocks env r (BodyValue bab)) →
       (∀ b, b ∈ Blocks bab →
             BlockType b ≠ ""%string ∧ (1 ≤ CreateAt b)%Z
             ∧ (1 ≤ UpdateAt b)%Z) →
       boardsAgree (Boards bab) →
       GenerateBoardsAndBlocksIDs env bab = Ok newBab →
       ((∃ b, b ∈ Boards bab ∧ Board_Type b = BoardTypeOpen) →
        HasPermissionToTeam env (getUserID r) (firstTeam (Boards bab))
          PermissionCreatePublicChannel = true) →
       ((∃ b, b ∈ Boards bab ∧ Board_Type b = BoardTypePrivate) →
        HasPermissionToTeam env (getUserID r) (firstTeam (Boards bab))
          PermissionCreatePrivateChannel = true) →
       ∃ pre answer rec,
         t = pre ++ [CallCreateBoardsAndBlocks newBab (getUserID r); answer;
                     AuditLogged LevelModify rec]
         ∧ EventName rec = "createBoardsAndBlocks"%string
         ∧ Forall isLookup pre)
  ∧ (∀ pbab team,
       t = runHandler (handlePatchBoardsAndBlocks env r (BodyValue pbab)) →
       pbab_IsValid env pbab = None →
       (∀ i b, BoardIDs pbab !! i = Some b →
               patchGranted env (getUserID r) pbab team i b) →
       (∀ id, id ∈ BlockIDs pbab →
              ∃ block, GetBlockWithID env id = Ok (Some block)
                       ∧ BoardID block ∈ BoardIDs pbab) →
       ∃ pre answer rec,
         t = pre ++ [CallPatchBoardsAndBlocks pbab (getUserID r); answer;
                     AuditLogged LevelModify rec]
         ∧ EventName rec = "patchBoardsAndBlocks"%string
         ∧ Forall isLookup pre)
  ∧ (∀ dbab team,
       t = runHandler (handleDeleteBoardsAndBlocks env r (BodyValue dbab)) →
       (∀ b, b ∈ dbab_Boards dbab →
             deleteGranted env (getUserID r) team b) →
       dbab_IsValid env dbab = None →
       ∃ pre answer rec,
         t = pre ++ [CallDeleteBoardsAndBlocks dbab (getUserID r); answer;
                     AuditLogged LevelModify rec]
         ∧ EventName rec = "deleteBoardsAndBlocks"%string
         ∧ Forall isLookup pre).
Proof.
  intros Ht. pose proof (composite_outcome _ _ _ _ Ht) as Hout.
  destruct (outcome_record t Hout) as (H1 & H2 & H3 & H4).
  split; [exact H1|]. split; [exact H2|]. split; [exact H3|].
  split; [exact H4|].
  split; [intros code msg; by apply outcome_rejected_unrecorded|].
  split; [|split; [|split; [|split; [|split]]]].
  - intros body ->. pose proof (create_record_iff env r body) as Hiff.
    split; [exact Hiff|]. intros Hno. apply outcome_not_committed; [done|].
    by rewrite <- Hiff.
  - intros body ->. pose proof (patch_record_iff env r body) as Hiff.
    split; [exact Hiff|]. intros Hno. apply outcome_not_committed; [done|].
    by rewrite <- Hiff.
  - intros body ->. pose proof (delete_record_iff env r body) as Hiff.
    split; [exact Hiff|]. intros Hno. apply outcome_not_committed; [done|].
    by rewrite <- Hiff.
  - intros bab newBab -> Hvalid Hagree Hgen Hpub Hpriv.
    destruct (checkBoards_agree _ initialState Hagree) as (v & Hboards).
    destruct (createChecks_accepts env (getUserID r) bab v newBab Hvalid
                Hboards Hgen Hpub Hpriv) as (checks & Hchecks & Hperm).
    destruct (createCommit_record env (getUserID r) newBab
                (firstTeam (Boards bab))) as (answer & rec & Hcommit & Hname).
    exists (CallGenerateBoardsAndBlocksIDs bab :: checks), answer, rec.
    split; [|split; [done|]].
    + unfold handleCreateBoardsAndBlocks. rewrite runHandler_value_bind.
      rewrite (runHandler_bind _ _ _ _ Hchecks). by rewrite Hcommit.
    + constructor; [done|]. eapply Forall_impl; [exact Hperm|].
      apply isPermissionCheck_isLookup.
  - intros pbab team -> Hvalid Hboards Hblocks.
    destruct (patchChecks_accepts env (getUserID r) pbab team Hvalid Hboards
                Hblocks) as (evs & Hchecks & Hlook).
    destruct (patchCommit_record env (getUserID r) pbab)
      as (answer & rec & Hcommit & Hname).
    exists evs, answer, rec. split; [|done].
    unfold handlePatchBoardsAndBlocks. rewrite runHandler_value_bind.
    rewrite (runHandler_bind _ _ _ _ Hchecks). by rewrite Hcommit.
  - intros dbab team -> Hboards Hvalid.
    destruct (deleteChecks_accepts env (getUserID r) dbab team Hboards Hvalid)
      as (evs & Hchecks & Hlook).
    destruct (deleteCommit_record env (getUserID r) dbab)
      as (answer & rec & Hcommit & Hname).
    exists evs, answer, rec. split; [|done].
    unfold handleDeleteBoardsAndBlocks. rewrite runHandler_value_bind.
    rewrite (runHandler_bind _ _ _ _ Hchecks). by rewrite Hcommit.
Qed.

Lemma audit_record_outcome_witness :
  CompositeTrace openEnv (sampleRequest "") CreateRequest
    (runHandler (handleCreateBoardsAndBlocks openEnv (sampleRequest "")
                   (BodyValue (mkBab [mkBoard "b1" "T1" "O"] [sampleCard]))))
  ∧ ∃ pre answer rec,
      runHandler (handleCreateBoardsAndBlocks openEnv (sampleRequest "")
                    (BodyValue (mkBab [mkBoard "b1" "T1" "O"] [sampleCard])))
      = pre ++ [CallCreateBoardsAndBlocks
                  (mkBab [mkBoard "b1" "T1" "O"] [sampleCard]) "user1";
                answer; AuditLogged LevelModify rec].
Proof.
  assert (Ht : CompositeTrace openEnv (sampleRequest "") CreateRequest
    (runHandler (handleCreateBoardsAndBlocks openEnv (sampleRequest "")
                   (BodyValue (mkBab [mkBoard "b1" "T1" "O"] [sampleCard])))))
    by constructor.
  split; [exact Ht|].
  destruct (proj1 (proj2 (proj2 (proj2 (proj2 (proj2 (proj2 (proj2 (proj2
              (audit_record_outcome _ _ _ _ Ht)))))))))
              (mkBab [mkBoard "b1" "T1" "O"] [sampleCard])
              (mkBab [mkBoard "b1" "T1" "O"] [sampleCard]) eq_refl)
    as (pre & answer & rec & Hrun & _).
  - intros b Hb. apply elem_of_cons in Hb as [Hb|Hb];
      [subst b; repeat split; [discriminate|reflexivity..]
      |by apply elem_of_nil in Hb].
  - split; [discriminate|constructor].
  - reflexivity.
  - intros _. reflexivity.
  - intros _. reflexivity.
  - exists pre, answer, rec. exact Hrun.
Defined.

(** ** The order of lookups and permission checks in patch and delete *)

Section TracesLogic.
Context (Q : list Event → Prop).
Hypothesis Qnil : Q [].
Hypothesis Qapp : ∀ l1 l2, Q l1 → Q l2 → Q (l1 ++ l2).

Lemma Traces_ret {A} (a : A) : Traces Q (mret a).
Proof. intros s. exact Qnil. Qed.

Lemma Traces_bind {A B} (m : Handler A) (k : A → Handler B) :
  Traces Q m → (∀ a, Traces Q (k a)) → Traces Q (m ≫= k).
Proof.
  intros Hm Hk s. unfold mbind, Handler_bind.
  specialize (Hm s). destruct (m s) as [[ev1 s1] [a|]]; [|done].
  specialize (Hk a s1). destruct (k a s1) as [[ev2 s2] ob].
  by apply Qapp.
Qed.

Lemma Traces_foldM {A X} (f : A → X → Handler A) xs :
  (∀ acc x, Traces Q (f acc x)) → ∀ acc, Traces Q (foldM f acc xs).
Proof.
  intros Hf. induction xs as [|x xs IH]; intros acc; simpl.
  - apply Traces_ret.
  - apply Traces_bind; [apply Hf|apply IH].
Qed.

Lemma Traces_forEach {X} (f : X → Handler unit) xs :
  (∀ x, Traces Q (f x)) → Traces Q (forEach f xs).
Proof.
  intros Hf. induction xs as [|x xs IH]; simpl.
  - apply Traces_ret.
  - apply Traces_bind; [apply Hf|intros _; apply IH].
Qed.

Lemma Traces_run (h : Handler unit) :
  Traces Q h → (∀ level rec, Q [AuditLogged level rec]) → Q (runHandler h).
Proof.
  intros Hh Hlog. unfold runHandler. specialize (Hh initialState).
  destruct (h initialState) as [[evs s] res]. apply Qapp; [done|].
  unfold logDeferred. destruct (deferred s), (auditRec s); auto.
Qed.

End TracesLogic.

Section PrefixedLogic.
Context (P : list Event → Event → Prop).
Hypothesis Pmono : ∀ k pre e, P pre e → P (k ++ pre) e.

Lemma Prefixed_nil : Prefixed P [].
Proof. intros pre e post H. by destruct pre. Qed.

Lemma Prefixed_app l1 l2 :
  Prefixed P l1 → Prefixed P l2 → Prefixed P (l1 ++ l2).
Proof.
  intros H1 H2 pre e post Heq.
  apply app_eq_inv in Heq as [(k & -> & Hk)|(k & -> & Hk)].
  - destruct k as [|x k]; simpl in Hk.
    + rewrite <- (app_nil_r pre). apply Pmono.
      by apply (H2 [] e post).
    + injection Hk as <- ->. by apply (H1 pre e k).
  - apply Pmono. by apply (H2 k e post).
Qed.

Lemma Prefixed_inert l :
  Forall (λ e, ∀ pre, P pre e) l → Prefixed P l.
Proof.
  intros Hl pre e post ->. apply Forall_app in Hl as [_ Hl].
  apply Forall_cons in Hl as [He _]. apply He.
Qed.

End PrefixedLogic.

Lemma checkedBeforeLookup_nil u : checkedBeforeLookup u [].
Proof. apply Prefixed_nil. Qed.

Lemma checkedBeforeLookup_app u l1 l2 :
  checkedBeforeLookup u l1 → checkedBeforeLookup u l2 →
  checkedBeforeLookup u (l1 ++ l2).
Proof.
  apply Prefixed_app. intros k pre e H b He.
  apply elem_of_app. right. by apply H.
Qed.

Lemma checkedBeforeLookup_inert u l :
  Forall (λ e, ∀ b, e ≠ CallGetBoard b) l → checkedBeforeLookup u l.
Proof.
  intros Hl. apply Prefixed_inert. eapply Forall_impl; [exact Hl|].
  intros e He pre b ->. by destruct (He b).
Qed.

Lemma lookedUpBeforeCheck_nil : lookedUpBeforeCheck [].
Proof. apply Prefixed_nil. Qed.

Lemma lookedUpBeforeCheck_app l1 l2 :
  lookedUpBeforeCheck l1 → lookedUpBeforeCheck l2 →
  lookedUpBeforeCheck (l1 ++ l2).
Proof.
  apply Prefixed_app. intros k pre e H u b p He.
  destruct (H u b p He) as (pre' & ->). exists (k ++ pre').
  by rewrite app_assoc.
Qed.

Lemma lookedUpBeforeCheck_inert l :
  Forall (λ e, ¬ isPermissionCheck e) l → lookedUpBeforeCheck l.
Proof.
  intros Hl. apply Prefixed_inert. eapply Forall_impl; [exact Hl|].
  intros e He pre u b p ->. by destruct He.
Qed.

(** *** Patch: the permission on a board is checked before the board is
    looked up, and blocks are looked up after all boards *)

Lemma patchCheckBoard_checked env u pbab v entry :
  Traces (checkedBeforeLookup u) (patchCheckBoard env u pbab v entry).
Proof.
  intros s. destruct entry as [i b]. unfold patchCheckBoard.
  destruct (BoardPatches pbab !! i) as [patch|];
    [|by apply checkedBeforeLookup_inert; repeat constructor].
  destruct (patch_IsValid env patch);
    [by apply checkedBeforeLookup_inert; repeat constructor|].
  run_steps.
  destruct (HasPermissionToBoard env u b PermissionManageBoardProperties);
    simpl; [|by apply checkedBeforeLookup_inert; repeat constructor].
  destruct (Patch_Type patch); simpl;
    [destruct (HasPermissionToBoard env u b PermissionManageBoardType); simpl;
     [|by apply checkedBeforeLookup_inert; repeat constructor]|];
    (destruct (GetBoard env b) as [[board|]|e]; simpl;
     [destruct (decide _); simpl|..]);
    intros pre e' post Heq b' ->; prefix_cases pre Heq;
    repeat first [apply list_elem_of_here | apply list_elem_of_further].
Qed.

Lemma patchCheckBlock_no_board env m blockID :
  Traces (Forall (λ e, ∀ b, e ≠ CallGetBoard b))
         (patchCheckBlock env m blockID).
Proof.
  intros s. unfold patchCheckBlock. run_steps.
  destruct (GetBlockWithID env blockID) as [[block|]|e]; simpl;
    [destruct (m !! BoardID block); simpl|..]; by repeat constructor.
Qed.

Lemma patch_checkedBeforeLookup env r body :
  checkedBeforeLookup (getUserID r)
    (runHandler (handlePatchBoardsAndBlocks env r body)).
Proof.
  pose proof (checkedBeforeLookup_nil (getUserID r)) as Qnil.
  pose proof (checkedBeforeLookup_app (getUserID r)) as Qapp.
  apply (Traces_run _ Qnil Qapp);
    [|intros level rec; by apply checkedBeforeLookup_inert; repeat constructor].
  unfold handlePatchBoardsAndBlocks.
  apply (Traces_bind _ Qapp).
  { intros s. destruct body; simpl;
      first [apply checkedBeforeLookup_nil
            |by apply checkedBeforeLookup_inert; repeat constructor]. }
  intros pbab. apply (Traces_bind _ Qapp).
  - unfold patchChecks. destruct (pbab_IsValid env pbab).
    { intros s. by apply checkedBeforeLookup_inert; repeat constructor. }
    apply (Traces_bind _ Qapp).
    + apply (Traces_foldM _ Qnil Qapp).
      intros acc x. apply patchCheckBoard_checked.
    + intros v s. apply checkedBeforeLookup_inert.
      apply (Traces_forEach (Forall (λ e, ∀ b, e ≠ CallGetBoard b)));
        [constructor|intros l1 l2 H1 H2; by apply Forall_app|].
      intros x. apply patchCheckBlock_no_board.
  - intros _ s. apply checkedBeforeLookup_inert.
    unfold patchCommit.
    unfold mbind, Handler_bind, makeAuditRecord, deferLogRecord, AddMeta,
      updateRecord, emit, abort, Success. simpl.
    destruct (app_PatchBoardsAndBlocks env pbab (getUserID r)) as [bab|e];
      simpl; [destruct (MarshalBab env bab) as [data|e]; simpl|];
      by repeat constructor.
Qed.

Lemma runHandler_assoc {A B} (m : Handler A) (k1 : A → Handler B)
    (k2 : B → Handler unit) :
  runHandler ((m ≫= k1) ≫= k2) = runHandler (m ≫= λ a, k1 a ≫= k2).
Proof.
  unfold runHandler, mbind, Handler_bind.
  destruct (m initialState) as [[ev1 s1] [a|]]; [|done].
  destruct (k1 a s1) as [[ev2 s2] [b|]]; [|done].
  destruct (k2 b s2) as [[ev3 s3] res]. by rewrite app_assoc.
Qed.

Lemma patchCheckBoard_emits_check env u pbab v i b s evs s' v' :
  patchCheckBoard env u pbab v (i, b) s = (evs, s', Some v') →
  CheckBoardPermission u b PermissionManageBoardProperties ∈ evs.
Proof.
  unfold patchCheckBoard.
  destruct (BoardPatches pbab !! i) as [patch|]; [|discriminate].
  destruct (patch_IsValid env patch); [discriminate|].
  run_steps.
  destruct (HasPermissionToBoard env u b PermissionManageBoardProperties);
    simpl; [|discriminate].
  destruct (Patch_Type patch); simpl;
    [destruct (HasPermissionToBoard env u b PermissionManageBoardType); simpl;
     [|discriminate]|];
    (destruct (GetBoard env b) as [[board|]|e]; simpl;
     [destruct (decide _); simpl|..]);
    intros [= <- _ _]; left.
Qed.

Lemma patchBoards_checks env u pbab : ∀ entries v s evs s' v',
  foldM (patchCheckBoard env u pbab) v entries s = (evs, s', Some v') →
  ∀ i b, (i, b) ∈ entries →
         CheckBoardPermission u b PermissionManageBoardProperties ∈ evs.
Proof.
  induction entries as [|[j c] entries IH]; intros v s evs s' v' Hrun i b Hin.
  - by apply elem_of_nil in Hin.
  - rewrite foldM_cons in Hrun. unfold mbind, Handler_bind in Hrun.
    destruct (patchCheckBoard env u pbab v (j, c) s) as [[ev1 s1] [v1|]]
      eqn:Hstep; [|discriminate].
    destruct (foldM (patchCheckBoard env u pbab) v1 entries s1)
      as [[ev2 s2] res] eqn:Hrest.
    injection Hrun as <- <- ->. apply elem_of_app.
    apply elem_of_cons in Hin as [[= -> ->]|Hin].
    + left. by apply patchCheckBoard_emits_check in Hstep.
    + right. by apply (IH _ _ _ _ _ Hrest i b).
Qed.

Lemma patchCheckBoard_no_block env u pbab v entry :
  Traces (Forall (λ e, ∀ id, e ≠ CallGetBlockWithID id))
         (patchCheckBoard env u pbab v entry).
Proof.
  intros s. destruct entry as [i b]. unfold patchCheckBoard.
  destruct (BoardPatches pbab !! i) as [patch|]; [|by repeat constructor].
  destruct (patch_IsValid env patch); [by repeat constructor|].
  run_steps.
  destruct (HasPermissionToBoard env u b PermissionManageBoardProperties);
    simpl; [|by repeat constructor].
  destruct (Patch_Type patch); simpl;
    [destruct (HasPermissionToBoard env u b PermissionManageBoardType); simpl;
     [|by repeat constructor]|];
    (destruct (GetBoard env b) as [[board|]|e]; simpl;
     [destruct (decide _); simpl|..]);
    by repeat constructor.
Qed.

Lemma patch_blocks_after_boards env r pbab pre blockID post :
  runHandler (handlePatchBoardsAndBlocks env r (BodyValue pbab))
    = pre ++ CallGetBlockWithID blockID :: post →
  ∀ b, b ∈ BoardIDs pbab →
       CheckBoardPermission (getUserID r) b PermissionManageBoardProperties
         ∈ pre.
Proof.
  unfold handlePatchBoardsAndBlocks. rewrite runHandler_value_bind.
  unfold patchChecks. destruct (pbab_IsValid env pbab) as [e|].
  { unfold runHandler, mbind, Handler_bind, abort. simpl.
    intros Heq. prefix_cases pre Heq. }
  rewrite runHandler_assoc.
  pose proof (Stateless_foldM (patchCheckBoard env (getUserID r) pbab)
                (indexed (BoardIDs pbab))
                (patchCheckBoard_Stateless env (getUserID r) pbab)
                (mkPatchVars "" ∅) initialState) as Hs.
  pose proof (Traces_foldM (Forall (λ e, ∀ id, e ≠ CallGetBlockWithID id))
                (Forall_nil_2 _) (λ l1 l2 H1 H2, Forall_app_2 _ l1 l2 H1 H2)
                (patchCheckBoard env (getUserID r) pbab)
                (indexed (BoardIDs pbab))
                (patchCheckBoard_no_block env (getUserID r) pbab)
                (mkPatchVars "" ∅) initialState) as Hnb.
  destruct (foldM _ _ (indexed (BoardIDs pbab)) initialState)
    as [[evb sb] resb] eqn:Hboards.
  simpl in Hs, Hnb. subst sb.
  rewrite (runHandler_bind _ _ _ _ Hboards). intros Heq b Hb.
  symmetry in Heq.
  destruct (split_in_tail (λ e, ∀ id, e ≠ CallGetBlockWithID id)
              (CallGetBlockWithID blockID) post _ evb pre Hnb
              (λ H, H blockID eq_refl) Heq)
    as (mid & -> & Hmid).
  destruct resb as [v|]; [|by destruct mid].
  apply elem_of_app. left.
  apply list_elem_of_lookup in Hb as (i & Hi).
  apply (patchBoards_checks _ _ _ _ _ _ _ _ _ Hboards i b).
  by apply indexed_elem.
Qed.

(** *** Delete: a board is looked up directly before the permission on
    it is checked *)

Lemma deleteCheckBoard_looked env u team boardID :
  Traces lookedUpBeforeCheck (deleteCheckBoard env u team boardID).
Proof.
  intros s. unfold deleteCheckBoard. run_steps.
  destruct (GetBoard env boardID) as [[board|]|e]; simpl;
    [destruct (decide _); simpl;
     [|destruct (HasPermissionToBoard env u boardID PermissionDeleteBoard);
       simpl]|..];
    intros pre e' post Heq u' b' p' ->; prefix_cases pre Heq;
    by exists [].
Qed.

Lemma delete_lookedUpBeforeCheck env r body :
  lookedUpBeforeCheck (runHandler (handleDeleteBoardsAndBlocks env r body)).
Proof.
  pose proof lookedUpBeforeCheck_nil as Qnil.
  pose proof lookedUpBeforeCheck_app as Qapp.
  apply (Traces_run _ Qnil Qapp);
    [|intros level rec; apply lookedUpBeforeCheck_inert; repeat constructor;
      by intros []].
  unfold handleDeleteBoardsAndBlocks.
  apply (Traces_bind _ Qapp).
  { intros s. destruct body; simpl;
      first [apply lookedUpBeforeCheck_nil
            |apply lookedUpBeforeCheck_inert; repeat constructor;
             by intros []]. }
  intros dbab. apply (Traces_bind _ Qapp).
  - unfold deleteChecks. apply (Traces_bind _ Qapp).
    + apply (Traces_foldM _ Qnil Qapp).
      intros acc x. apply deleteCheckBoard_looked.
    + intros _ s. destruct (dbab_IsValid env dbab); simpl;
        [apply lookedUpBeforeCheck_inert; repeat constructor; by intros []
        |apply lookedUpBeforeCheck_nil].
  - intros _ s. apply lookedUpBeforeCheck_inert.
    unfold deleteCommit.
    unfold mbind, Handler_bind, makeAuditRecord, deferLogRecord, AddMeta,
      updateRecord, emit, abort, Success. simpl.
    destruct (app_DeleteBoardsAndBlocks env dbab (getUserID r)) as [e|];
      simpl; repeat constructor; by intros [].
Qed.

Lemma patch_rejected_at_once env r body :
  (body = BodyMalformed
   ∨ (∃ pbab, body = BodyValue pbab ∧ pbab_IsValid env pbab ≠ None)
   ∨ (∃ pbab b rest patch,
        body = BodyValue pbab ∧ pbab_IsValid env pbab = None
        ∧ BoardIDs pbab = b :: rest
        ∧ BoardPatches pbab !! 0 = Some patch
        ∧ patch_IsValid env patch ≠ None)) →
  runHandler (handlePatchBoardsAndBlocks env r body)
  = [RespondError StatusBadRequest ""].
Proof.
  intros [->|[(pbab & -> & Hv)|(pbab & b & rest & patch & -> & Hv & Hb & Hp
                                 & Hpv)]]; [done|..];
    unfold handlePatchBoardsAndBlocks; rewrite runHandler_value_bind;
    unfold runHandler, patchChecks, mbind, Handler_bind.
  - by destruct (pbab_IsValid env pbab).
  - rewrite Hv, Hb. unfold indexed. simpl. rewrite Hp.
    by destruct (patch_IsValid env patch).
Qed.

Lemma delete_first_board_missing env r dbab b rest :
  dbab_Boards dbab = b :: rest → GetBoard env b = Ok None →
  runHandler (handleDeleteBoardsAndBlocks env r (BodyValue dbab))
  = [CallGetBoard b; RespondError StatusBadRequest ""].
Proof.
  intros Hb Hget.
  unfold handleDeleteBoardsAndBlocks. rewrite runHandler_value_bind.
  unfold runHandler, deleteChecks, mbind, Handler_bind. rewrite Hb. simpl.
  unfold deleteCheckBoard. run_steps. by rewrite Hget.
Qed.

Lemma delete_second_board_missing env r dbab b1 b2 rest board :
  dbab_Boards dbab = b1 :: b2 :: rest →
  GetBoard env b1 = Ok (Some board) →
  HasPermissionToBoard env (getUserID r) b1 PermissionDeleteBoard = true →
  GetBoard env b2 = Ok None →
  runHandler (handleDeleteBoardsAndBlocks env r (BodyValue dbab))
  = [CallGetBoard b1;
     CheckBoardPermission (getUserID r) b1 PermissionDeleteBoard;
     CallGetBoard b2; RespondError StatusBadRequest ""].
Proof.
  intros Hb Hget1 Hperm Hget2.
  unfold handleDeleteBoardsAndBlocks. rewrite runHandler_value_bind.
  unfold runHandler, deleteChecks, mbind, Handler_bind. rewrite Hb. simpl.
  unfold deleteCheckBoard. run_steps. rewrite Hget1. simpl.
  destruct (decide (TeamID board ≠ TeamID board)) as [H|_]; [done|].
  simpl. rewrite Hperm. simpl. by rewrite Hget2.
Qed.

(** C3 (as amended). In the three boards-and-blocks handlers no
    permission check runs once an error response has been sent.  In the
    create handler a validation or reference error (HTTP 400) is sent
    before any permission check has run.  The patch handler answers a
    malformed body, an invalid patch set and an invalid patch of the
    first board with 400 before any permission check; it looks a board
    up only after it has checked the permission on that board, and a
    block only after the permission on every targeted board.  The delete
    handler answers a malformed body and a missing first board with 400
    before any permission check, and checks the permission on a board
    directly after it has looked that board up; so a missing second
    board is found after the permission check on the first. *)
Theorem errors_and_permission_checks env r kind t :
  CompositeTrace env r kind t →
  (∀ pre code msg post,
     t = pre ++ RespondError code msg :: post →
     Forall (λ e, ¬ isPermissionCheck e) post)
  ∧ (kind = CreateRequest →
     ∀ msg, RespondError StatusBadRequest msg ∈ t →
            Forall (λ e, ¬ isPermissionCheck e) t)
  ∧ (∀ body,
       t = runHandler (handlePatchBoardsAndBlocks env r body) →
       ((body = BodyMalformed
         ∨ (∃ pbab, body = BodyValue pbab ∧ pbab_IsValid env pbab ≠ None)
         ∨ (∃ pbab b rest patch,
              body = BodyValue pbab ∧ pbab_IsValid env pbab = None
              ∧ BoardIDs pbab = b :: rest
              ∧ BoardPatches pbab !! 0 = Some patch
              ∧ patch_IsValid env patch ≠ None)) →
        t = [RespondError StatusBadRequest ""])
       ∧ checkedBeforeLookup (getUserID r) t
       ∧ (∀ pbab pre blockID post,
            body = BodyValue pbab →
            t = pre ++ CallGetBlockWithID blockID :: post →
            ∀ b, b ∈ BoardIDs pbab →
                 CheckBoardPermission (getUserID r) b
                   PermissionManageBoardProperties ∈ pre))
  ∧ (∀ body,
       t = runHandler (handleDeleteBoardsAndBlocks env r body) →
       (body = BodyMalformed → t = [RespondError StatusBadRequest ""])
       ∧ (∀ dbab b rest,
            body = BodyValue dbab → dbab_Boards dbab = b :: rest →
            GetBoard env b = Ok None →
            t = [CallGetBoard b; RespondError StatusBadRequest ""])
       ∧ lookedUpBeforeCheck t
       ∧ (∀ dbab b1 b2 rest board,
            body = BodyValue dbab → dbab_Boards dbab = b1 :: b2 :: rest →
            GetBoard env b1 = Ok (Some board) →
            HasPermissionToBoard env (getUserID r) b1 PermissionDeleteBoard
              = true →
            GetBoard env b2 = Ok None →
            t = [CallGetBoard b1;
                 CheckBoardPermission (getUserID r) b1 PermissionDeleteBoard;
                 CallGetBoard b2; RespondError StatusBadRequest ""])).
Proof.
  intros Ht. split; [|split; [|split]].
  - intros pre' code msg post Heq.
    destruct (outcome_tail t (composite_outcome _ _ _ _ Ht))
      as (pre & tail & -> & Hpre & Htail).
    destruct (split_in_tail isLookup (RespondError code msg) post tail
                pre pre' Hpre) as (mid & _ & ->); [by intros []|done|].
    apply Forall_app in Htail as [_ Htail].
    apply Forall_cons in Htail as [_ Htail].
    eapply Forall_impl; [exact Htail|].
    intros e He Hp. by apply He, isPermissionCheck_isLookup.
  - intros -> msg. inversion Ht as [body| |]; subst.
    apply create_bad_request_before_permissions.
  - intros body ->. split; [apply patch_rejected_at_once|].
    split; [apply patch_checkedBeforeLookup|].
    intros pbab pre blockID post -> Heq.
    by apply (patch_blocks_after_boards env r pbab pre blockID post).
  - intros body ->. split; [by intros ->|].
    split; [intros dbab b rest ->; apply delete_first_board_missing|].
    split; [apply delete_lookedUpBeforeCheck|].
    intros dbab b1 b2 rest board ->. apply delete_second_board_missing.
Qed.

Lemma errors_and_permission_checks_witness :
  CompositeTrace oneBoardEnv (sampleRequest "") DeleteRequest
    (runHandler (handleDeleteBoardsAndBlocks oneBoardEnv (sampleRequest "")
                   (BodyValue deleteTwoBoards))) ∧
  runHandler (handleDeleteBoardsAndBlocks oneBoardEnv (sampleRequest "")
                (BodyValue deleteTwoBoards))
  = [CallGetBoard "b1";
     CheckBoardPermission "user1" "b1" PermissionDeleteBoard;
     CallGetBoard "b2"; RespondError StatusBadRequest ""].
Proof.
  assert (Ht : CompositeTrace oneBoardEnv (sampleRequest "") DeleteRequest
    (runHandler (handleDeleteBoardsAndBlocks oneBoardEnv (sampleRequest "")
                   (BodyValue deleteTwoBoards)))) by constructor.
  split; [exact Ht|].
  exact (proj2 (proj2 (proj2 (proj2 (proj2 (proj2
           (errors_and_permission_checks _ _ _ _ Ht)))
           (BodyValue deleteTwoBoards) eq_refl)))
           deleteTwoBoards "b1" "b2" [] (mkBoard "b1" "T1" "O")
           eq_refl eq_refl eq_refl eq_refl eq_refl).
Defined.
